(** * Captain-AI learning stability engine: a shallow embedding

    The learning core of the repository lives in three places:

    - the PL/pgSQL function [calculate_pattern_stability] (the version
      installed last, by the "Fix All Precision Issues" script),
    - the PL/pgSQL trigger function
      [update_learning_insights_with_stability] and the view
      [validated_learning_insights_with_stability],
    - the TypeScript class [LearningService] ([analyzeEdit],
      [calculateEditPercentage], [calculateSuccessScore],
      [storeEditAnalysis]).

    Around it the development also embeds the version of
    [calculate_pattern_stability] that fix-phase2-schema-proper.js
    installs, the query of [calculateSuccessMetrics], and the handler of
    POST /learning/analyze-edit.

    SQL NUMERIC values are rationals ([Q]); every cast or assignment to a
    [DECIMAL(p,s)] the source writes is a rounding to [s] places that
    raises "numeric field overflow" when [p] digits do not suffice.
    A quotient that is cast to a [DECIMAL(p,s)] as soon as it is computed
    is kept exact until that cast, where PostgreSQL carries sixteen or more
    significant digits; a quotient that is stored or returned as it is (the
    success rate of a pattern, the average of an integer column) is rounded
    to the display scale NUMERIC division selects.  The square root is
    taken to sixteen decimal places.  Timestamps are seconds since the
    Unix epoch (UTC).  JavaScript strings are sequences of UTF-16 code
    units, JavaScript numbers are binary64. *)

From Stdlib Require Import ZArith QArith Qround Qabs Qpower List Sorted Permutation
  Bool Lia Lqa Psatz.
From Stdlib Require Import String Ascii.
From Stdlib Require Import PrimFloat Uint63.
From Stdlib Require Import Reals.
From stdpp Require Import base gmap strings.
Import ListNotations.

Local Open Scope Z_scope.

(** ** Failing SQL statements *)

Inductive sql_error : Set :=
| numeric_field_overflow
| sqrt_of_negative
| interval_rejected
| timestamp_out_of_range.

Inductive sql (A : Type) : Type :=
| Val (a : A)
| Raise (e : sql_error).
Arguments Val {A} a.
Arguments Raise {A} e.

Definition sql_bind {A B : Type} (m : sql A) (k : A -> sql B) : sql B :=
  match m with
  | Val a => k a
  | Raise e => Raise e
  end.

Notation "'do' x <- m ; k" := (sql_bind m (fun x => k))
  (at level 10, x name, m at level 100, k at level 200).

Fixpoint sql_map {A B : Type} (f : A -> sql B) (l : list A) : sql (list B) :=
  match l with
  | [] => Val []
  | a :: l' => do b <- f a; do bs <- sql_map f l'; Val (b :: bs)
  end.

(** ** NUMERIC arithmetic *)

Definition Qlt_bool (a b : Q) : bool := negb (Qle_bool b a).

(** Ten to the [s], the unit of a scale-[s] decimal. *)
Definition scale (s : nat) : positive := Z.to_pos (10 ^ Z.of_nat s).

(** NUMERIC rounds half away from zero. *)
Definition round_half_away (q : Q) : Z :=
  if Qle_bool 0 q then Qfloor (q + (1 # 2)) else - Qfloor (- q + (1 # 2)).

Definition numeric_round (s : nat) (q : Q) : Q :=
  Qred (round_half_away (q * inject_Z (Zpos (scale s))) # scale s).

(** [q :: DECIMAL(p,s)], also the assignment of [q] to a variable declared
    [DECIMAL(p,s)]: [s] is 2 or 3 throughout the source. *)
Definition cast_decimal (p s : nat) (q : Q) : sql Q :=
  let r := numeric_round s q in
  if Qle_bool (inject_Z (Zpos (scale (p - s)))) (Qabs r)
  then Raise numeric_field_overflow
  else Val r.

(** [SQRT] on NUMERIC.  PostgreSQL delivers at least sixteen significant
    digits; the embedding keeps sixteen decimal places, rounded down. *)
Definition root16 (q : Q) : Q :=
  Qred (Z.sqrt (Qfloor (q * inject_Z (Zpos (scale 32)))) # scale 16).

Definition numeric_sqrt (q : Q) : sql Q :=
  if Qlt_bool q 0 then Raise sqrt_of_negative else Val (root16 q).

Definition GREATEST (a b : Q) : Q := if Qle_bool a b then b else a.
Definition LEAST (a b : Q) : Q := if Qle_bool a b then a else b.

Definition Qsum (l : list Q) : Q := fold_right Qplus 0%Q l.

(** [AVG] over a non-empty bag of NUMERIC values (over the empty bag SQL
    yields NULL; no call below reaches it with one).  Quotients stay exact
    until the next cast. *)
Definition sql_avg (l : list Q) : Q :=
  (Qsum l / inject_Z (Z.of_nat (length l)))%Q.

(** ** NUMERIC division *)

(** A NUMERIC whose type fixes no scale: its value and its display scale,
    the number of decimal places it is kept with. *)
Record NUMERIC : Type := {
  numeric_value : Q;
  dscale : nat
}.

(** An integer operand is converted with display scale 0. *)
Definition numeric_of_integer (n : Z) : NUMERIC :=
  {| numeric_value := inject_Z n; dscale := 0 |}.

(** Sums and products are exact; their display scales are the larger one
    and the sum of the two. *)
Definition numeric_add (a b : NUMERIC) : NUMERIC :=
  {| numeric_value := (numeric_value a + numeric_value b)%Q;
     dscale := Nat.max (dscale a) (dscale b) |}.

Definition numeric_mul (a b : NUMERIC) : NUMERIC :=
  {| numeric_value := (numeric_value a * numeric_value b)%Q;
     dscale := (dscale a + dscale b)%nat |}.

(** PostgreSQL keeps a NUMERIC in base 10000.  The weight of a positive
    value is the exponent [w] of its first non-zero digit,
    [10000^w <= q < 10000^(w+1)], found by going down from an exponent that
    is too large. *)
Definition NBASE_power (w : Z) : Q := Qpower (inject_Z 10000) w.

Fixpoint weight_search (fuel : nat) (w : Z) (q : Q) : Z :=
  match fuel with
  | O => w
  | S fuel' =>
      if Qle_bool (NBASE_power w) q then w else weight_search fuel' (w - 1) q
  end.

Definition numeric_weight (q : Q) : Z :=
  weight_search (Z.to_nat (Z.log2 (Qnum q) + Z.log2 (Zpos (Qden q)) + 1))
    (Z.log2 (Qnum q)) q.

(** Weight and first base-10000 digit of [|q|]; both 0 for 0. *)
Definition leading_digit (q : Q) : Z * Z :=
  if Qle_bool (Qabs q) 0 then (0, 0)
  else
    let w := numeric_weight (Qabs q) in
    (w, Qfloor (Qabs q / NBASE_power w)).

(** The scale of a quotient: enough for sixteen significant digits by an
    estimate of the quotient's weight, and no less than either operand's
    display scale. *)
Definition select_div_scale (a b : NUMERIC) : nat :=
  let (weight1, firstdigit1) := leading_digit (numeric_value a) in
  let (weight2, firstdigit2) := leading_digit (numeric_value b) in
  let qweight :=
    if firstdigit1 <=? firstdigit2 then weight1 - weight2 - 1
    else weight1 - weight2 in
  Z.to_nat
    (Z.min 1000
       (Z.max (Z.max (Z.max (16 - qweight * 4) (Z.of_nat (dscale a)))
                 (Z.of_nat (dscale b))) 0)).

(** [a / b] for a divisor other than 0 (by 0 the division raises; no call
    below divides by 0): the quotient rounded to the selected scale. *)
Definition numeric_div (a b : NUMERIC) : NUMERIC :=
  let rscale := select_div_scale a b in
  {| numeric_value := numeric_round rscale (numeric_value a / numeric_value b);
     dscale := rscale |}.

(** [AVG] over a non-empty bag of integers: the sum divided by the count,
    as NUMERIC. *)
Definition AVG_integer (l : list Z) : Q :=
  numeric_value
    (numeric_div (numeric_of_integer (fold_right Z.add 0 l))
       (numeric_of_integer (Z.of_nat (length l)))).

(** ** Arrays *)

(** [array_length(a, 1)]: NULL for the NULL array, which is what an array
    variable never appended to holds. *)
Definition array_length {A : Type} (a : list A) : option Z :=
  match a with
  | [] => None
  | _ => Some (Z.of_nat (length a))
  end.

(** [a[lo:hi]], one-based and inclusive at both ends. *)
Definition array_slice {A : Type} (a : list A) (lo hi : Z) : list A :=
  let lo' := Z.max lo 1 in
  firstn (Z.to_nat (hi - lo' + 1)) (skipn (Z.to_nat (lo' - 1)) a).

(** ** calculate_pattern_stability, after its aggregation loop *)

(** The body of the function from [rate_count := array_length(...)] on, as
    a function of the array the loop has filled.  The earlier versions of
    the function (in the schema-fix scripts) take the same two slices for
    the drift test and differ in the precision of their variables. *)

Record stability_row : Type := {
  stability_score : Q;
  pattern_variance : Q;
  weekly_rates : list Q;
  is_stable : bool;
  drift_detected : bool
}.

Definition stability_of_rates (success_rates : list Q) : sql stability_row :=
  let rate_count := array_length success_rates in
  match rate_count with
  | None =>
      Val {| stability_score := 0.5; pattern_variance := 0;
             weekly_rates := success_rates;
             is_stable := false; drift_detected := false |}
  | Some rate_count =>
      if rate_count <? 3 then
        Val {| stability_score := 0.5; pattern_variance := 0;
               weekly_rates := success_rates;
               is_stable := false; drift_detected := false |}
      else
        do rates <- sql_map (cast_decimal 8 3) success_rates;
        do mean_rate <- cast_decimal 8 3 (sql_avg rates);
        do variance_calc <-
          cast_decimal 8 3
            (sql_avg (map (fun rate => (rate - mean_rate) * (rate - mean_rate))%Q rates));
        do stability_calc <-
          (if Qlt_bool 0 mean_rate then
             do root <- numeric_sqrt variance_calc;
             do cv <- cast_decimal 5 3 (1 - root / mean_rate)%Q;
             Val (GREATEST 0 (LEAST 1 cv))
           else Val 0%Q);
        do drift_detected_calc <-
          (if 4 <=? rate_count then
             do recent <- sql_map (cast_decimal 8 3)
                            (array_slice success_rates (rate_count - 1) rate_count);
             do recent_trend <- cast_decimal 8 3 (sql_avg recent);
             do historical <- sql_map (cast_decimal 8 3)
                                (array_slice success_rates 1 (rate_count - 2));
             do historical_trend <- cast_decimal 8 3 (sql_avg historical);
             Val (Qlt_bool 20 (Qabs (recent_trend - historical_trend)))
           else Val false);
        Val {| stability_score := stability_calc;
               pattern_variance := variance_calc;
               weekly_rates := success_rates;
               is_stable := Qle_bool 0.7 stability_calc;
               drift_detected := drift_detected_calc |}
  end.

(** ** The edit_analyses table and the weekly aggregation query *)

(** The columns storeEditAnalysis writes, and created_at, which the
    database stamps when the statement leaves it out. *)
Record edit_analyses_row : Type := {
  response_id : string;
  original_text : list Z;
  edited_text : list Z;
  edit_type : string;
  edit_percentage : Z;
  edit_description : string;
  success_score : Z;
  learning_insight : string;
  user_id : option string;
  created_at : Z
}.

Definition seconds_per_day : Z := 86400.
Definition seconds_per_week : Z := 604800.

(** [CURRENT_DATE], as the timestamp of its midnight. *)
Definition CURRENT_DATE (now : Z) : Z := now - now mod seconds_per_day.

(** [DATE_TRUNC('week', t)]: the Monday that starts the week of [t]
    (the epoch fell on a Thursday, three days into its week). *)
Definition DATE_TRUNC_week (t : Z) : Z :=
  t - (t + 3 * seconds_per_day) mod seconds_per_week.

(** The WHERE clause of the aggregation query. *)
Definition in_window (now : Z) (pattern_value_param : string)
    (user_id_param : option string) (ea : edit_analyses_row) : bool :=
  String.eqb (edit_type ea) pattern_value_param
  && (CURRENT_DATE now - 8 * seconds_per_week <=? created_at ea)
  && match user_id_param with
     | None => true
     | Some u => match user_id ea with
                 | Some v => String.eqb v u
                 | None => false
                 end
     end.

(** GROUP BY week with ORDER BY week_start: the groups are kept in
    ascending order of their key while the rows are distributed. *)
Fixpoint group_insert (week_start : Z) (score : Z) (groups : list (Z * list Z))
  : list (Z * list Z) :=
  match groups with
  | [] => [(week_start, [score])]
  | (w, scores) :: rest =>
      if week_start <? w then (week_start, [score]) :: groups
      else if week_start =? w then (w, score :: scores) :: rest
      else (w, scores) :: group_insert week_start score rest
  end.

Definition group_by_week (rows : list edit_analyses_row) : list (Z * list Z) :=
  fold_right
    (fun ea groups =>
       group_insert (DATE_TRUNC_week (created_at ea)) (success_score ea) groups)
    [] rows.

Definition zs (l : list Z) : list Q := map inject_Z l.

(** The query the FOR loop of calculate_pattern_stability runs:
    (week_start, week_avg_success) with HAVING COUNT( * ) >= 2. *)
Definition weekly_query (now : Z) (pattern_value_param : string)
    (user_id_param : option string) (rows : list edit_analyses_row)
  : list (Z * Q) :=
  map (fun g => (fst g, AVG_integer (snd g)))
    (List.filter (fun g => 2 <=? Z.of_nat (length (snd g)))
       (group_by_week
          (List.filter (in_window now pattern_value_param user_id_param) rows))).

(** ** The learning_insights table *)

(** One row per (pattern_type, pattern_value).  The CREATE TABLE statement
    is not among the sources: the counters are integers, success_rate is a
    NUMERIC without a declared scale, holding what the trigger's SET clause
    computes with the display scale the division gives it, and the
    stability columns have the types the migration scripts give them. *)
Record learning_insights_row : Type := {
  pattern_type : string;
  pattern_value : string;
  frequency : Z;
  success_rate : NUMERIC;
  recommendation : string;
  confidence : Z;
  sample_size : Z;
  time_span_days : Z;
  first_occurrence : Z;
  threshold_met : bool;
  li_stability_score : Q;
  li_pattern_variance : Q;
  weekly_success_rates : list Q;
  stability_validated : bool;
  pattern_drift_detected : bool;
  last_updated : Z
}.

Record db : Type := {
  edit_analyses : list edit_analyses_row;
  learning_insights : gmap (string * string) learning_insights_row
}.

Definition empty_db : db :=
  {| edit_analyses := []; learning_insights := ∅ |}.

(** A SELECT leaves the database as it found it. *)
Definition weeklyAverages (now : Z) (pattern_value_param : string)
    (user_id_param : option string) (d : db) : list (Z * Q) * db :=
  (weekly_query now pattern_value_param user_id_param (edit_analyses d), d).

Definition calculate_pattern_stability (now : Z)
    (pattern_type_param pattern_value_param : string)
    (user_id_param : option string) (d : db) : sql stability_row :=
  do success_rates <-
    sql_map (cast_decimal 5 2)
      (map snd (fst (weeklyAverages now pattern_value_param user_id_param d)));
  stability_of_rates success_rates.

(** ** The trigger function update_learning_insights_with_stability *)

(** [EXTRACT(DAY FROM interval)] of a difference of two timestamps. *)
Definition EXTRACT_DAY (interval : Z) : Z := Z.quot interval seconds_per_day.

(** The threshold test, as the SET clause spells it on the three values it
    has just computed. *)
Definition thresholdMet (sampleSize confidence timeSpanDays : Z) : bool :=
  (5 <=? sampleSize) && (65 <=? confidence) && (3 <=? timeSpanDays).

Definition recommendation_for (score : Z) : string :=
  if 75 <=? score then "Current approach working well"
  else if 50 <=? score then "Minor adjustments needed"
  else "Significant improvements required".

(** INSERT ... ON CONFLICT (pattern_type, pattern_value) DO UPDATE, followed
    by the UPDATE that copies [stability_data] into the same row.  The five
    stability columns are written by that last statement in either branch,
    so the row is built once with them in place. *)
Definition upsert_row (now : Z) (NEW : edit_analyses_row)
    (existing : option learning_insights_row) (stability_data : stability_row)
  : learning_insights_row :=
  match existing with
  | None =>
      {| pattern_type := "edit_type";
         pattern_value := edit_type NEW;
         frequency := 1;
         success_rate := numeric_of_integer (success_score NEW);
         recommendation := recommendation_for (success_score NEW);
         confidence := 50;
         sample_size := 1;
         time_span_days := 1;
         first_occurrence := now;
         threshold_met := false;
         li_stability_score := stability_score stability_data;
         li_pattern_variance := pattern_variance stability_data;
         weekly_success_rates := weekly_rates stability_data;
         stability_validated := is_stable stability_data;
         pattern_drift_detected := drift_detected stability_data;
         last_updated := now |}
  | Some li =>
      {| pattern_type := pattern_type li;
         pattern_value := pattern_value li;
         frequency := Z.max (frequency li + 1) 1;
         success_rate :=
           if 0 <? frequency li then
             numeric_div
               (numeric_add
                  (numeric_mul (success_rate li)
                     (numeric_of_integer (frequency li)))
                  (numeric_of_integer (success_score NEW)))
               (numeric_of_integer (frequency li + 1))
           else numeric_of_integer (success_score NEW);
         recommendation := recommendation li;
         confidence := Z.min 90 (confidence li + 2);
         sample_size := frequency li + 1;
         time_span_days :=
           Z.max 1 (EXTRACT_DAY (now - first_occurrence li));
         first_occurrence := first_occurrence li;
         threshold_met :=
           (5 <=? frequency li + 1)
           && (65 <=? Z.min 90 (confidence li + 2))
           && (3 <=? Z.max 1 (EXTRACT_DAY (now - first_occurrence li)));
         li_stability_score := stability_score stability_data;
         li_pattern_variance := pattern_variance stability_data;
         weekly_success_rates := weekly_rates stability_data;
         stability_validated := is_stable stability_data;
         pattern_drift_detected := drift_detected stability_data;
         last_updated := now |}
  end.

Definition update_learning_insights_with_stability (now : Z)
    (NEW : edit_analyses_row) (d : db) : sql db :=
  let key := ("edit_type", edit_type NEW) in
  let existing_insight := learning_insights d !! key in
  do stability_data <-
    calculate_pattern_stability now "edit_type" (edit_type NEW) (user_id NEW) d;
  Val {| edit_analyses := edit_analyses d;
         learning_insights :=
           <[key := upsert_row now NEW existing_insight stability_data]>
             (learning_insights d) |}.

(** Modelled from the spec: the CREATE TRIGGER statement is not among the
    sources; section 5 of the specification has every recorded event
    followed, within the same statement, by the recomputation, so the
    trigger runs after the row is in the table and an error it raises
    undoes the insert. *)
Definition insert_edit_analysis (now : Z) (NEW : edit_analyses_row) (d : db)
  : sql db :=
  update_learning_insights_with_stability now NEW
    {| edit_analyses := edit_analyses d ++ [NEW];
       learning_insights := learning_insights d |}.

(** ** The view validated_learning_insights_with_stability *)

Inductive validation_status : Set :=
| FULLY_VALIDATED
| THRESHOLD_MET_BUT_UNSTABLE
| PATTERN_DRIFT_DETECTED
| STABLE_BUT_INSUFFICIENT_DATA
| INSUFFICIENT_CONFIDENCE
| INSUFFICIENT_TIME_SPAN
| INSUFFICIENT_SAMPLES
| PENDING_VALIDATION.

Definition validationStatus (li : learning_insights_row) : validation_status :=
  if threshold_met li && stability_validated li
     && negb (pattern_drift_detected li) then FULLY_VALIDATED
  else if threshold_met li && negb (stability_validated li)
    then THRESHOLD_MET_BUT_UNSTABLE
  else if threshold_met li && pattern_drift_detected li
    then PATTERN_DRIFT_DETECTED
  else if stability_validated li && negb (threshold_met li)
    then STABLE_BUT_INSUFFICIENT_DATA
  else if (5 <=? sample_size li) && (confidence li <? 65)
    then INSUFFICIENT_CONFIDENCE
  else if (5 <=? sample_size li) && (time_span_days li <? 3)
    then INSUFFICIENT_TIME_SPAN
  else if sample_size li <? 5 then INSUFFICIENT_SAMPLES
  else PENDING_VALIDATION.

(** ** LearningService: scoring an edit *)

(** A JavaScript string, one UTF-16 code unit per element. *)
Definition js_string : Type := list Z.

(** What [\s] matches and [trim] strips: WhiteSpace and LineTerminator. *)
Definition is_white_space (c : Z) : bool :=
  ((9 <=? c) && (c <=? 13)) || (c =? 32) || (c =? 160) || (c =? 5760)
  || ((8192 <=? c) && (c <=? 8202)) || (c =? 8232) || (c =? 8233)
  || (c =? 8239) || (c =? 8287) || (c =? 12288) || (c =? 65279).

Fixpoint js_string_eqb (a b : js_string) : bool :=
  match a, b with
  | [], [] => true
  | x :: a', y :: b' => (x =? y) && js_string_eqb a' b'
  | _, _ => false
  end.

Fixpoint trimStart (s : js_string) : js_string :=
  match s with
  | [] => []
  | c :: s' => if is_white_space c then trimStart s' else s
  end.

Definition trim (s : js_string) : js_string :=
  rev (trimStart (rev (trimStart s))).

(** [s.split(/\s+/)]: [in_sep] holds while a run of white space is being
    skipped, [word] is the current piece, last code unit first. *)
Fixpoint split_from (in_sep : bool) (word : js_string) (s : js_string)
  : list js_string :=
  match s with
  | [] => [rev word]
  | c :: s' =>
      if is_white_space c then
        if in_sep then split_from true word s'
        else rev word :: split_from true [] s'
      else split_from false (c :: word) s'
  end.

Definition split_white_space (s : js_string) : list js_string :=
  split_from false [] s.

(** The loop over the first [minLength] positions. *)
Fixpoint differing_words (a b : list js_string) : Z :=
  match a, b with
  | x :: a', y :: b' =>
      (if js_string_eqb x y then 0 else 1) + differing_words a' b'
  | _, _ => 0
  end.

Definition to_float (n : Z) : float := PrimFloat.of_uint63 (Uint63.of_Z n).

(** [Math.round] on the range the percentage can take, from 0 to 101:
    the number of half-way marks [k - 0.5] at or below [x]. *)
Definition Math_round (x : float) : Z :=
  Z.of_nat
    (length
       (List.filter (fun k => PrimFloat.leb (to_float k - 0.5)%float x)
          (map Z.of_nat (seq 1 101)))).

Definition calculateEditPercentage (original edited : js_string) : Z :=
  if js_string_eqb original edited then 0
  else if js_string_eqb edited [] || js_string_eqb (trim edited) [] then 100
  else
    let originalWords := split_white_space original in
    let editedWords := split_white_space edited in
    let changes :=
      Z.abs (Z.of_nat (length originalWords) - Z.of_nat (length editedWords))
      + differing_words originalWords editedWords in
    let maxLength :=
      Z.max (Z.of_nat (length originalWords)) (Z.of_nat (length editedWords)) in
    Z.min (Math_round (to_float changes / to_float maxLength * 100)%float) 100.

Definition calculateSuccessScore (editPercentage : Z) : Z :=
  if editPercentage =? 0 then 100
  else if editPercentage <=? 20 then 75
  else if editPercentage <=? 70 then 25
  else 0.

(** ** LearningService: recording an edit *)

Record EditAnalysis : Type := {
  responseId : string;
  originalText : js_string;
  editedText : js_string;
  editType : string;
  editPercentage : Z;
  editDescription : string;
  successScore : Z;
  learningInsight : string
}.

(** What getAIEditAnalysis hands back.  The completion service is outside
    the repository; the method catches whatever it throws and answers with
    a fallback, so to its caller it is a total function of the two texts. *)
Record ai_edit_analysis : Type := {
  ai_editType : string;
  ai_description : string;
  ai_insight : string
}.

Inductive js_error : Set :=
| connection_failed
| query_failed (e : sql_error).

Inductive completion (A : Type) : Type :=
| Return (a : A)
| Throw (e : js_error).
Arguments Return {A} a.
Arguments Throw {A} e.

Inductive console_line : Set :=
| Error_storing_edit_analysis (e : js_error)
| Error_analyzing_edit (e : js_error).

(** The process and what it talks to: the database behind [pool], whether
    it can be reached, the clock, the queries sent so far and the lines
    written with console.error. *)
Record world : Type := {
  database : db;
  reachable : bool;
  clock : Z;
  queries_sent : nat;
  console_errors : list console_line
}.

Definition row_of (analysis : EditAnalysis) (userId : option string) (now : Z)
  : edit_analyses_row :=
  {| response_id := responseId analysis;
     original_text := originalText analysis;
     edited_text := editedText analysis;
     edit_type := editType analysis;
     edit_percentage := editPercentage analysis;
     edit_description := editDescription analysis;
     success_score := successScore analysis;
     learning_insight := learningInsight analysis;
     user_id := userId;
     created_at := now |}.

(** [pool.query] with the INSERT of storeEditAnalysis. *)
Definition pool_query_insert (analysis : EditAnalysis) (userId : option string)
    (w : world) : completion unit * world :=
  let sent := S (queries_sent w) in
  if reachable w then
    match insert_edit_analysis (clock w) (row_of analysis userId (clock w))
            (database w) with
    | Val d =>
        (Return tt,
         {| database := d; reachable := reachable w; clock := clock w;
            queries_sent := sent; console_errors := console_errors w |})
    | Raise e =>
        (Throw (query_failed e),
         {| database := database w; reachable := reachable w; clock := clock w;
            queries_sent := sent; console_errors := console_errors w |})
    end
  else
    (Throw connection_failed,
     {| database := database w; reachable := reachable w; clock := clock w;
        queries_sent := sent; console_errors := console_errors w |}).

Definition console_error (line : console_line) (w : world) : world :=
  {| database := database w; reachable := reachable w; clock := clock w;
     queries_sent := queries_sent w;
     console_errors := console_errors w ++ [line] |}.

Definition storeEditAnalysis (analysis : EditAnalysis) (userId : option string)
    (w : world) : completion unit * world :=
  match pool_query_insert analysis userId w with
  | (Return _, w') => (Return tt, w')
  | (Throw error, w') =>
      (Return tt, console_error (Error_storing_edit_analysis error) w')
  end.

Definition analyzeEdit (getAIEditAnalysis : js_string -> js_string -> ai_edit_analysis)
    (responseId : string) (originalText editedText : js_string)
    (userId : option string) (w : world) : completion EditAnalysis * world :=
  let editPercentage := calculateEditPercentage originalText editedText in
  let aiAnalysis := getAIEditAnalysis originalText editedText in
  let successScore := calculateSuccessScore editPercentage in
  let analysis :=
    {| responseId := responseId;
       originalText := originalText;
       editedText := editedText;
       editType := ai_editType aiAnalysis;
       editPercentage := editPercentage;
       editDescription := ai_description aiAnalysis;
       successScore := successScore;
       learningInsight := ai_insight aiAnalysis |} in
  match storeEditAnalysis analysis userId w with
  | (Return _, w') => (Return analysis, w')
  | (Throw error, w') => (Throw error, console_error (Error_analyzing_edit error) w')
  end.

(** ** calculate_pattern_stability as fix-phase2-schema-proper.js creates it *)

(** The version of the function that the later precision fix replaces.
    Its mean is a DECIMAL(5,2), its two trends are DECIMAL(3,2), the score
    is clamped before it is cast, and [rate_count] is compared without a
    test for NULL, so that on the NULL array every comparison is NULL, the
    aggregates over no rows are NULL, and [pattern_variance] comes back
    NULL. *)
Record stability_row_phase2 : Type := {
  p2_stability_score : Q;
  p2_pattern_variance : option Q;
  p2_weekly_rates : list Q;
  p2_is_stable : bool;
  p2_drift_detected : bool
}.

Definition stability_of_rates_phase2 (success_rates : list Q)
  : sql stability_row_phase2 :=
  match array_length success_rates with
  | None =>
      Val {| p2_stability_score := 0; p2_pattern_variance := None;
             p2_weekly_rates := success_rates;
             p2_is_stable := Qle_bool 0.7 0; p2_drift_detected := false |}
  | Some rate_count =>
      if rate_count <? 3 then
        Val {| p2_stability_score := 0.5; p2_pattern_variance := Some 0%Q;
               p2_weekly_rates := success_rates;
               p2_is_stable := false; p2_drift_detected := false |}
      else
        do mean_rate <- cast_decimal 5 2 (sql_avg success_rates);
        do variance_calc <-
          cast_decimal 8 3
            (sql_avg (map (fun rate => (rate - mean_rate) * (rate - mean_rate))%Q
                        success_rates));
        do stability_calc <-
          (if Qlt_bool 0 mean_rate then
             do root <- numeric_sqrt variance_calc;
             cast_decimal 5 3 (GREATEST 0 (LEAST 1 (1 - root / mean_rate)%Q))
           else Val 0%Q);
        do drift_detected_calc <-
          (if 4 <=? rate_count then
             do recent_trend <-
               cast_decimal 3 2
                 (sql_avg (array_slice success_rates (rate_count - 1) rate_count));
             do historical_trend <-
               cast_decimal 3 2
                 (sql_avg (array_slice success_rates 1 (rate_count - 2)));
             Val (Qlt_bool 20 (Qabs (recent_trend - historical_trend)))
           else Val false);
        Val {| p2_stability_score := stability_calc;
               p2_pattern_variance := Some variance_calc;
               p2_weekly_rates := success_rates;
               p2_is_stable := Qle_bool 0.7 stability_calc;
               p2_drift_detected := drift_detected_calc |}
  end.

Definition calculate_pattern_stability_phase2 (now : Z)
    (pattern_type_param pattern_value_param : string)
    (user_id_param : option string) (d : db) : sql stability_row_phase2 :=
  do success_rates <-
    sql_map (cast_decimal 5 2)
      (map snd (fst (weeklyAverages now pattern_value_param user_id_param d)));
  stability_of_rates_phase2 success_rates.

(** ** LearningService: the success metrics query *)

(** SQL's three-valued conditions: [None] is NULL. *)
Definition sql_or (a b : option bool) : option bool :=
  match a, b with
  | Some true, _ | _, Some true => Some true
  | Some false, Some false => Some false
  | _, _ => None
  end.

Definition sql_and (a b : option bool) : option bool :=
  match a, b with
  | Some false, _ | _, Some false => Some false
  | Some true, Some true => Some true
  | _, _ => None
  end.

Definition sql_compare {A : Type} (test : A -> A -> bool) (a b : option A)
  : option bool :=
  match a, b with
  | Some x, Some y => Some (test x y)
  | _, _ => None
  end.

Definition IS_NULL {A : Type} (a : option A) : option bool :=
  match a with
  | None => Some true
  | Some _ => Some false
  end.

(** WHERE and FILTER keep a row when the condition is true, not when it is
    false or NULL. *)
Definition holds (condition : option bool) : bool :=
  match condition with
  | Some true => true
  | _ => false
  end.

(** The columns of generated_responses the query reads; each is nullable. *)
Record generated_responses_row : Type := {
  gr_user_id : option string;
  gr_user_edited : option bool;
  gr_edit_percentage : option Z;
  gr_was_sent : option bool;
  gr_generated_at : option Z
}.

(** [Math.max(1, Math.floor(Math.abs(days || 7)))] on what parseInt hands
    over: an integer, or NaN ([None]).  The integers are exact up to 2^53;
    beyond, the number the template prints is another one of that size. *)
Definition safeDays (days : option Z) : Z :=
  let days_or_7 :=
    match days with
    | None => 7
    | Some n => if n =? 0 then 7 else n
    end in
  Z.max 1 (Z.abs days_or_7).

(** The first instant a TIMESTAMP can hold, Julian day 0, which lies
    2440588 days before the epoch. *)
Definition MIN_TIMESTAMP : Z := - 2440588 * seconds_per_day.

(** [CURRENT_DATE - INTERVAL 'n days'] with [n] written out by the
    template.  The day field of an interval is a 32-bit integer: a literal
    above 2147483647 is rejected (interval field value out of range; a
    number of 1e21 or more is printed with an exponent and is rejected as
    well).  The difference must be a TIMESTAMP. *)
Definition window_start (now n : Z) : sql Z :=
  if 2147483647 <? n then Raise interval_rejected
  else if CURRENT_DATE now - n * seconds_per_day <? MIN_TIMESTAMP
       then Raise timestamp_out_of_range
  else Val (CURRENT_DATE now - n * seconds_per_day).

(** The CASE expression under AVG. *)
Definition success_case (edit_percentage : option Z) : Z :=
  if holds (sql_or (sql_compare Z.eqb edit_percentage (Some 0))
              (IS_NULL edit_percentage)) then 100
  else if holds (sql_compare Z.leb edit_percentage (Some 20)) then 75
  else if holds (sql_compare Z.leb edit_percentage (Some 70)) then 25
  else 0.

Definition no_edits_filter (r : generated_responses_row) : bool :=
  holds (sql_or (sql_compare Z.eqb (gr_edit_percentage r) (Some 0))
           (IS_NULL (gr_edit_percentage r))).

Definition minor_edits_filter (r : generated_responses_row) : bool :=
  holds (sql_and (sql_compare Z.ltb (Some 0) (gr_edit_percentage r))
           (sql_compare Z.leb (gr_edit_percentage r) (Some 20))).

Definition major_rewrites_filter (r : generated_responses_row) : bool :=
  holds (sql_and (sql_compare Z.ltb (Some 20) (gr_edit_percentage r))
           (sql_compare Z.leb (gr_edit_percentage r) (Some 70))).

Definition deleted_drafts_filter (r : generated_responses_row) : bool :=
  holds (sql_or (sql_compare Z.ltb (Some 70) (gr_edit_percentage r))
           (sql_compare Bool.eqb (gr_was_sent r) (Some false))).

(** The WHERE clause; the query with [AND user_id = $1] is the one sent
    when [userId] is truthy. *)
Definition metrics_where (start : Z) (userId : option string)
    (r : generated_responses_row) : bool :=
  holds (sql_compare Z.leb (Some start) (gr_generated_at r))
  && holds (option_map negb (IS_NULL (gr_user_edited r)))
  && match userId with
     | Some u =>
         if String.eqb u "" then true
         else holds (sql_compare String.eqb (gr_user_id r) (Some u))
     | None => true
     end.

Record metrics_row : Type := {
  total_responses : Z;
  no_edits : Z;
  minor_edits : Z;
  major_rewrites : Z;
  deleted_drafts : Z;
  avg_success_rate : option Q
}.

Definition COUNT {A : Type} (condition : A -> bool) (rows : list A) : Z :=
  Z.of_nat (length (List.filter condition rows)).

(** The query of calculateSuccessMetrics; [AVG] over no rows is NULL. *)
Definition success_metrics_query (now : Z) (days : option Z)
    (userId : option string) (generated_responses : list generated_responses_row)
  : sql metrics_row :=
  do start <- window_start now (safeDays days);
  let rows := List.filter (metrics_where start userId) generated_responses in
  Val {| total_responses := Z.of_nat (length rows);
         no_edits := COUNT no_edits_filter rows;
         minor_edits := COUNT minor_edits_filter rows;
         major_rewrites := COUNT major_rewrites_filter rows;
         deleted_drafts := COUNT deleted_drafts_filter rows;
         avg_success_rate :=
           match rows with
           | [] => None
           | _ => Some (AVG_integer
                          (map (fun r => success_case (gr_edit_percentage r))
                             rows))
           end |}.

(** A stored percentage is NULL or, as calculateEditPercentage produces
    it, not negative. *)
Definition percentage_not_negative (r : generated_responses_row) : Prop :=
  match gr_edit_percentage r with
  | Some p => 0 <= p
  | None => True
  end.

(** Counted as a deleted draft although at most 70 percent was edited. *)
Definition unsent_within_70 (r : generated_responses_row) : bool :=
  deleted_drafts_filter r
  && negb (holds (sql_compare Z.ltb (Some 70) (gr_edit_percentage r))).

(** A response that was edited lightly and never sent. *)
Definition unsent_light_edit : generated_responses_row :=
  {| gr_user_id := Some "u1"%string; gr_user_edited := Some true;
     gr_edit_percentage := Some 10; gr_was_sent := Some false;
     gr_generated_at := Some 0 |}.

(** ** The route POST /learning/analyze-edit *)

(** The three fields the handler reads from [req.body], each a string or
    absent. *)
Record analyze_edit_body : Type := {
  body_responseId : option string;
  body_originalText : option js_string;
  body_editedText : option js_string
}.

Inductive http_response : Type :=
| status_400_missing_fields
| status_200_analysis (analysis : EditAnalysis)
| status_500_failed.

(** [!x] on a string or undefined: true for undefined and for the empty
    string. *)
Definition not_string (x : option string) : bool :=
  match x with
  | Some s => String.eqb s ""
  | None => true
  end.

Definition not_text (x : option js_string) : bool :=
  match x with
  | Some s => js_string_eqb s []
  | None => true
  end.

Definition analyze_edit_route
    (getAIEditAnalysis : js_string -> js_string -> ai_edit_analysis)
    (body : analyze_edit_body) (userId : option string) (w : world)
  : http_response * world :=
  match body_responseId body, body_originalText body, body_editedText body with
  | Some responseId, Some originalText, Some editedText =>
      if not_string (Some responseId) || not_text (Some originalText)
         || not_text (Some editedText)
      then (status_400_missing_fields, w)
      else
        match analyzeEdit getAIEditAnalysis responseId originalText editedText
                userId w with
        | (Return analysis, w') => (status_200_analysis analysis, w')
        | (Throw error, w') =>
            (status_500_failed, console_error (Error_analyzing_edit error) w')
        end
  | _, _, _ => (status_400_missing_fields, w)
  end.

(** ** The quantities the statements below are phrased in *)

(** A weekly average as the aggregation loop stores it: a DECIMAL(5,2)
    value between 0 and 100. *)
Definition weekly_average (x : Q) : Prop :=
  x = numeric_round 2 x /\ (0 <= x)%Q /\ (x <= 100)%Q.

(** Mean and population variance to three places. *)
Definition rounded_mean (l : list Q) : Q := numeric_round 3 (sql_avg l).

Definition rounded_variance (l : list Q) : Q :=
  numeric_round 3
    (sql_avg (map (fun x => (x - rounded_mean l) * (x - rounded_mean l))%Q l)).

(** What calculate_pattern_stability returns on three or more weekly
    averages when no cast overflows, spelled without the casts. *)
Definition stability_closed_form (l : list Q) : stability_row :=
  let score :=
    if Qlt_bool 0 (rounded_mean l) then
      GREATEST 0
        (LEAST 1
           (numeric_round 3
              (1 - root16 (rounded_variance l) / rounded_mean l)%Q))
    else 0%Q in
  {| stability_score := score;
     pattern_variance := rounded_variance l;
     weekly_rates := l;
     is_stable := Qle_bool 0.7 score;
     drift_detected :=
       if (4 <=? length l)%nat then
         Qlt_bool 20
           (Qabs (numeric_round 3 (sql_avg (skipn (length l - 2) l))
                  - numeric_round 3 (sql_avg (firstn (length l - 2) l)))%Q)
       else false |}.

(** The specification's drift rule: the most recent week against the mean
    of all the weeks before it. *)
Definition spec_driftDetected (weekly : list Q) : bool :=
  if (4 <=? length weekly)%nat then
    Qlt_bool 20 (Qabs (List.last weekly 0%Q - sql_avg (removelast weekly)))
  else false.

(** The specification's stability score, over the reals: exact mean, exact
    population variance, exact square root. *)
Definition spec_variance (weekly : list Q) : Q :=
  sql_avg (map (fun x => (x - sql_avg weekly) * (x - sql_avg weekly))%Q weekly).

Definition spec_stabilityScore (weekly : list Q) : R :=
  if Qlt_bool 0 (sql_avg weekly) then
    Rmax 0 (Rmin 1 (1 - sqrt (Q2R (spec_variance weekly)) / Q2R (sql_avg weekly)))
  else 0%R.

(** The specification's status table, in its order, with its conditions;
    the first row whose condition holds decides. *)
Definition spec_status_table (li : learning_insights_row)
  : list (bool * validation_status) :=
  [ (threshold_met li && stability_validated li
       && negb (pattern_drift_detected li), FULLY_VALIDATED);
    (threshold_met li && negb (stability_validated li),
       THRESHOLD_MET_BUT_UNSTABLE);
    (threshold_met li && pattern_drift_detected li, PATTERN_DRIFT_DETECTED);
    (stability_validated li && negb (threshold_met li),
       STABLE_BUT_INSUFFICIENT_DATA);
    ((5 <=? sample_size li) && (confidence li <? 65), INSUFFICIENT_CONFIDENCE);
    ((5 <=? sample_size li) && (65 <=? confidence li)
       && (time_span_days li <? 3), INSUFFICIENT_TIME_SPAN);
    (sample_size li <? 5, INSUFFICIENT_SAMPLES) ].

Fixpoint first_match (table : list (bool * validation_status))
    (fallback : validation_status) : validation_status :=
  match table with
  | [] => fallback
  | (true, status) :: _ => status
  | (false, _) :: rest => first_match rest fallback
  end.

(** The stored events one returned bucket stands for: those the WHERE
    clause keeps whose week starts at [week_start]. *)
Definition week_bucket (now : Z) (pattern_value_param : string)
    (user_id_param : option string) (week_start : Z) (d : db)
  : list edit_analyses_row :=
  List.filter (fun ea => DATE_TRUNC_week (created_at ea) =? week_start)
    (List.filter (in_window now pattern_value_param user_id_param)
       (edit_analyses d)).

(** The window in seconds, without the query's functions: a week starts on
    a Monday at 00:00 (the epoch, a Thursday, is three days into its week),
    and an event qualifies for the week starting at [week_start] when it is
    of the pattern (and of the user, when one is named), is stamped at or
    after the start of today less 56 days, and falls in that week.  There
    is no upper end. *)
Definition starts_a_week (week_start : Z) : bool :=
  (week_start + 259200) mod 604800 =? 0.

Definition qualifying_events (now : Z) (pattern : string)
    (user : option string) (week_start : Z) (d : db)
  : list edit_analyses_row :=
  List.filter
    (fun ea =>
       String.eqb (edit_type ea) pattern
       && (now / 86400 * 86400 - 4838400 <=? created_at ea)
       && match user with
          | None => true
          | Some u => match user_id ea with
                      | Some v => String.eqb v u
                      | None => false
                      end
          end
       && (week_start <=? created_at ea)
       && (created_at ea <? week_start + 604800))
    (edit_analyses d).

(** The specification's window: the eight weeks that end now. *)
Definition spec_in_last_8_weeks (now : Z) (ea : edit_analyses_row) : bool :=
  (now - 4838400 <=? created_at ea) && (created_at ea <=? now).

(** The scores filed under one week, none when the week has no group. *)
Fixpoint group_scores (week_start : Z) (groups : list (Z * list Z)) : list Z :=
  match groups with
  | [] => []
  | (w, scores) :: rest =>
      if week_start =? w then scores else group_scores week_start rest
  end.

(** The databases the application produces: every stored score is one of
    its outcome scores, between 0 and 100, and no event is stamped later
    than the present. *)
Definition scores_in_range (d : db) : Prop :=
  Forall (fun ea => (0 <= success_score ea <= 100)%Z) (edit_analyses d).

Definition none_in_future (now : Z) (d : db) : Prop :=
  Forall (fun ea => (created_at ea <= now)%Z) (edit_analyses d).

(** Rows the upsert path has produced: inserted by the first event of a
    pattern, then updated once per later event. *)
Inductive maintained : learning_insights_row -> Prop :=
| maintained_insert (now : Z) (NEW : edit_analyses_row) (st : stability_row) :
    maintained (upsert_row now NEW None st)
| maintained_update (now : Z) (NEW : edit_analyses_row)
    (li : learning_insights_row) (st : stability_row) :
    maintained li -> maintained (upsert_row now NEW (Some li) st).

(** Databases the recording path has produced from the empty one. *)
Inductive recorded : db -> Prop :=
| recorded_empty : recorded empty_db
| recorded_insert (d d' : db) (now : Z) (NEW : edit_analyses_row) :
    recorded d -> insert_edit_analysis now NEW d = Val d' -> recorded d'.

(** COUNT of the stored events of one pattern. *)
Definition events_of (pattern : string) (d : db) : Z :=
  Z.of_nat
    (length (List.filter (fun ea => String.eqb (edit_type ea) pattern)
               (edit_analyses d))).

(** What the recording path keeps true of the two tables. *)
Definition counts_agree (d : db) : Prop :=
  (forall key li, learning_insights d !! key = Some li -> fst key = "edit_type")
  /\ (forall pattern,
        match learning_insights d !! ("edit_type", pattern) with
        | Some li =>
            sample_size li = frequency li
            /\ frequency li = events_of pattern d
        | None => events_of pattern d = 0
        end).

Definition blank (s : js_string) : Prop := trim s = [].

Definition ascii_units (s : string) : js_string :=
  map (fun a => Z.of_nat (nat_of_ascii a)) (list_ascii_of_string s).

(** The scores of the stored events of one pattern, oldest first. *)
Definition pattern_scores (pattern : string) (d : db) : list Z :=
  map success_score
    (List.filter (fun ea => String.eqb (edit_type ea) pattern)
       (edit_analyses d)).

(** What the recording path keeps true of a row and the scores of its
    pattern. *)
Definition rates_agree (d : db) : Prop :=
  forall pattern li,
    learning_insights d !! ("edit_type"%string, pattern) = Some li ->
    pattern_scores pattern d <> []
    /\ recommendation li
       = recommendation_for (hd 0 (pattern_scores pattern d)).

(** Half a unit of the sixteenth decimal place. *)
Definition half_unit_16 : Q := 1 # 20000000000000000.

(** The stored rate against the plain mean of the scores: each update
    after the first rounds once. *)
Definition rate_tracks_mean (d : db) : Prop :=
  forall pattern li,
    learning_insights d !! ("edit_type"%string, pattern) = Some li ->
    (0 <= numeric_value (success_rate li) <= 100)%Q
    /\ (Qabs (numeric_value (success_rate li)
              - sql_avg (zs (pattern_scores pattern d)))
        <= inject_Z (frequency li - 1) * half_unit_16)%Q.

(** The specification's running average. *)
Definition spec_successRate (oldSuccessRate : Q) (n s : Z) : Q :=
  ((oldSuccessRate * inject_Z n + inject_Z s) / inject_Z (n + 1))%Q.

(** What the stability columns of a stored row owe to the function that
    computed them. *)
Definition stability_columns_sound (li : learning_insights_row) : Prop :=
  (0 <= li_stability_score li <= 1)%Q
  /\ (0 <= li_pattern_variance li)%Q
  /\ (stability_validated li = true ->
      (7 # 10 <= li_stability_score li)%Q
      /\ (3 <= length (weekly_success_rates li))%nat)
  /\ (pattern_drift_detected li = true ->
      (4 <= length (weekly_success_rates li))%nat).

(** ** Concrete inputs used below *)

Definition sample_event (pattern : string) (score : Z) (at_time : Z)
  : edit_analyses_row :=
  {| response_id := "r"; original_text := []; edited_text := [];
     edit_type := pattern; edit_percentage := 0; edit_description := "";
     success_score := score; learning_insight := "";
     user_id := None; created_at := at_time |}.

Definition neutral_row : stability_row :=
  {| stability_score := 0.5; pattern_variance := 0; weekly_rates := [];
     is_stable := false; drift_detected := false |}.

(** Seven weeks of steady decline, as in the repository's drift test. *)
Definition declining_weeks : list Q := zs [90; 85; 75; 60; 45; 30; 20].

Definition declining_stability : stability_row :=
  {| stability_score := Qred 0.565; pattern_variance := Qred 634.694;
     weekly_rates := declining_weeks;
     is_stable := false; drift_detected := true |}.

(** A pattern seen nine times over three weeks, updated by a tenth event
    while its weekly averages are [declining_weeks]. *)
Definition declining_insight : learning_insights_row :=
  upsert_row (21 * seconds_per_day) (sample_event "tone" 25 (21 * seconds_per_day))
    (Some {| pattern_type := "edit_type"; pattern_value := "tone";
             frequency := 9; success_rate := numeric_of_integer 60;
             recommendation := "";
             confidence := 66; sample_size := 9; time_span_days := 20;
             first_occurrence := 0; threshold_met := true;
             li_stability_score := 0.5; li_pattern_variance := 0;
             weekly_success_rates := []; stability_validated := false;
             pattern_drift_detected := false; last_updated := 0 |})
    declining_stability.

(** Events recorded one after the other, each at its own time. *)
Fixpoint record_all (events : list (Z * edit_analyses_row)) (d : db) : sql db :=
  match events with
  | [] => Val d
  | (now, NEW) :: rest => do d' <- insert_edit_analysis now NEW d; record_all rest d'
  end.

Definition two_tone_events : list (Z * edit_analyses_row) :=
  [ (0, sample_event "tone" 75 0); (10, sample_event "tone" 25 10) ].

Definition two_tone_db : db :=
  match record_all two_tone_events empty_db with
  | Val d => d
  | Raise _ => empty_db
  end.

Definition fixed_ai (original edited : js_string) : ai_edit_analysis :=
  {| ai_editType := "tone"; ai_description := "shorter"; ai_insight := "" |}.

Definition unreachable_world : world :=
  {| database := empty_db; reachable := false; clock := 0;
     queries_sent := 0; console_errors := [] |}.

Definition reachable_world : world :=
  {| database := empty_db; reachable := true; clock := 0;
     queries_sent := 0; console_errors := [] |}.

(** The repository's stable series, a series with one late jump, and a
    series of very small averages. *)
Definition steady_weeks : list Q := zs [85; 88; 82; 87; 90].
Definition one_week_jump : list Q := zs [50; 50; 50; 80].
Definition tiny_weeks : list Q := [1 # 100; 1 # 50; 3 # 100]%Q.

(** Two events a day apart in each of seven consecutive weeks, the weekly
    scores declining as in [declining_weeks]. *)
Definition week_events (pattern : string) (week score : Z)
  : list (Z * edit_analyses_row) :=
  let monday := week * seconds_per_week + 4 * seconds_per_day in
  [ (monday, sample_event pattern score monday);
    (monday + seconds_per_day,
     sample_event pattern score (monday + seconds_per_day)) ].

Definition declining_events : list (Z * edit_analyses_row) :=
  concat
    (map (fun ws => week_events "tone" (fst ws) (snd ws))
       [(0, 90); (1, 85); (2, 75); (3, 60); (4, 45); (5, 30); (6, 20)]).

Definition declining_db : db :=
  match record_all declining_events empty_db with
  | Val d => d
  | Raise _ => empty_db
  end.

Definition erratic_weeks : list Q := zs [85; 45; 80; 30; 75].

(** Two events a day apart in each of five consecutive weeks, the weekly
    scores as in [steady_weeks]. *)
Definition steady_events : list (Z * edit_analyses_row) :=
  concat
    (map (fun ws => week_events "tone" (fst ws) (snd ws))
       [(0, 85); (1, 88); (2, 82); (3, 87); (4, 90)]).

Definition steady_db : db :=
  match record_all steady_events empty_db with
  | Val d => d
  | Raise _ => empty_db
  end.

(** Two events a day apart in each of four consecutive weeks, every one of
    them scored 0 but for a single 25 in the last week. *)
Definition faint_events : list (Z * edit_analyses_row) :=
  week_events "tone" 0 0 ++ week_events "tone" 1 0
  ++ week_events "tone" 2 0
  ++ [ (3 * seconds_per_week + 4 * seconds_per_day,
        sample_event "tone" 0 (3 * seconds_per_week + 4 * seconds_per_day));
       (3 * seconds_per_week + 5 * seconds_per_day,
        sample_event "tone" 25 (3 * seconds_per_week + 5 * seconds_per_day)) ].

Definition faint_db : db :=
  match record_all faint_events empty_db with
  | Val d => d
  | Raise _ => empty_db
  end.

(** Mid-afternoon of day 60, with two events of the morning of day 4,
    more than eight weeks earlier, and two events stamped far ahead. *)
Definition afternoon_of_day_60 : Z := 60 * seconds_per_day + 54000.

Definition early_events_db : db :=
  {| edit_analyses := [sample_event "tone" 75 378000;
                       sample_event "tone" 25 381600];
     learning_insights := learning_insights empty_db |}.

Definition future_events_db : db :=
  {| edit_analyses :=
       [sample_event "tone" 75 (afternoon_of_day_60 + 1000000000);
        sample_event "tone" 25 (afternoon_of_day_60 + 1000000060)];
     learning_insights := learning_insights empty_db |}.

(** A row seen twice, with scores 100 and 0, whose confidence was set to
    95 by hand, and the database that holds it. *)
Definition overconfident_insight : learning_insights_row :=
  {| pattern_type := "edit_type"; pattern_value := "tone";
     frequency := 2; success_rate := numeric_of_integer 50;
     recommendation := "";
     confidence := 95; sample_size := 2; time_span_days := 1;
     first_occurrence := 0; threshold_met := false;
     li_stability_score := 0.5; li_pattern_variance := 0;
     weekly_success_rates := []; stability_validated := false;
     pattern_drift_detected := false; last_updated := 0 |}.

Definition overconfident_db : db :=
  {| edit_analyses := [sample_event "tone" 0 0];
     learning_insights :=
       {[ ("edit_type"%string, "tone"%string) := overconfident_insight ]} |}.

(** The database between the two events of [two_tone_events]: the first is
    recorded, the second is in the table and its trigger is about to run. *)
Definition between_two_tones : db :=
  {| edit_analyses := [sample_event "tone" 75 0; sample_event "tone" 25 10];
     learning_insights :=
       {[ ("edit_type"%string, "tone"%string) :=
            upsert_row 0 (sample_event "tone" 75 0) None neutral_row ]} |}.

(** * Properties *)

(** ** Returned values *)

Lemma Val_inj {A : Type} (a b : A) : Val a = Val b -> a = b.
Proof. intros Heq. injection Heq. trivial. Qed.

(** ** The threshold test *)

(** C3: thresholdMet holds exactly when sampleSize >= 5, confidence >= 65
    and timeSpanDays >= 3; it is what the trigger stores in threshold_met,
    on the insert (1, 50, 1) as on every update; (5,65,3) passes and
    (4,65,3), (5,64,3), (5,65,2) fail. *)
Theorem thresholdMet_iff :
  (forall sampleSize confidence timeSpanDays : Z,
      thresholdMet sampleSize confidence timeSpanDays = true
      <-> 5 <= sampleSize /\ 65 <= confidence /\ 3 <= timeSpanDays)
  /\ (forall now NEW existing st,
        threshold_met (upsert_row now NEW existing st) =
        thresholdMet (sample_size (upsert_row now NEW existing st))
                     (confidence (upsert_row now NEW existing st))
                     (time_span_days (upsert_row now NEW existing st)))
  /\ thresholdMet 5 65 3 = true
  /\ thresholdMet 4 65 3 = false
  /\ thresholdMet 5 64 3 = false
  /\ thresholdMet 5 65 2 = false.
Proof.
  split; [| split; [| repeat split]].
  - intros sampleSize confidence timeSpanDays. unfold thresholdMet.
    rewrite !andb_true_iff, !Z.leb_le. tauto.
  - intros now NEW [li |] st; reflexivity.
Qed.

(** ** The validation status *)

Lemma declining_weeks_stability :
  stability_of_rates declining_weeks = Val declining_stability.
Proof. vm_compute. reflexivity. Qed.

(** C4, as stated, fails: a threshold-met pattern with drift detected whose
    stability is not validated is reported as THRESHOLD_MET_BUT_UNSTABLE,
    not as PATTERN_DRIFT_DETECTED. *)
Lemma drift_with_threshold_not_reported_as_drift :
  threshold_met declining_insight = true
  /\ pattern_drift_detected declining_insight = true
  /\ validationStatus declining_insight = THRESHOLD_MET_BUT_UNSTABLE
  /\ validationStatus declining_insight <> PATTERN_DRIFT_DETECTED.
Proof. repeat split; try reflexivity. discriminate. Qed.

(** C4, amended: the status is the first row of the specification's table
    whose condition holds; threshold met, stability validated and no drift
    give FULLY_VALIDATED; threshold met with drift gives
    PATTERN_DRIFT_DETECTED when stability is validated and
    THRESHOLD_MET_BUT_UNSTABLE when it is not, and never FULLY_VALIDATED. *)
Theorem validationStatus_first_match (li : learning_insights_row) :
  validationStatus li = first_match (spec_status_table li) PENDING_VALIDATION
  /\ (threshold_met li && stability_validated li
       && negb (pattern_drift_detected li) = true
      <-> validationStatus li = FULLY_VALIDATED)
  /\ (threshold_met li && pattern_drift_detected li = true ->
      validationStatus li =
        (if stability_validated li then PATTERN_DRIFT_DETECTED
         else THRESHOLD_MET_BUT_UNSTABLE)
      /\ validationStatus li <> FULLY_VALIDATED).
Proof.
  unfold validationStatus, spec_status_table, first_match.
  destruct (threshold_met li), (stability_validated li),
    (pattern_drift_detected li); cbn [andb negb];
    repeat split; try discriminate; try reflexivity; try tauto;
    destruct (5 <=? sample_size li) eqn:Hs;
    destruct (confidence li <? 65) eqn:Hc;
    destruct (time_span_days li <? 3) eqn:Ht;
    destruct (sample_size li <? 5) eqn:Hs';
    destruct (65 <=? confidence li) eqn:Hc';
    cbn [andb negb]; try reflexivity; try discriminate; lia.
Qed.

Lemma validationStatus_first_match_witness :
  validationStatus declining_insight = THRESHOLD_MET_BUT_UNSTABLE
  /\ validationStatus declining_insight <> FULLY_VALIDATED.
Proof.
  destruct (validationStatus_first_match declining_insight) as (_ & _ & H).
  apply H. reflexivity.
Defined.

(** ** The upsert path *)

Lemma maintained_bounds (li : learning_insights_row) :
  maintained li ->
  1 <= frequency li /\ sample_size li = frequency li
  /\ 50 <= confidence li <= 90.
Proof.
  induction 1 as [now NEW st | now NEW li st Hli IH]; cbn.
  - lia.
  - lia.
Qed.

Lemma events_of_nonneg (pattern : string) (d : db) : 0 <= events_of pattern d.
Proof. unfold events_of. lia. Qed.

Lemma events_of_append (pattern : string) (d : db) (NEW : edit_analyses_row)
    (table : gmap (string * string) learning_insights_row) :
  events_of pattern
    {| edit_analyses := edit_analyses d ++ [NEW]; learning_insights := table |}
  = events_of pattern d
    + (if String.eqb (edit_type NEW) pattern then 1 else 0).
Proof.
  unfold events_of. cbn [edit_analyses].
  rewrite List.filter_app, List.length_app. cbn [List.filter].
  destruct (String.eqb (edit_type NEW) pattern); cbn [length]; lia.
Qed.

Lemma insert_edit_analysis_Val (now : Z) (NEW : edit_analyses_row) (d d' : db) :
  insert_edit_analysis now NEW d = Val d' ->
  exists st : stability_row,
    d' = {| edit_analyses := edit_analyses d ++ [NEW];
            learning_insights :=
              <[("edit_type", edit_type NEW) :=
                  upsert_row now NEW
                    (learning_insights d !! ("edit_type", edit_type NEW)) st]>
                (learning_insights d) |}.
Proof.
  unfold insert_edit_analysis, update_learning_insights_with_stability.
  cbn [edit_analyses learning_insights].
  destruct (calculate_pattern_stability now "edit_type" (edit_type NEW)
              (user_id NEW) _) as [st | e]; cbn [sql_bind].
  - intros [= <-]. exists st. reflexivity.
  - discriminate.
Qed.

Lemma recorded_counts_agree (d : db) : recorded d -> counts_agree d.
Proof.
  induction 1 as [| d d' now NEW Hd [Hkeys Hcount] Hins].
  - split.
    + intros key li Hlook. cbn in Hlook. rewrite lookup_empty in Hlook.
      discriminate.
    + intros pattern. cbn. rewrite lookup_empty. reflexivity.
  - apply insert_edit_analysis_Val in Hins as [st ->]. split.
    + intros key li. cbn [learning_insights].
      destruct (decide (key = ("edit_type", edit_type NEW))) as [-> | Hne].
      * intros _. reflexivity.
      * rewrite lookup_insert_ne by congruence. apply Hkeys.
    + intros pattern. cbn [learning_insights].
      rewrite events_of_append.
      destruct (String.eqb_spec (edit_type NEW) pattern) as [<- | Hne].
      * rewrite lookup_insert_eq.
        specialize (Hcount (edit_type NEW)).
        destruct (learning_insights d !! ("edit_type", edit_type NEW))
          as [li |]; cbn.
        -- destruct Hcount as [Hsame Hfreq].
           pose proof (events_of_nonneg (edit_type NEW) d). lia.
        -- lia.
      * rewrite lookup_insert_ne by congruence.
        specialize (Hcount pattern).
        destruct (learning_insights d !! ("edit_type", pattern)); lia.
Qed.

(** C10: in every database the recording path produces, each row of
    learning_insights has sample_size = frequency = the number of stored
    events of its pattern; the insert branch writes 1 and 1, the update
    branch writes the old frequency plus one into both. *)
Theorem sample_size_equals_frequency (d : db) :
  recorded d ->
  (forall key li,
      learning_insights d !! key = Some li ->
      sample_size li = frequency li
      /\ frequency li = events_of (snd key) d)
  /\ (forall now NEW st,
        frequency (upsert_row now NEW None st) = 1
        /\ sample_size (upsert_row now NEW None st) = 1)
  /\ (forall key li now NEW st,
        learning_insights d !! key = Some li ->
        frequency (upsert_row now NEW (Some li) st) = frequency li + 1
        /\ sample_size (upsert_row now NEW (Some li) st) = frequency li + 1).
Proof.
  intros Hd. destruct (recorded_counts_agree d Hd) as [Hkeys Hcount].
  assert (Hrow : forall key li,
             learning_insights d !! key = Some li ->
             sample_size li = frequency li
             /\ frequency li = events_of (snd key) d).
  { intros [ptype pattern] li Hlook.
    pose proof (Hkeys _ _ Hlook) as Hty. cbn in Hty. subst ptype.
    specialize (Hcount pattern). rewrite Hlook in Hcount. exact Hcount. }
  split; [exact Hrow |]. split.
  - intros now NEW st. split; reflexivity.
  - intros key li now NEW st Hlook.
    destruct (Hrow key li Hlook) as [_ Hfreq].
    pose proof (events_of_nonneg (snd key) d). cbn. lia.
Qed.

Lemma record_all_recorded (events : list (Z * edit_analyses_row)) (d d' : db) :
  recorded d -> record_all events d = Val d' -> recorded d'.
Proof.
  revert d. induction events as [| [now NEW] rest IH]; intros d Hd; cbn.
  - intros [= <-]. exact Hd.
  - destruct (insert_edit_analysis now NEW d) as [d1 | e] eqn:Hins; cbn.
    + apply IH. exact (recorded_insert d d1 now NEW Hd Hins).
    + discriminate.
Qed.

Lemma two_tone_db_recorded : recorded two_tone_db.
Proof.
  apply (record_all_recorded two_tone_events empty_db).
  - exact recorded_empty.
  - vm_compute. reflexivity.
Qed.

Lemma sample_size_equals_frequency_witness :
  match learning_insights two_tone_db !! ("edit_type", "tone") with
  | Some li => sample_size li = 2 /\ frequency li = 2
  | None => False
  end.
Proof.
  destruct (sample_size_equals_frequency two_tone_db two_tone_db_recorded)
    as [Hrow _].
  destruct (learning_insights two_tone_db !! ("edit_type", "tone"))
    as [li |] eqn:Hlook.
  - destruct (Hrow _ _ Hlook) as [Hsame Hfreq].
    rewrite Hsame, Hfreq. split; vm_compute; reflexivity.
  - vm_compute in Hlook. discriminate.
Defined.

(** ** The neutral default *)

(** C6: with fewer than three weekly averages, the empty series included,
    the result is stability 0.5, variance 0, not stable, no drift. *)
Theorem insufficient_weeks_default (weekly : list Q) :
  (length weekly < 3)%nat ->
  stability_of_rates weekly =
    Val {| stability_score := 0.5; pattern_variance := 0;
           weekly_rates := weekly;
           is_stable := false; drift_detected := false |}.
Proof.
  destruct weekly as [| a [| b [| c rest]]]; cbn [length]; intros Hlen;
    try reflexivity.
  lia.
Qed.

Lemma insufficient_weeks_default_witness :
  stability_of_rates (zs [85; 90]) =
    Val {| stability_score := 0.5; pattern_variance := 0;
           weekly_rates := zs [85; 90];
           is_stable := false; drift_detected := false |}.
Proof. apply insufficient_weeks_default. cbn. lia. Defined.

(** ** Scoring an edit *)

Lemma js_string_eqb_eq (a b : js_string) : js_string_eqb a b = true <-> a = b.
Proof.
  revert b. induction a as [| x a IH]; intros [| y b]; cbn; split;
    try discriminate; try reflexivity.
  - intros H. apply andb_prop in H as [Hx Ha].
    apply Z.eqb_eq in Hx. apply IH in Ha. congruence.
  - intros [= -> ->]. rewrite Z.eqb_refl. cbn. apply IH. reflexivity.
Qed.

Lemma calculateEditPercentage_range (original edited : js_string) :
  0 <= calculateEditPercentage original edited <= 100.
Proof.
  unfold calculateEditPercentage.
  destruct (js_string_eqb original edited); [lia |].
  destruct (js_string_eqb edited [] || js_string_eqb (trim edited) []); [lia |].
  unfold Math_round. lia.
Qed.

(** C9, as stated, fails: a blank edited text that equals the original is
    scored 100, not 0. *)
Lemma blank_identical_scores_100 :
  blank (ascii_units " ")
  /\ calculateSuccessScore
       (calculateEditPercentage (ascii_units " ") (ascii_units " ")) = 100.
Proof. split; reflexivity. Qed.

(** C9, amended: the score is a function of the two texts; identical texts
    score 100; an empty or blank edited text that differs from the original
    scores 0; otherwise the score is the band of the edit percentage
    (0 gives 100, up to 20 gives 75, up to 70 gives 25, above 70 gives 0). *)
Theorem outcome_score_bands (original edited : js_string) :
  let percentage := calculateEditPercentage original edited in
  let score := calculateSuccessScore percentage in
  (original = edited -> score = 100)
  /\ (original <> edited -> blank edited -> score = 0)
  /\ 0 <= percentage <= 100
  /\ (percentage = 0 -> score = 100)
  /\ (0 < percentage <= 20 -> score = 75)
  /\ (20 < percentage <= 70 -> score = 25)
  /\ (70 < percentage -> score = 0).
Proof.
  cbv zeta. repeat split.
  - intros ->. unfold calculateEditPercentage.
    rewrite (proj2 (js_string_eqb_eq edited edited) eq_refl). reflexivity.
  - intros Hne Hblank. unfold calculateEditPercentage.
    destruct (js_string_eqb original edited) eqn:Heq.
    + apply js_string_eqb_eq in Heq. contradiction.
    + unfold blank in Hblank. rewrite Hblank. cbn [js_string_eqb].
      rewrite orb_true_r. reflexivity.
  - apply calculateEditPercentage_range.
  - apply calculateEditPercentage_range.
  - intros ->. reflexivity.
  - intros [Hlo Hhi]. unfold calculateSuccessScore.
    destruct (Z.eqb_spec (calculateEditPercentage original edited) 0); [lia |].
    destruct (Z.leb_spec (calculateEditPercentage original edited) 20); [| lia].
    reflexivity.
  - intros [Hlo Hhi]. unfold calculateSuccessScore.
    destruct (Z.eqb_spec (calculateEditPercentage original edited) 0); [lia |].
    destruct (Z.leb_spec (calculateEditPercentage original edited) 20); [lia |].
    destruct (Z.leb_spec (calculateEditPercentage original edited) 70); [| lia].
    reflexivity.
  - intros Hlo. unfold calculateSuccessScore.
    destruct (Z.eqb_spec (calculateEditPercentage original edited) 0); [lia |].
    destruct (Z.leb_spec (calculateEditPercentage original edited) 20); [lia |].
    destruct (Z.leb_spec (calculateEditPercentage original edited) 70); [lia |].
    reflexivity.
Qed.

Lemma outcome_score_bands_witness :
  calculateSuccessScore
    (calculateEditPercentage (ascii_units "thanks a lot") (ascii_units "  ")) = 0.
Proof.
  destruct (outcome_score_bands (ascii_units "thanks a lot") (ascii_units "  "))
    as (_ & Hblank & _).
  apply Hblank.
  - discriminate.
  - reflexivity.
Defined.

(** ** Recording an edit *)

Lemma pool_query_insert_sent (analysis : EditAnalysis) (userId : option string)
    (w : world) :
  queries_sent (snd (pool_query_insert analysis userId w)) = S (queries_sent w)
  /\ console_errors (snd (pool_query_insert analysis userId w)) = console_errors w.
Proof.
  unfold pool_query_insert.
  destruct (reachable w); [| split; reflexivity].
  destruct (insert_edit_analysis _ _ _); split; reflexivity.
Qed.

(** C7, as stated, fails: with the database out of reach the write fails,
    nothing is appended, and analyzeEdit still returns the analysis. *)
Lemma failed_write_reported_as_success :
  fst (analyzeEdit fixed_ai "r1" (ascii_units "thanks a lot")
         (ascii_units "thanks") None unreachable_world)
  = Return {| responseId := "r1";
              originalText := ascii_units "thanks a lot";
              editedText := ascii_units "thanks";
              editType := "tone"; editPercentage := 67;
              editDescription := "shorter"; successScore := 25;
              learningInsight := "" |}
  /\ edit_analyses
       (database
          (snd (analyzeEdit fixed_ai "r1" (ascii_units "thanks a lot")
                  (ascii_units "thanks") None unreachable_world))) = []
  /\ console_errors
       (snd (analyzeEdit fixed_ai "r1" (ascii_units "thanks a lot")
               (ascii_units "thanks") None unreachable_world))
     = [Error_storing_edit_analysis connection_failed].
Proof. repeat split; vm_compute; reflexivity. Qed.

(** C7, amended: analyzeEdit sends the INSERT once and never again; when
    the write fails, storeEditAnalysis logs the error and swallows it, the
    database is left as it was, and analyzeEdit returns the analysis to its
    caller all the same; it never throws. *)
Theorem analyzeEdit_swallows_storage_failure
    (getAIEditAnalysis : js_string -> js_string -> ai_edit_analysis)
    (responseId : string) (originalText editedText : js_string)
    (userId : option string) (w : world) :
  let outcome :=
    analyzeEdit getAIEditAnalysis responseId originalText editedText userId w in
  (exists analysis,
      fst outcome = Return analysis
      /\ successScore analysis =
           calculateSuccessScore
             (calculateEditPercentage originalText editedText))
  /\ queries_sent (snd outcome) = S (queries_sent w)
  /\ ((exists row,
         edit_analyses (database (snd outcome))
         = edit_analyses (database w) ++ [row]
         /\ console_errors (snd outcome) = console_errors w)
      \/ (exists error,
            database (snd outcome) = database w
            /\ console_errors (snd outcome)
               = console_errors w ++ [Error_storing_edit_analysis error]))
  /\ (reachable w = false ->
      database (snd outcome) = database w
      /\ console_errors (snd outcome)
         = console_errors w ++ [Error_storing_edit_analysis connection_failed]).
Proof.
  cbv zeta. unfold analyzeEdit, storeEditAnalysis, pool_query_insert.
  destruct (reachable w) eqn:Hreach.
  - destruct (insert_edit_analysis _ _ _) as [d | e] eqn:Hins;
      cbn [fst snd database queries_sent console_errors console_error].
    + repeat split; try discriminate.
      * eexists. split; reflexivity.
      * left. apply insert_edit_analysis_Val in Hins as [st ->].
        eexists. split; reflexivity.
    + repeat split; try discriminate.
      * eexists. split; reflexivity.
      * right. exists (query_failed e). split; reflexivity.
  - cbn [fst snd database queries_sent console_errors console_error].
    repeat split.
    + eexists. split; reflexivity.
    + right. exists connection_failed. split; reflexivity.
Qed.

Lemma analyzeEdit_swallows_storage_failure_witness :
  database
    (snd (analyzeEdit fixed_ai "r1" (ascii_units "thanks a lot")
            (ascii_units "thanks") None unreachable_world))
  = database unreachable_world.
Proof.
  destruct (analyzeEdit_swallows_storage_failure fixed_ai "r1"
              (ascii_units "thanks a lot") (ascii_units "thanks") None
              unreachable_world) as (_ & _ & _ & Hdown).
  apply Hdown. reflexivity.
Defined.

(** ** The weekly aggregation *)

Lemma group_scores_below (week_start : Z) (groups : list (Z * list Z)) :
  Forall (fun w => week_start < w) (map fst groups) ->
  group_scores week_start groups = [].
Proof.
  induction groups as [| [w scores] rest IH]; cbn; intros Hall.
  - reflexivity.
  - inversion Hall as [| ? ? Hw Hrest]; subst.
    destruct (Z.eqb_spec week_start w); [lia |]. apply IH. exact Hrest.
Qed.

Lemma group_insert_keys (week_start score : Z) (groups : list (Z * list Z))
    (P : Z -> Prop) :
  P week_start -> Forall P (map fst groups) ->
  Forall P (map fst (group_insert week_start score groups)).
Proof.
  intros Hw. induction groups as [| [w scores] rest IH]; cbn; intros Hall.
  - constructor; [exact Hw | constructor].
  - inversion Hall as [| ? ? Hhead Hrest]; subst.
    destruct (week_start <? w); [| destruct (week_start =? w)]; cbn.
    + constructor; [exact Hw | exact Hall].
    + exact Hall.
    + constructor; [exact Hhead | apply IH; exact Hrest].
Qed.

Lemma group_insert_sorted (week_start score : Z) (groups : list (Z * list Z)) :
  StronglySorted Z.lt (map fst groups) ->
  StronglySorted Z.lt (map fst (group_insert week_start score groups)).
Proof.
  induction groups as [| [w scores] rest IH]; cbn; intros Hsorted.
  - constructor; constructor.
  - inversion Hsorted as [| ? ? Hrest Hall]; subst.
    destruct (Z.ltb_spec week_start w) as [Hlt | Hge];
      [| destruct (Z.eqb_spec week_start w) as [-> | Hne]]; cbn.
    + constructor; [exact Hsorted |].
      constructor; [exact Hlt |].
      eapply List.Forall_impl; [| exact Hall]. cbn. intros; lia.
    + exact Hsorted.
    + constructor; [apply IH; exact Hrest |].
      apply group_insert_keys; [lia | exact Hall].
Qed.

Lemma group_insert_scores (w week_start score : Z)
    (groups : list (Z * list Z)) :
  StronglySorted Z.lt (map fst groups) ->
  group_scores w (group_insert week_start score groups) =
  if w =? week_start then score :: group_scores w groups
  else group_scores w groups.
Proof.
  induction groups as [| [w1 scores] rest IH]; cbn; intros Hsorted.
  - destruct (w =? week_start); reflexivity.
  - inversion Hsorted as [| ? ? Hrest Hall]; subst.
    destruct (Z.ltb_spec week_start w1) as [Hlt | Hge];
      [| destruct (Z.eqb_spec week_start w1) as [-> | Hne]]; cbn.
    + destruct (Z.eqb_spec w week_start) as [-> | Hw]; [| reflexivity].
      destruct (Z.eqb_spec week_start w1); [lia |].
      rewrite group_scores_below; [reflexivity |].
      eapply List.Forall_impl; [| exact Hall]. cbn. intros; lia.
    + destruct (w =? w1); reflexivity.
    + destruct (Z.eqb_spec w w1) as [-> | Hw].
      * destruct (Z.eqb_spec w1 week_start); [lia | reflexivity].
      * apply IH. exact Hrest.
Qed.

Lemma group_insert_nonempty (week_start score : Z)
    (groups : list (Z * list Z)) :
  Forall (fun g => snd g <> []) groups ->
  Forall (fun g => snd g <> []) (group_insert week_start score groups).
Proof.
  induction groups as [| [w scores] rest IH]; cbn; intros Hall.
  - constructor; [discriminate | constructor].
  - inversion Hall as [| ? ? Hhead Hrest]; subst.
    destruct (week_start <? w); [| destruct (week_start =? w)].
    + constructor; [discriminate | exact Hall].
    + constructor; [discriminate | exact Hrest].
    + constructor; [exact Hhead | apply IH; exact Hrest].
Qed.

Lemma group_by_week_sorted (rows : list edit_analyses_row) :
  StronglySorted Z.lt (map fst (group_by_week rows)).
Proof.
  induction rows as [| ea rows IH]; cbn.
  - constructor.
  - apply group_insert_sorted. exact IH.
Qed.

Lemma group_by_week_nonempty (rows : list edit_analyses_row) :
  Forall (fun g => snd g <> []) (group_by_week rows).
Proof.
  induction rows as [| ea rows IH]; cbn.
  - constructor.
  - apply group_insert_nonempty. exact IH.
Qed.

Lemma group_by_week_scores (w : Z) (rows : list edit_analyses_row) :
  group_scores w (group_by_week rows) =
  map success_score
    (List.filter (fun ea => DATE_TRUNC_week (created_at ea) =? w) rows).
Proof.
  induction rows as [| ea rows IH].
  - reflexivity.
  - change (group_by_week (ea :: rows))
      with (group_insert (DATE_TRUNC_week (created_at ea)) (success_score ea)
              (group_by_week rows)).
    rewrite group_insert_scores by apply group_by_week_sorted.
    rewrite IH, (Z.eqb_sym w). cbn [List.filter].
    destruct (DATE_TRUNC_week (created_at ea) =? w); reflexivity.
Qed.

(** In a sorted grouping, membership is lookup. *)
Lemma sorted_group_member (w : Z) (scores : list Z)
    (groups : list (Z * list Z)) :
  StronglySorted Z.lt (map fst groups) ->
  Forall (fun g => snd g <> []) groups ->
  In (w, scores) groups <-> group_scores w groups = scores /\ scores <> [].
Proof.
  induction groups as [| [w1 scores1] rest IH]; cbn; intros Hsorted Hne.
  - split; [contradiction | intros [<- Hno]; apply Hno; reflexivity].
  - inversion Hsorted as [| ? ? Hrest Hall]; subst.
    inversion Hne as [| ? ? Hhead Htail]; subst. cbn in Hhead.
    destruct (Z.eqb_spec w w1) as [-> | Hw].
    + split.
      * intros [[= ->] | Hin]; [split; [reflexivity | exact Hhead] |].
        exfalso. apply (in_map fst) in Hin. cbn in Hin.
        rewrite List.Forall_forall in Hall. apply Hall in Hin. lia.
      * intros [-> _]. left. reflexivity.
    + rewrite <- (IH Hrest Htail). split.
      * intros [[= -> _] | Hin]; [contradiction | exact Hin].
      * intros Hin. right. exact Hin.
Qed.

Lemma filter_keys_sorted (keep : Z * list Z -> bool)
    (groups : list (Z * list Z)) :
  StronglySorted Z.lt (map fst groups) ->
  StronglySorted Z.lt (map fst (List.filter keep groups)).
Proof.
  induction groups as [| g rest IH]; cbn; intros Hsorted.
  - constructor.
  - inversion Hsorted as [| ? ? Hrest Hall]; subst.
    destruct (keep g); cbn; [| apply IH; exact Hrest].
    constructor; [apply IH; exact Hrest |].
    rewrite List.Forall_forall in Hall |- *. intros w Hin. apply Hall.
    apply in_map_iff in Hin as [g' [<- Hg']].
    apply List.filter_In in Hg' as [Hg' _]. apply in_map. exact Hg'.
Qed.

Lemma weekly_query_member (now : Z) (pattern_value_param : string)
    (user_id_param : option string) (d : db) (w : Z) (avg : Q) :
  In (w, avg)
    (weekly_query now pattern_value_param user_id_param (edit_analyses d))
  <-> (2 <= length (week_bucket now pattern_value_param user_id_param w d))%nat
      /\ avg = AVG_integer (map success_score
                              (week_bucket now pattern_value_param
                                 user_id_param w d)).
Proof.
  unfold weekly_query, week_bucket.
  set (rows := List.filter (in_window now pattern_value_param user_id_param)
                 (edit_analyses d)).
  pose proof (group_by_week_sorted rows) as Hsorted.
  pose proof (group_by_week_nonempty rows) as Hnonempty.
  pose proof (group_by_week_scores w rows) as Hscores.
  rewrite in_map_iff. split.
  - intros [[w' scores] [Heq Hin]]. cbn in Heq. injection Heq as -> <-.
    apply List.filter_In in Hin as [Hin Hcount]. cbn in Hcount.
    apply (sorted_group_member w scores _ Hsorted Hnonempty) in Hin
      as [Hlook _].
    rewrite Hscores in Hlook. subst scores.
    rewrite List.length_map in Hcount. split; [lia | reflexivity].
  - intros [Hcount ->].
    exists (w, map success_score
                 (List.filter
                    (fun ea => DATE_TRUNC_week (created_at ea) =? w) rows)).
    split; [reflexivity |].
    apply List.filter_In. split.
    + apply (sorted_group_member w _ _ Hsorted Hnonempty).
      split; [exact Hscores |].
      intros Hnil. apply (f_equal (@length Z)) in Hnil.
      rewrite List.length_map in Hnil. cbn in Hnil. lia.
    + cbn. rewrite List.length_map. lia.
Qed.

Lemma week_bucket_member (now : Z) (pattern_value_param : string)
    (user_id_param : option string) (w : Z) (d : db)
    (ea : edit_analyses_row) :
  In ea (week_bucket now pattern_value_param user_id_param w d) ->
  In ea (edit_analyses d)
  /\ edit_type ea = pattern_value_param
  /\ CURRENT_DATE now - 8 * seconds_per_week <= created_at ea
  /\ DATE_TRUNC_week (created_at ea) = w.
Proof.
  unfold week_bucket. intros Hin.
  apply List.filter_In in Hin as [Hin Hweek].
  apply List.filter_In in Hin as [Hin Hwin].
  unfold in_window in Hwin.
  apply andb_prop in Hwin as [Hwin _]. apply andb_prop in Hwin as [Hty Hcut].
  apply String.eqb_eq in Hty. apply Z.leb_le in Hcut. apply Z.eqb_eq in Hweek.
  repeat split; assumption.
Qed.

Lemma week_of_DATE_TRUNC (t : Z) : starts_a_week (DATE_TRUNC_week t) = true.
Proof.
  unfold starts_a_week, DATE_TRUNC_week, seconds_per_week, seconds_per_day.
  apply Z.eqb_eq. Z.div_mod_to_equations. lia.
Qed.

Lemma DATE_TRUNC_week_test (w t : Z) :
  starts_a_week w = true ->
  (DATE_TRUNC_week t =? w) = (w <=? t) && (t <? w + 604800).
Proof.
  unfold starts_a_week, DATE_TRUNC_week, seconds_per_week, seconds_per_day.
  intros Hw. apply Z.eqb_eq in Hw.
  destruct (Z.eqb_spec (t - (t + 3 * 86400) mod 604800) w) as [Heq | Hne];
    destruct (Z.leb_spec w t); destruct (Z.ltb_spec t (w + 604800));
    cbn [andb]; try reflexivity; exfalso;
    Z.div_mod_to_equations; lia.
Qed.

Lemma week_bucket_qualifying (now : Z) (pattern_value_param : string)
    (user_id_param : option string) (w : Z) (d : db) :
  starts_a_week w = true ->
  week_bucket now pattern_value_param user_id_param w d
  = qualifying_events now pattern_value_param user_id_param w d.
Proof.
  intros Hw. unfold week_bucket, qualifying_events.
  induction (edit_analyses d) as [| ea rows IH]; [reflexivity |].
  cbn [List.filter].
  assert (Hday : CURRENT_DATE now - 8 * seconds_per_week
                 = now / 86400 * 86400 - 4838400).
  { unfold CURRENT_DATE, seconds_per_week, seconds_per_day.
    Z.div_mod_to_equations. lia. }
  unfold in_window at 1. rewrite Hday.
  destruct (String.eqb (edit_type ea) pattern_value_param);
    cbn [andb]; [| exact IH].
  destruct (now / 86400 * 86400 - 4838400 <=? created_at ea);
    cbn [andb]; [| exact IH].
  destruct (match user_id_param with
            | Some u => match user_id ea with
                        | Some v => String.eqb v u
                        | None => false
                        end
            | None => true
            end); cbn [andb]; [| exact IH].
  cbn [List.filter]. rewrite (DATE_TRUNC_week_test w (created_at ea) Hw).
  destruct ((w <=? created_at ea) && (created_at ea <? w + 604800));
    [f_equal |]; exact IH.
Qed.

Lemma week_bucket_starts_a_week (now : Z) (pattern_value_param : string)
    (user_id_param : option string) (w : Z) (d : db) :
  week_bucket now pattern_value_param user_id_param w d <> [] ->
  starts_a_week w = true.
Proof.
  intros Hne.
  destruct (week_bucket now pattern_value_param user_id_param w d)
    as [| ea rest] eqn:Hbucket; [contradiction |].
  assert (Hin : In ea (week_bucket now pattern_value_param user_id_param w d))
    by (rewrite Hbucket; left; reflexivity).
  apply week_bucket_member in Hin as (_ & _ & _ & <-).
  apply week_of_DATE_TRUNC.
Qed.

(** ** NUMERIC rounding, casts and the sixteen-place root *)

Local Open Scope Q_scope.

Lemma scale_pos_Q (s : nat) : 0 < inject_Z (Zpos (scale s)).
Proof. unfold Qlt. cbn. lia. Qed.

Lemma round_half_away_bounds (q : Q) :
  q - (1 # 2) <= inject_Z (round_half_away q) <= q + (1 # 2).
Proof.
  unfold round_half_away.
  destruct (Qle_bool 0 q) eqn:Hsign.
  - pose proof (Qfloor_le (q + (1 # 2))) as Hlo.
    pose proof (Qlt_floor (q + (1 # 2))) as Hhi.
    rewrite inject_Z_plus in Hhi. change (inject_Z 1) with 1 in Hhi.
    split; lra.
  - pose proof (Qfloor_le (- q + (1 # 2))) as Hlo.
    pose proof (Qlt_floor (- q + (1 # 2))) as Hhi.
    rewrite inject_Z_plus in Hhi. change (inject_Z 1) with 1 in Hhi.
    rewrite inject_Z_opp. split; lra.
Qed.

Lemma round_half_away_nonneg (q : Q) : 0 <= q -> (0 <= round_half_away q)%Z.
Proof.
  intros Hq. unfold round_half_away.
  rewrite (proj2 (Qle_bool_iff 0 q) Hq).
  change 0%Z with (Qfloor 0). apply Qfloor_resp_le. lra.
Qed.

Lemma round_half_away_Z (z : Z) : round_half_away (inject_Z z) = z.
Proof.
  unfold round_half_away.
  destruct (Qle_bool 0 (inject_Z z)) eqn:Hsign.
  - apply Z.le_antisymm.
    + assert (H : (Qfloor (inject_Z z + (1 # 2)) < z + 1)%Z).
      { rewrite Zlt_Qlt. eapply Qle_lt_trans; [apply Qfloor_le |].
        rewrite inject_Z_plus. change (inject_Z 1) with 1. lra. }
      lia.
    + rewrite <- (Qfloor_Z z) at 1. apply Qfloor_resp_le. lra.
  - assert (Hneg : Qfloor (- inject_Z z + (1 # 2)) = (- z)%Z).
    { apply Z.le_antisymm.
      + assert (H : (Qfloor (- inject_Z z + (1 # 2)) < - z + 1)%Z).
        { rewrite Zlt_Qlt. eapply Qle_lt_trans; [apply Qfloor_le |].
          rewrite inject_Z_plus, inject_Z_opp. change (inject_Z 1) with 1.
          lra. }
        lia.
      + rewrite <- (Qfloor_Z (- z)) at 1. apply Qfloor_resp_le.
        rewrite inject_Z_opp. lra. }
    rewrite Hneg. lia.
Qed.

Lemma round_half_away_comp (p q : Q) : p == q -> round_half_away p = round_half_away q.
Proof.
  intros Heq. unfold round_half_away.
  rewrite (Qleb_comp 0 0 (Qeq_refl 0) p q Heq).
  destruct (Qle_bool 0 q).
  - apply Qfloor_comp. rewrite Heq. reflexivity.
  - f_equal. apply Qfloor_comp. rewrite Heq. reflexivity.
Qed.

Lemma as_quotient (z : Z) (m : positive) : z # m == inject_Z z / inject_Z (Zpos m).
Proof. rewrite Qmake_Qdiv. reflexivity. Qed.

Lemma numeric_round_error (s : nat) (q : Q) :
  q - 1 / (2 * inject_Z (Zpos (scale s))) <= numeric_round s q
  /\ numeric_round s q <= q + 1 / (2 * inject_Z (Zpos (scale s))).
Proof.
  unfold numeric_round. rewrite Qred_correct.
  rewrite (as_quotient (round_half_away _) (scale s)).
  pose proof (scale_pos_Q s) as Hm.
  pose proof (round_half_away_bounds (q * inject_Z (Zpos (scale s)))) as [Hlo Hhi].
  set (m := inject_Z (Zpos (scale s))) in *.
  set (z := inject_Z (round_half_away (q * m))) in *.
  split.
  - apply Qle_shift_div_l; [exact Hm |].
    assert (H1 : 1 / (2 * m) * m == 1 # 2) by (field; lra).
    lra.
  - apply Qle_shift_div_r; [exact Hm |].
    assert (H1 : 1 / (2 * m) * m == 1 # 2) by (field; lra).
    lra.
Qed.

Lemma numeric_round_nonneg (s : nat) (q : Q) : 0 <= q -> 0 <= numeric_round s q.
Proof.
  intros Hq. unfold numeric_round. rewrite Qred_correct.
  unfold Qle. cbn. rewrite Z.mul_1_r.
  apply round_half_away_nonneg.
  apply Qmult_le_0_compat; [exact Hq | apply Qlt_le_weak, scale_pos_Q].
Qed.

(** A positive scale-[s] decimal is at least one unit. *)
Lemma numeric_round_unit (s : nat) (q : Q) :
  0 < numeric_round s q -> 1 / inject_Z (Zpos (scale s)) <= numeric_round s q.
Proof.
  unfold numeric_round. rewrite !Qred_correct.
  rewrite (as_quotient (round_half_away _) (scale s)).
  set (z := round_half_away _). pose proof (scale_pos_Q s) as Hm.
  set (m := inject_Z (Zpos (scale s))) in *.
  intros Hpos.
  assert (Hz : (1 <= z)%Z).
  { assert (H0 : 0 < inject_Z z).
    { apply (Qmult_lt_r _ _ m) in Hpos; [| exact Hm].
      assert (inject_Z z / m * m == inject_Z z) by (field; lra). lra. }
    change 0 with (inject_Z 0) in H0. rewrite <- Zlt_Qlt in H0. lia. }
  rewrite Zle_Qle in Hz. change (inject_Z 1) with 1 in Hz.
  apply Qle_shift_div_l; [exact Hm |].
  assert (1 / m * m == 1) by (field; lra). lra.
Qed.

(** A scale-2 decimal is a scale-3 decimal. *)
Lemma numeric_round_finer (x : Q) :
  x = numeric_round 2 x -> numeric_round 3 x = x.
Proof.
  intros Hx. rewrite Hx at 2. unfold numeric_round at 2.
  set (z := round_half_away (x * inject_Z (Zpos (scale 2)))).
  unfold numeric_round. apply Qred_complete.
  assert (Hxz : x == z # scale 2).
  { rewrite Hx. unfold numeric_round. rewrite Qred_correct. reflexivity. }
  rewrite (round_half_away_comp _ (inject_Z (10 * z))).
  - rewrite round_half_away_Z.
    change (scale 3) with 1000%positive. change (scale 2) with 100%positive.
    unfold Qeq. cbn. lia.
  - rewrite Hxz.
    change (scale 3) with 1000%positive. change (scale 2) with 100%positive.
    unfold Qeq. cbn. lia.
Qed.

Lemma Qlt_bool_iff (a b : Q) : Qlt_bool a b = true <-> a < b.
Proof.
  unfold Qlt_bool. rewrite negb_true_iff. split.
  - intros Hle. apply Qnot_le_lt. intros H.
    apply Qle_bool_iff in H. congruence.
  - intros Hlt. destruct (Qle_bool b a) eqn:Hle; [| reflexivity].
    apply Qle_bool_iff in Hle. lra.
Qed.

Lemma Qlt_bool_false (a b : Q) : Qlt_bool a b = false <-> b <= a.
Proof.
  unfold Qlt_bool. rewrite negb_false_iff. apply Qle_bool_iff.
Qed.

Lemma cast_decimal_in_range (p s : nat) (q : Q) :
  Qabs (numeric_round s q) < inject_Z (Zpos (scale (p - s))) ->
  cast_decimal p s q = Val (numeric_round s q).
Proof.
  intros Hrange. unfold cast_decimal.
  destruct (Qle_bool _ _) eqn:Hle; [| reflexivity].
  apply Qle_bool_iff in Hle. lra.
Qed.

Lemma cast_decimal_between (p s : nat) (q lo hi : Q) :
  - inject_Z (Zpos (scale (p - s))) < lo - 1 / (2 * inject_Z (Zpos (scale s))) ->
  hi + 1 / (2 * inject_Z (Zpos (scale s))) < inject_Z (Zpos (scale (p - s))) ->
  lo <= q <= hi ->
  cast_decimal p s q = Val (numeric_round s q).
Proof.
  intros Hlo Hhi [Hq1 Hq2]. apply cast_decimal_in_range.
  destruct (numeric_round_error s q) as [He1 He2].
  apply Qabs_case; intros _; lra.
Qed.

Lemma cast_8_3_weekly_average (x : Q) :
  weekly_average x -> cast_decimal 8 3 x = Val x.
Proof.
  intros (Hx & Hlo & Hhi).
  rewrite (cast_decimal_between 8 3 x 0 100).
  - rewrite numeric_round_finer by exact Hx. reflexivity.
  - vm_compute. reflexivity.
  - vm_compute. reflexivity.
  - split; assumption.
Qed.

Lemma sql_map_cast_weekly (l : list Q) :
  Forall weekly_average l -> sql_map (cast_decimal 8 3) l = Val l.
Proof.
  induction 1 as [| x l Hx Hl IH]; cbn [sql_map].
  - reflexivity.
  - rewrite (cast_8_3_weekly_average x Hx). cbn [sql_bind].
    rewrite IH. reflexivity.
Qed.

Lemma Qsum_bounds (l : list Q) (lo hi : Q) :
  Forall (fun x => lo <= x <= hi) l ->
  lo * inject_Z (Z.of_nat (length l)) <= Qsum l
  /\ Qsum l <= hi * inject_Z (Z.of_nat (length l)).
Proof.
  induction 1 as [| x l [Hx1 Hx2] Hl [IH1 IH2]].
  - change (inject_Z (Z.of_nat (@length Q []))) with 0.
    change (Qsum []) with 0. lra.
  - cbn [length Qsum fold_right]. fold (Qsum l).
    rewrite Nat2Z.inj_succ, <- Z.add_1_r, inject_Z_plus.
    change (inject_Z 1) with 1. split; lra.
Qed.

Lemma length_pos_Q {A : Type} (l : list A) :
  l <> [] -> 0 < inject_Z (Z.of_nat (length l)).
Proof.
  intros Hne. change 0 with (inject_Z 0). rewrite <- Zlt_Qlt.
  destruct l; [contradiction | cbn [length]; lia].
Qed.

Lemma sql_avg_bounds (l : list Q) (lo hi : Q) :
  l <> [] -> Forall (fun x => lo <= x <= hi) l ->
  lo <= sql_avg l <= hi.
Proof.
  intros Hne Hall. destruct (Qsum_bounds l lo hi Hall) as [H1 H2].
  pose proof (length_pos_Q l Hne) as Hn. unfold sql_avg. split.
  - apply Qle_shift_div_l; assumption.
  - apply Qle_shift_div_r; assumption.
Qed.

Lemma Qsum_nonneg (l : list Q) : Forall (fun y => 0 <= y) l -> 0 <= Qsum l.
Proof.
  induction 1 as [| y l Hy Hl IH].
  - change (Qsum []) with 0. lra.
  - cbn [Qsum fold_right]. fold (Qsum l). lra.
Qed.

Lemma Qsum_member (l : list Q) (x : Q) :
  Forall (fun y => 0 <= y) l -> In x l -> x <= Qsum l.
Proof.
  induction 1 as [| y l Hy Hl IH]; cbn [In Qsum fold_right].
  - contradiction.
  - fold (Qsum l). pose proof (Qsum_nonneg l Hl) as Hsum.
    intros [-> | Hin]; [lra | specialize (IH Hin); lra].
Qed.

(** The sixteen-place root: below the true root, by less than 10^-16. *)
Lemma root16_spec (v : Q) :
  0 <= v ->
  0 <= root16 v
  /\ root16 v * root16 v <= v
  /\ v < (root16 v + 1 / inject_Z (Zpos (scale 16)))
          * (root16 v + 1 / inject_Z (Zpos (scale 16))).
Proof.
  intros Hv. unfold root16. rewrite !Qred_correct.
  rewrite (as_quotient (Z.sqrt _) (scale 16)).
  set (k := Qfloor (v * inject_Z (Zpos (scale 32)))).
  assert (Hk : (0 <= k)%Z).
  { unfold k. change 0%Z with (Qfloor 0). apply Qfloor_resp_le.
    apply Qmult_le_0_compat; [exact Hv | apply Qlt_le_weak, scale_pos_Q]. }
  pose proof (Z.sqrt_spec k Hk) as [Hs1 Hs2]. cbv zeta in Hs1, Hs2.
  pose proof (Z.sqrt_nonneg k) as Hs0.
  set (r := Z.sqrt k) in *.
  pose proof (Qfloor_le (v * inject_Z (Zpos (scale 32)))) as Hf1.
  pose proof (Qlt_floor (v * inject_Z (Zpos (scale 32)))) as Hf2.
  fold k in Hf1, Hf2.
  rewrite Zle_Qle, inject_Z_mult in Hs1.
  assert (Hs2' : inject_Z (k + 1) <= (inject_Z r + 1) * (inject_Z r + 1)).
  { change 1 with (inject_Z 1). rewrite <- !inject_Z_plus, <- inject_Z_mult.
    rewrite <- Zle_Qle. lia. }
  rewrite Zle_Qle in Hs0. change (inject_Z 0) with 0 in Hs0.
  assert (Hm : inject_Z (Zpos (scale 32))
               == inject_Z (Zpos (scale 16)) * inject_Z (Zpos (scale 16))).
  { vm_compute. reflexivity. }
  pose proof (scale_pos_Q 16) as Hm16.
  set (m := inject_Z (Zpos (scale 16))) in *.
  set (R := inject_Z r) in *.
  rewrite Hm in Hf1, Hf2.
  assert (Hdiv : R / m * m == R) by (field; lra).
  assert (Hunit : 1 / m * m == 1) by (field; lra).
  set (a := R / m) in *. set (u := 1 / m) in *.
  assert (Ha : 0 <= a) by (apply Qle_shift_div_l; [exact Hm16 | lra]).
  assert (Hu : 0 < u) by (apply Qlt_shift_div_l; [exact Hm16 | lra]).
  repeat split.
  - exact Ha.
  - assert (H : a * a * (m * m) <= v * (m * m)).
    { assert (E : a * a * (m * m) == (a * m) * (a * m)) by ring.
      rewrite E, Hdiv. lra. }
    apply Qmult_lt_0_le_reg_r in H; [exact H | nra].
  - assert (H : v * (m * m) < (a + u) * (a + u) * (m * m)).
    { assert (E : (a + u) * (a + u) * (m * m)
                  == (a * m + u * m) * (a * m + u * m)) by ring.
      rewrite E, Hdiv, Hunit. lra. }
    apply Qmult_lt_r in H; [exact H | nra].
Qed.

Lemma weekly_average_range (l : list Q) :
  Forall weekly_average l -> Forall (fun x => 0 <= x <= 100) l.
Proof.
  intros Hall. eapply List.Forall_impl; [| exact Hall].
  intros x (_ & Hlo & Hhi). split; assumption.
Qed.

Lemma half_unit_3 : 1 / (2 * inject_Z (Zpos (scale 3))) == 1 # 2000.
Proof. vm_compute. reflexivity. Qed.

Lemma rounded_mean_cast (l : list Q) :
  Forall weekly_average l -> l <> [] ->
  cast_decimal 8 3 (sql_avg l) = Val (rounded_mean l)
  /\ 0 <= rounded_mean l
  /\ sql_avg l - (1 # 2000) <= rounded_mean l <= sql_avg l + (1 # 2000)
  /\ 0 <= sql_avg l <= 100.
Proof.
  intros Hall Hne.
  pose proof (sql_avg_bounds l 0 100 Hne (weekly_average_range l Hall)) as Havg.
  destruct (numeric_round_error 3 (sql_avg l)) as [He1 He2].
  rewrite half_unit_3 in He1, He2.
  repeat split; try tauto.
  - apply (cast_decimal_between 8 3 _ 0 100);
      [vm_compute; reflexivity | vm_compute; reflexivity | tauto].
  - apply numeric_round_nonneg. tauto.
Qed.

Lemma squares_bounded (l : list Q) (c b : Q) :
  Forall (fun x => - b <= x - c <= b) l ->
  Forall (fun y => 0 <= y <= b * b)
    (map (fun rate => (rate - c) * (rate - c)) l).
Proof.
  induction 1 as [| x l [H1 H2] Hl IH]; cbn [map]; constructor.
  - set (d := x - c) in *.
    assert (Hprod : 0 <= (b - d) * (b + d))
      by (apply Qmult_le_0_compat; lra).
    assert (Hsq : 0 <= d * d).
    { destruct (Qlt_le_dec d 0) as [Hneg | Hpos].
      - assert (E : d * d == (- d) * (- d)) by ring. rewrite E.
        apply Qmult_le_0_compat; lra.
      - apply Qmult_le_0_compat; lra. }
    assert (E : (b - d) * (b + d) == b * b - d * d) by ring.
    rewrite E in Hprod. split; lra.
  - exact IH.
Qed.

Lemma rounded_variance_cast (l : list Q) :
  Forall weekly_average l -> l <> [] ->
  cast_decimal 8 3
    (sql_avg (map (fun rate => (rate - rounded_mean l) * (rate - rounded_mean l)) l))
  = Val (rounded_variance l)
  /\ 0 <= rounded_variance l.
Proof.
  intros Hall Hne.
  destruct (rounded_mean_cast l Hall Hne) as (_ & HM0 & [HM1 HM2] & [Hmu0 Hmu1]).
  assert (Hsq : Forall (fun y => 0 <= y <= 101 * 101)
                  (map (fun rate => (rate - rounded_mean l)
                                    * (rate - rounded_mean l)) l)).
  { apply squares_bounded. eapply List.Forall_impl; [| exact Hall].
    intros x (_ & Hlo & Hhi). cbn beta. split; lra. }
  assert (Hne' : map (fun rate => (rate - rounded_mean l)
                                  * (rate - rounded_mean l)) l <> [])
    by (destruct l; [contradiction | discriminate]).
  pose proof (sql_avg_bounds _ 0 (101 * 101) Hne' Hsq) as Havg.
  split.
  - apply (cast_decimal_between 8 3 _ 0 (101 * 101));
      [vm_compute; reflexivity | vm_compute; reflexivity | tauto].
  - apply numeric_round_nonneg. tauto.
Qed.

Lemma Qsquare_nonneg (d : Q) : 0 <= d * d.
Proof.
  destruct (Qlt_le_dec d 0) as [Hneg | Hpos].
  - assert (E : d * d == (- d) * (- d)) by ring. rewrite E.
    apply Qmult_le_0_compat; lra.
  - apply Qmult_le_0_compat; lra.
Qed.

Lemma Qsquare_le (a b : Q) : 0 <= a -> a <= b -> a * a <= b * b.
Proof.
  intros Ha Hab.
  assert (H : 0 <= (b - a) * (b + a)) by (apply Qmult_le_0_compat; lra).
  assert (E : (b - a) * (b + a) == b * b - a * a) by ring.
  rewrite E in H. lra.
Qed.

Lemma Qsquare_le_inv (a b : Q) : 0 <= b -> a * a <= b * b -> a <= b.
Proof.
  intros Hb Hsq. destruct (Qlt_le_dec b a) as [Hlt | Hle]; [| exact Hle].
  exfalso.
  assert (H : 0 < (a - b) * (a + b)) by (apply Qmult_lt_0_compat; lra).
  assert (E : (a - b) * (a + b) == a * a - b * b) by ring.
  rewrite E in H. lra.
Qed.

(** The spread of at most 64 weekly averages never exceeds a hundred times
    their (rounded, positive) mean, so the DECIMAL(5,3) cast of the score
    has room. *)
Lemma root_below_hundred_means (l : list Q) :
  Forall weekly_average l -> l <> [] -> (length l <= 64)%nat ->
  0 < rounded_mean l ->
  0 <= root16 (rounded_variance l) <= 100 * rounded_mean l.
Proof.
  intros Hall Hne Hlen HM.
  destruct (rounded_mean_cast l Hall Hne) as (_ & _ & [HM1 HM2] & [Hmu0 Hmu1]).
  destruct (rounded_variance_cast l Hall Hne) as [_ HV0].
  destruct (root16_spec _ HV0) as (Hr0 & Hr1 & _).
  split; [exact Hr0 |].
  pose proof (numeric_round_unit 3 (sql_avg l) HM) as Hunit.
  fold (rounded_mean l) in Hunit.
  assert (Hu : 1 / inject_Z (Zpos (scale 3)) == 1 # 1000)
    by (vm_compute; reflexivity).
  rewrite Hu in Hunit. clear Hu.
  set (M := rounded_mean l) in *. set (V := rounded_variance l) in *.
  set (mu := sql_avg l) in *.
  (* every average lies within 95 means of the mean *)
  assert (Hn : inject_Z (Z.of_nat (length l)) <= 64).
  { change 64 with (inject_Z 64). rewrite <- Zle_Qle. lia. }
  pose proof (length_pos_Q l Hne) as Hn0.
  assert (Hsum : Qsum l == mu * inject_Z (Z.of_nat (length l))).
  { unfold mu, sql_avg. field. lra. }
  assert (Hmember : Forall (fun x => - (95 * M) <= x - M <= 95 * M) l).
  { apply List.Forall_forall. intros x Hx.
    assert (Hx0 : 0 <= x).
    { rewrite List.Forall_forall in Hall. destruct (Hall x Hx) as (_ & H & _).
      exact H. }
    assert (Hxs : x <= Qsum l).
    { apply Qsum_member; [| exact Hx].
      eapply List.Forall_impl; [| exact Hall]. intros y (_ & H & _). exact H. }
    rewrite Hsum in Hxs.
    assert (Hprod : mu * inject_Z (Z.of_nat (length l)) <= mu * 64).
    { assert (H : 0 <= mu * (64 - inject_Z (Z.of_nat (length l))))
        by (apply Qmult_le_0_compat; lra).
      assert (E : mu * (64 - inject_Z (Z.of_nat (length l)))
                  == mu * 64 - mu * inject_Z (Z.of_nat (length l))) by ring.
      rewrite E in H. lra. }
    split; lra. }
  pose proof (squares_bounded l M (95 * M) Hmember) as Hsq.
  assert (Hne' : map (fun rate => (rate - M) * (rate - M)) l <> [])
    by (destruct l; [contradiction | discriminate]).
  pose proof (sql_avg_bounds _ 0 (95 * M * (95 * M)) Hne' Hsq) as [_ Havg].
  destruct (numeric_round_error 3
              (sql_avg (map (fun rate => (rate - M) * (rate - M)) l)))
    as [_ Herr].
  rewrite half_unit_3 in Herr. fold M in Herr.
  change (numeric_round 3
            (sql_avg (map (fun rate => (rate - M) * (rate - M)) l)))
    with V in Herr.
  assert (HMM : (1 # 1000) * (1 # 1000) <= M * M)
    by (apply Qsquare_le; lra).
  assert (HV : V <= (100 * M) * (100 * M)).
  { assert (E : 100 * M * (100 * M) == 10000 * (M * M)) by ring.
    assert (E' : 95 * M * (95 * M) == 9025 * (M * M)) by ring.
    rewrite E. rewrite E' in Havg.
    assert (Hc : (1 # 1000) * (1 # 1000) == 1 # 1000000) by reflexivity.
    rewrite Hc in HMM. lra. }
  apply Qsquare_le_inv; lra.
Qed.

Lemma Forall_firstn_keep {A : Type} (P : A -> Prop) (n : nat) (l : list A) :
  Forall P l -> Forall P (firstn n l).
Proof.
  intros Hall. apply List.Forall_forall. intros x Hx.
  rewrite List.Forall_forall in Hall. apply Hall.
  rewrite <- (firstn_skipn n l). apply in_or_app. left. exact Hx.
Qed.

Lemma Forall_skipn_keep {A : Type} (P : A -> Prop) (n : nat) (l : list A) :
  Forall P l -> Forall P (skipn n l).
Proof.
  intros Hall. apply List.Forall_forall. intros x Hx.
  rewrite List.Forall_forall in Hall. apply Hall.
  rewrite <- (firstn_skipn n l). apply in_or_app. right. exact Hx.
Qed.

(** The two slices of the drift test: the last two weeks, and all the weeks
    before them. *)
Lemma recent_slice {A : Type} (l : list A) :
  (2 <= length l)%nat ->
  array_slice l (Z.of_nat (length l) - 1) (Z.of_nat (length l))
  = skipn (length l - 2) l.
Proof.
  intros Hlen. unfold array_slice.
  replace (Z.max (Z.of_nat (length l) - 1) 1) with (Z.of_nat (length l) - 1)%Z
    by lia.
  replace (Z.to_nat (Z.of_nat (length l) - (Z.of_nat (length l) - 1) + 1))
    with 2%nat by lia.
  replace (Z.to_nat (Z.of_nat (length l) - 1 - 1)) with (length l - 2)%nat
    by lia.
  apply firstn_all2. rewrite length_skipn. lia.
Qed.

Lemma historical_slice {A : Type} (l : list A) :
  (2 <= length l)%nat ->
  array_slice l 1 (Z.of_nat (length l) - 2) = firstn (length l - 2) l.
Proof.
  intros Hlen. unfold array_slice.
  replace (Z.max 1 1) with 1%Z by lia.
  replace (Z.to_nat (Z.of_nat (length l) - 2 - 1 + 1)) with (length l - 2)%nat
    by lia.
  reflexivity.
Qed.

Lemma stability_of_rates_closed_form (l : list Q) :
  Forall weekly_average l -> (3 <= length l <= 64)%nat ->
  stability_of_rates l = Val (stability_closed_form l).
Proof.
  intros Hall [Hlen3 Hlen64].
  assert (Hne : l <> []) by (destruct l; [cbn in Hlen3; lia | discriminate]).
  unfold stability_of_rates.
  assert (Hal : array_length l = Some (Z.of_nat (length l)))
    by (destruct l; [contradiction | reflexivity]).
  rewrite Hal.
  destruct (Z.ltb_spec (Z.of_nat (length l)) 3) as [Hlt | _]; [lia |].
  rewrite (sql_map_cast_weekly l Hall). cbn [sql_bind].
  destruct (rounded_mean_cast l Hall Hne) as (-> & HM0 & _ & _).
  cbn [sql_bind].
  destruct (rounded_variance_cast l Hall Hne) as (-> & HV0).
  cbn [sql_bind].
  assert (Hscore :
    (if Qlt_bool 0 (rounded_mean l)
     then
       do root <- numeric_sqrt (rounded_variance l);
       do cv <- cast_decimal 5 3 (1 - root / rounded_mean l);
       Val (GREATEST 0 (LEAST 1 cv))
     else Val 0)
    = Val (stability_score (stability_closed_form l))).
  { unfold stability_closed_form. cbn [stability_score].
    destruct (Qlt_bool 0 (rounded_mean l)) eqn:HM; [| reflexivity].
    apply Qlt_bool_iff in HM.
    unfold numeric_sqrt.
    rewrite (proj2 (Qlt_bool_false (rounded_variance l) 0) HV0).
    cbn [sql_bind].
    destruct (root_below_hundred_means l Hall Hne Hlen64 HM) as [Hr0 Hr1].
    rewrite (cast_decimal_between 5 3 _ (- (99)) 1);
      [reflexivity | vm_compute; reflexivity | vm_compute; reflexivity |].
    assert (Hq0 : 0 <= root16 (rounded_variance l) / rounded_mean l)
      by (apply Qle_shift_div_l; lra).
    assert (Hq1 : root16 (rounded_variance l) / rounded_mean l <= 100)
      by (apply Qle_shift_div_r; lra).
    split; lra. }
  rewrite Hscore. cbn [sql_bind].
  assert (Hdrift :
    (if (4 <=? Z.of_nat (length l))%Z
     then
       do recent <- sql_map (cast_decimal 8 3)
                      (array_slice l (Z.of_nat (length l) - 1)
                         (Z.of_nat (length l)));
       do recent_trend <- cast_decimal 8 3 (sql_avg recent);
       do historical <- sql_map (cast_decimal 8 3)
                          (array_slice l 1 (Z.of_nat (length l) - 2));
       do historical_trend <- cast_decimal 8 3 (sql_avg historical);
       Val (Qlt_bool 20 (Qabs (recent_trend - historical_trend)))
     else Val false)
    = Val (drift_detected (stability_closed_form l))).
  { unfold stability_closed_form. cbn [drift_detected].
    destruct (Z.leb_spec 4 (Z.of_nat (length l))) as [H4 | H4].
    - rewrite (proj2 (Nat.leb_le 4 (length l))) by lia.
      rewrite recent_slice, historical_slice by lia.
      assert (Hrecent : Forall weekly_average (skipn (length l - 2) l))
        by (apply Forall_skipn_keep; exact Hall).
      assert (Hhist : Forall weekly_average (firstn (length l - 2) l))
        by (apply Forall_firstn_keep; exact Hall).
      assert (Hrne : skipn (length l - 2) l <> []).
      { intros Hnil. apply (f_equal (@length Q)) in Hnil.
        rewrite length_skipn in Hnil. cbn in Hnil. lia. }
      assert (Hhne : firstn (length l - 2) l <> []).
      { intros Hnil. apply (f_equal (@length Q)) in Hnil.
        rewrite length_firstn in Hnil. cbn in Hnil. lia. }
      rewrite (sql_map_cast_weekly _ Hrecent). cbn [sql_bind].
      destruct (rounded_mean_cast _ Hrecent Hrne) as (-> & _).
      cbn [sql_bind].
      rewrite (sql_map_cast_weekly _ Hhist). cbn [sql_bind].
      destruct (rounded_mean_cast _ Hhist Hhne) as (-> & _).
      cbn [sql_bind]. reflexivity.
    - rewrite (proj2 (Nat.leb_gt 4 (length l))) by lia. reflexivity. }
  rewrite Hdrift. cbn [sql_bind]. reflexivity.
Qed.

(** ** The stability score and the drift flag *)

Lemma stability_of_rates_short (weekly : list Q) :
  (length weekly < 3)%nat ->
  stability_of_rates weekly =
    Val {| stability_score := 0.5; pattern_variance := 0;
           weekly_rates := weekly;
           is_stable := false; drift_detected := false |}.
Proof.
  destruct weekly as [| a [| b [| c rest]]]; cbn [length]; intros Hlen;
    try reflexivity.
  lia.
Qed.

Lemma clamp_unit (x : Q) : 0 <= GREATEST 0 (LEAST 1 x) <= 1.
Proof.
  unfold GREATEST, LEAST.
  destruct (Qle_bool 1 x) eqn:H1.
  - change (Qle_bool 0 1) with true. cbv iota. split; lra.
  - assert (Hx : x <= 1).
    { destruct (Qlt_le_dec 1 x) as [Hlt | Hle]; [| exact Hle].
      apply Qlt_le_weak, Qle_bool_iff in Hlt. congruence. }
    destruct (Qle_bool 0 x) eqn:H0.
    + apply Qle_bool_iff in H0. split; lra.
    + split; lra.
Qed.

Ltac weekly_averages :=
  repeat constructor; try (vm_compute; reflexivity);
  try (vm_compute; discriminate).

(** C1, as stated, fails: after three weeks at 50 a week at 80 differs from
    the mean of all prior weeks by 30, yet no drift is flagged, because the
    code averages the last two weeks (65) against the weeks before them. *)
Lemma single_week_jump_not_flagged :
  spec_driftDetected one_week_jump = true
  /\ stability_of_rates one_week_jump =
       Val {| stability_score := 387 # 500;
              pattern_variance := 675 # 4;
              weekly_rates := one_week_jump;
              is_stable := true;
              drift_detected := false |}.
Proof. split; vm_compute; reflexivity. Qed.

(** C1, amended: with at least four weekly averages drift is flagged
    exactly when the mean of the two most recent weeks and the mean of all
    the weeks before those two, each taken to three decimal places, differ
    by more than 20; with fewer than four it is never flagged. *)
Theorem drift_compares_last_two_weeks (weekly : list Q) :
  Forall weekly_average weekly -> (length weekly <= 64)%nat ->
  exists r,
    stability_of_rates weekly = Val r
    /\ ((length weekly < 4)%nat -> drift_detected r = false)
    /\ ((4 <= length weekly)%nat ->
        (drift_detected r = true <->
         20 < Qabs (numeric_round 3
                      (sql_avg (skipn (length weekly - 2) weekly))
                    - numeric_round 3
                        (sql_avg (firstn (length weekly - 2) weekly))))).
Proof.
  intros Hall Hlen.
  destruct (Nat.lt_ge_cases (length weekly) 3) as [Hshort | Hlong].
  - eexists. split; [apply stability_of_rates_short; exact Hshort |].
    split; [reflexivity | lia].
  - exists (stability_closed_form weekly).
    split; [apply stability_of_rates_closed_form; [exact Hall | lia] |].
    unfold stability_closed_form. cbn [drift_detected]. split.
    + intros Hlt. rewrite (proj2 (Nat.leb_gt 4 (length weekly))) by lia.
      reflexivity.
    + intros Hge. rewrite (proj2 (Nat.leb_le 4 (length weekly))) by lia.
      apply Qlt_bool_iff.
Qed.

Lemma drift_compares_last_two_weeks_witness :
  exists r,
    stability_of_rates declining_weeks = Val r /\ drift_detected r = true.
Proof.
  destruct (drift_compares_last_two_weeks declining_weeks)
    as (r & Hrun & _ & Hdrift).
  - unfold declining_weeks, zs. cbn [map]. weekly_averages.
  - cbn. lia.
  - exists r. split; [exact Hrun |].
    apply Hdrift.
    + cbn. lia.
    + vm_compute. reflexivity.
Defined.

(** C2, as stated, fails: for the weekly averages 0.01, 0.02, 0.03 the
    variance is stored as 0.000, the score comes out as 1 and the pattern
    counts as stable, while 1 - sqrt(variance)/mean is below 0.7. *)
Lemma small_averages_score_one :
  stability_of_rates tiny_weeks =
    Val {| stability_score := 1; pattern_variance := 0;
           weekly_rates := tiny_weeks;
           is_stable := true; drift_detected := false |}
  /\ (spec_stabilityScore tiny_weeks < 7 / 10)%R
  /\ Q2R 1 <> spec_stabilityScore tiny_weeks.
Proof.
  assert (Hspec : (spec_stabilityScore tiny_weeks < 7 / 10)%R).
  { unfold spec_stabilityScore.
    replace (Qlt_bool 0 (sql_avg tiny_weeks)) with true
      by (vm_compute; reflexivity).
    assert (Hv : spec_variance tiny_weeks == 1 # 15000)
      by (vm_compute; reflexivity).
    assert (Hm : sql_avg tiny_weeks == 1 # 50) by (vm_compute; reflexivity).
    rewrite (Qreals.Qeq_eqR _ _ Hv), (Qreals.Qeq_eqR _ _ Hm).
    unfold Q2R. cbn [Qnum Qden].
    assert (Hroot : (6 / 1000 < sqrt (1 * / IZR (Z.pos 15000)))%R).
    { rewrite <- (sqrt_square (6 / 1000)) at 1 by lra.
      apply sqrt_lt_1_alt. split; lra. }
    apply Rmax_lub_lt; [lra |].
    eapply Rle_lt_trans; [apply Rmin_r |].
    set (root := sqrt (1 * / IZR (Z.pos 15000))) in *.
    replace (root / (1 * / IZR (Z.pos 50)))%R with (root * 50)%R by (field; lra).
    lra. }
  split; [vm_compute; reflexivity |].
  split; [exact Hspec |].
  intros Heq. rewrite <- Heq in Hspec. unfold Q2R in Hspec.
  cbn [Qnum Qden] in Hspec. lra.
Qed.

(** C2, amended: on three or more weekly averages the function returns
    the population variance about the mean, both taken to three decimal
    places; when that mean is positive the score is
    1 - sqrt(variance)/mean rounded to three places and clamped to [0, 1],
    and when it is zero the score is 0; isStable holds exactly when the
    score is at least 0.7. *)
Theorem stability_score_rounded (weekly : list Q) :
  Forall weekly_average weekly -> (3 <= length weekly <= 64)%nat ->
  exists r,
    stability_of_rates weekly = Val r
    /\ pattern_variance r = rounded_variance weekly
    /\ (0 < rounded_mean weekly ->
        stability_score r =
        GREATEST 0
          (LEAST 1
             (numeric_round 3
                (1 - root16 (rounded_variance weekly) / rounded_mean weekly))))
    /\ (rounded_mean weekly <= 0 -> stability_score r = 0)
    /\ (is_stable r = true <-> 7 # 10 <= stability_score r)
    /\ 0 <= stability_score r <= 1.
Proof.
  intros Hall Hlen. exists (stability_closed_form weekly).
  split; [apply stability_of_rates_closed_form; assumption |].
  unfold stability_closed_form.
  cbn [pattern_variance stability_score is_stable].
  split; [reflexivity |]. split; [| split; [| split]].
  - intros HM. rewrite (proj2 (Qlt_bool_iff 0 _) HM). reflexivity.
  - intros HM. rewrite (proj2 (Qlt_bool_false 0 _) HM). reflexivity.
  - rewrite Qle_bool_iff. split; intros H; exact H.
  - destruct (Qlt_bool 0 (rounded_mean weekly)); [apply clamp_unit | lra].
Qed.

Lemma stability_score_rounded_witness :
  exists r,
    stability_of_rates steady_weeks = Val r
    /\ stability_score r = 121 # 125 /\ is_stable r = true.
Proof.
  destruct (stability_score_rounded steady_weeks)
    as (r & Hrun & _ & Hscore & _ & Hstable & _).
  - unfold steady_weeks, zs. cbn [map]. weekly_averages.
  - cbn. lia.
  - exists r. split; [exact Hrun |].
    assert (Hvalue : stability_score r = 121 # 125).
    { rewrite Hscore; vm_compute; reflexivity. }
    split; [exact Hvalue |].
    apply Hstable. rewrite Hvalue. vm_compute. discriminate.
Defined.

(** ** From the stored events to the stability row *)

Lemma numeric_round_idem (s : nat) (q : Q) :
  numeric_round s (numeric_round s q) = numeric_round s q.
Proof.
  unfold numeric_round at 1 3. apply Qred_complete.
  set (z := round_half_away (q * inject_Z (Zpos (scale s)))).
  rewrite (round_half_away_comp _ (inject_Z z)); [rewrite round_half_away_Z; reflexivity |].
  unfold numeric_round. fold z. rewrite Qred_correct.
  rewrite (as_quotient z (scale s)). field.
  pose proof (scale_pos_Q s). lra.
Qed.

Lemma numeric_round_upper (s : nat) (q : Q) (k : Z) :
  q <= inject_Z k -> numeric_round s q <= inject_Z k.
Proof.
  intros Hq. unfold numeric_round. rewrite Qred_correct.
  rewrite (as_quotient _ (scale s)).
  pose proof (scale_pos_Q s) as Hm.
  apply Qle_shift_div_r; [exact Hm |].
  rewrite <- inject_Z_mult, <- Zle_Qle.
  rewrite <- (round_half_away_Z (k * Zpos (scale s))).
  (* rounding is monotone *)
  assert (Hle : q * inject_Z (Zpos (scale s)) <= inject_Z (k * Zpos (scale s))).
  { rewrite inject_Z_mult. apply Qmult_le_compat_r; [exact Hq | lra]. }
  set (a := q * inject_Z (Zpos (scale s))) in *.
  set (b := inject_Z (k * Zpos (scale s))) in *.
  unfold round_half_away.
  destruct (Qle_bool 0 a) eqn:Ha; destruct (Qle_bool 0 b) eqn:Hb.
  - apply Qfloor_resp_le. lra.
  - apply Qle_bool_iff in Ha.
    assert (Hnb : ~ 0 <= b) by (intros H; apply Qle_bool_iff in H; congruence).
    lra.
  - assert (Hna : ~ 0 <= a) by (intros H; apply Qle_bool_iff in H; congruence).
    apply Qle_bool_iff in Hb.
    assert (H1 : (0 <= Qfloor (- a + (1 # 2)))%Z).
    { change 0%Z with (Qfloor 0). apply Qfloor_resp_le. lra. }
    assert (H2 : (0 <= Qfloor (b + (1 # 2)))%Z).
    { change 0%Z with (Qfloor 0). apply Qfloor_resp_le. lra. }
    lia.
  - assert (H : (Qfloor (- b + (1 # 2)) <= Qfloor (- a + (1 # 2)))%Z)
      by (apply Qfloor_resp_le; lra).
    lia.
Qed.

Lemma zs_range (scores : list Z) :
  Forall (fun s => (0 <= s <= 100)%Z) scores ->
  Forall (fun x => 0 <= x <= 100) (zs scores).
Proof.
  induction 1 as [| s scores [Hlo Hhi] Hrest IH]; cbn [zs map]; constructor.
  - rewrite Zle_Qle in Hlo, Hhi. split; assumption.
  - exact IH.
Qed.

(** ** Rounding respects order and equality *)

Lemma round_half_away_le (a b : Q) :
  a <= b -> (round_half_away a <= round_half_away b)%Z.
Proof.
  intros Hle. unfold round_half_away.
  destruct (Qle_bool 0 a) eqn:Ha; destruct (Qle_bool 0 b) eqn:Hb.
  - apply Qfloor_resp_le. lra.
  - apply Qle_bool_iff in Ha.
    assert (Hnb : ~ 0 <= b) by (intros H; apply Qle_bool_iff in H; congruence).
    lra.
  - assert (Hna : ~ 0 <= a) by (intros H; apply Qle_bool_iff in H; congruence).
    apply Qle_bool_iff in Hb.
    assert (H1 : (0 <= Qfloor (- a + (1 # 2)))%Z).
    { change 0%Z with (Qfloor 0). apply Qfloor_resp_le. lra. }
    assert (H2 : (0 <= Qfloor (b + (1 # 2)))%Z).
    { change 0%Z with (Qfloor 0). apply Qfloor_resp_le. lra. }
    lia.
  - assert (H : (Qfloor (- b + (1 # 2)) <= Qfloor (- a + (1 # 2)))%Z)
      by (apply Qfloor_resp_le; lra).
    lia.
Qed.

Lemma numeric_round_le (s : nat) (p q : Q) :
  p <= q -> numeric_round s p <= numeric_round s q.
Proof.
  intros Hle. unfold numeric_round. rewrite !Qred_correct.
  unfold Qle. cbn [Qnum Qden].
  apply Z.mul_le_mono_nonneg_r; [lia |].
  apply round_half_away_le.
  apply Qmult_le_compat_r; [exact Hle |].
  apply Qlt_le_weak, scale_pos_Q.
Qed.

Lemma numeric_round_comp (s : nat) (p q : Q) :
  p == q -> numeric_round s p = numeric_round s q.
Proof.
  intros Heq. unfold numeric_round. apply Qred_complete.
  rewrite (round_half_away_comp (p * inject_Z (Zpos (scale s)))
             (q * inject_Z (Zpos (scale s)))); [reflexivity |].
  rewrite Heq. reflexivity.
Qed.

(** ** NUMERIC division *)

Lemma NBASE_power_pos (w : Z) : 0 < NBASE_power w.
Proof. unfold NBASE_power. apply Qpower_0_lt. reflexivity. Qed.

Lemma NBASE_power_succ (w : Z) : NBASE_power (w + 1) == 10000 * NBASE_power w.
Proof.
  unfold NBASE_power. rewrite Qpower_plus by discriminate.
  change (inject_Z 10000 ^ 1) with (inject_Z 10000).
  change (inject_Z 10000) with 10000. ring.
Qed.

Lemma NBASE_power_0 : NBASE_power 0 == 1.
Proof. reflexivity. Qed.

Lemma NBASE_power_le (a b : Z) : (a <= b)%Z -> NBASE_power a <= NBASE_power b.
Proof.
  intros Hab. replace b with (a + (b - a))%Z by lia.
  assert (Hk : (0 <= b - a)%Z) by lia. revert Hk.
  generalize (b - a)%Z. intros k Hk. revert a Hab.
  pattern k. apply natlike_ind; [| | exact Hk].
  - intros a _. rewrite Z.add_0_r. apply Qle_refl.
  - intros x Hx IH a Hab.
    replace (a + Z.succ x)%Z with ((a + x) + 1)%Z by lia.
    rewrite NBASE_power_succ. specialize (IH a ltac:(lia)).
    pose proof (NBASE_power_pos (a + x)). lra.
Qed.

Lemma weight_search_spec (fuel : nat) (w : Z) (q : Q) :
  q < NBASE_power (w + 1) ->
  NBASE_power (w - Z.of_nat fuel) <= q ->
  NBASE_power (weight_search fuel w q) <= q
  /\ q < NBASE_power (weight_search fuel w q + 1).
Proof.
  revert w. induction fuel as [| fuel IH]; intros w Hup Hlow; cbn [weight_search].
  - replace (w - Z.of_nat 0)%Z with w in Hlow by lia. split; assumption.
  - destruct (Qle_bool (NBASE_power w) q) eqn:Hle.
    + apply Qle_bool_iff in Hle. split; assumption.
    + apply IH.
      * replace (w - 1 + 1)%Z with w by lia.
        apply Qnot_le_lt. intros Hge. apply Qle_bool_iff in Hge.
        rewrite Hge in Hle. discriminate.
      * replace (w - 1 - Z.of_nat fuel)%Z with (w - Z.of_nat (S fuel))%Z by lia.
        exact Hlow.
Qed.

Lemma NBASE_power_nonneg_exponent (k : Z) :
  (0 <= k)%Z -> NBASE_power k == inject_Z (10000 ^ k).
Proof. intros Hk. unfold NBASE_power. rewrite Zpower_Qpower by exact Hk. reflexivity. Qed.

Lemma numeric_weight_spec (q : Q) :
  0 < q ->
  NBASE_power (numeric_weight q) <= q /\ q < NBASE_power (numeric_weight q + 1).
Proof.
  intros Hq. unfold numeric_weight. destruct q as [n d].
  assert (Hn : (0 < n)%Z).
  { unfold Qlt in Hq. cbn in Hq. lia. }
  cbn [Qnum Qden].
  pose proof (Z.log2_nonneg n) as Hln.
  pose proof (Z.log2_nonneg (Zpos d)) as Hld.
  destruct (Z.log2_spec n Hn) as [_ Hnup].
  destruct (Z.log2_spec (Zpos d) ltac:(lia)) as [_ Hdup].
  apply weight_search_spec.
  - rewrite NBASE_power_nonneg_exponent by lia.
    assert (Hpow : (2 ^ Z.succ (Z.log2 n) <= 10000 ^ (Z.log2 n + 1))%Z).
    { replace (Z.succ (Z.log2 n)) with (Z.log2 n + 1)%Z by lia.
      apply Z.pow_le_mono_l. lia. }
    unfold Qlt, inject_Z. cbn [Qnum Qden].
    nia.
  - rewrite Z2Nat.id by lia.
    replace (Z.log2 n - (Z.log2 n + Z.log2 (Zpos d) + 1))%Z
      with (- (Z.log2 (Zpos d) + 1))%Z by lia.
    unfold NBASE_power. rewrite Qpower_opp.
    fold (NBASE_power (Z.log2 (Zpos d) + 1)).
    assert (Hpow : (2 ^ Z.succ (Z.log2 (Zpos d))
                    <= 10000 ^ (Z.log2 (Zpos d) + 1))%Z).
    { replace (Z.succ (Z.log2 (Zpos d))) with (Z.log2 (Zpos d) + 1)%Z by lia.
      apply Z.pow_le_mono_l. lia. }
    assert (Hbig : inject_Z (Zpos d) <= NBASE_power (Z.log2 (Zpos d) + 1)).
    { rewrite NBASE_power_nonneg_exponent by lia.
      rewrite <- Zle_Qle. lia. }
    assert (Hd : 0 < inject_Z (Zpos d)) by reflexivity.
    apply Qle_shift_inv_r.
    + pose proof (NBASE_power_pos (Z.log2 (Zpos d) + 1)). assumption.
    + assert (Hone : 1 <= (n # d) * inject_Z (Zpos d)).
      { unfold Qle, Qmult, inject_Z. cbn [Qnum Qden]. nia. }
      assert (Hnd : 0 < n # d) by exact Hq.
      nra.
Qed.

Lemma leading_digit_pos (q : Q) :
  0 < Qabs q ->
  exists w fd,
    leading_digit q = (w, fd)
    /\ NBASE_power w <= Qabs q /\ Qabs q < NBASE_power (w + 1)
    /\ inject_Z fd * NBASE_power w <= Qabs q
    /\ Qabs q < (inject_Z fd + 1) * NBASE_power w.
Proof.
  intros Hq. unfold leading_digit.
  destruct (Qle_bool (Qabs q) 0) eqn:Hzero.
  { apply Qle_bool_iff in Hzero. lra. }
  destruct (numeric_weight_spec (Qabs q) Hq) as [Hlow Hup].
  set (w := numeric_weight (Qabs q)) in *.
  pose proof (NBASE_power_pos w) as Hp.
  exists w, (Qfloor (Qabs q / NBASE_power w)).
  split; [reflexivity |]. split; [exact Hlow |]. split; [exact Hup |].
  pose proof (Qfloor_le (Qabs q / NBASE_power w)) as Hfl.
  pose proof (Qlt_floor (Qabs q / NBASE_power w)) as Hfu.
  rewrite inject_Z_plus in Hfu. change (inject_Z 1) with 1 in Hfu.
  split.
  - assert (Heq : Qabs q == Qabs q / NBASE_power w * NBASE_power w)
      by (field; lra).
    rewrite Heq at 2.
    apply Qmult_le_compat_r; [exact Hfl | lra].
  - assert (Heq : Qabs q == Qabs q / NBASE_power w * NBASE_power w)
      by (field; lra).
    rewrite Heq at 1.
    apply Qmult_lt_compat_r; [exact Hp | exact Hfu].
Qed.

Lemma leading_digit_null (q : Q) : q == 0 -> leading_digit q = (0, 0)%Z.
Proof.
  intros Hq. unfold leading_digit.
  assert (Hzero : Qle_bool (Qabs q) 0 = true).
  { apply Qle_bool_iff. rewrite Hq. apply Qle_refl. }
  rewrite Hzero. reflexivity.
Qed.

(** A quotient below 10000 of a divisor that is at least 1 is kept with
    sixteen decimal places or more. *)
Lemma select_div_scale_sixteen (a b : NUMERIC) :
  1 <= numeric_value b ->
  Qabs (numeric_value a) < 10000 * numeric_value b ->
  (16 <= select_div_scale a b)%nat.
Proof.
  intros Hb Hquot. unfold select_div_scale.
  assert (Hbabs : Qabs (numeric_value b) == numeric_value b)
    by (apply Qabs_pos; lra).
  destruct (leading_digit_pos (numeric_value b) ltac:(rewrite Hbabs; lra))
    as (w2 & fd2 & -> & Hlow2 & Hup2 & Hfl2 & Hfu2).
  rewrite Hbabs in Hlow2, Hup2, Hfl2, Hfu2.
  pose proof (NBASE_power_pos w2) as Hp2.
  assert (Hw2 : (0 <= w2)%Z).
  { destruct (Z.le_gt_cases 0 w2) as [H | H]; [exact H | exfalso].
    pose proof (NBASE_power_le (w2 + 1) 0 ltac:(lia)) as Hle.
    rewrite NBASE_power_0 in Hle. lra. }
  assert (Hfd2 : (0 <= fd2)%Z).
  { destruct (Z.le_gt_cases 0 fd2) as [H | H]; [exact H | exfalso].
    assert (Hneg : inject_Z fd2 + 1 <= 0).
    { replace 1 with (inject_Z 1) by reflexivity. rewrite <- inject_Z_plus.
      change 0 with (inject_Z 0). rewrite <- Zle_Qle. lia. }
    pose proof (Qmult_le_compat_r _ _ (NBASE_power w2) Hneg
                  (Qlt_le_weak _ _ Hp2)) as Hprod.
    lra. }
  assert (Hgoal : forall qweight : Z,
            (qweight <= 0)%Z ->
            (16 <= Z.to_nat
                     (Z.min 1000
                        (Z.max (Z.max (Z.max (16 - qweight * 4)
                                         (Z.of_nat (dscale a)))
                                  (Z.of_nat (dscale b))) 0)))%nat) by lia.
  destruct (Qlt_le_dec 0 (Qabs (numeric_value a))) as [Ha | Ha].
  - destruct (leading_digit_pos (numeric_value a) Ha)
      as (w1 & fd1 & -> & Hlow1 & Hup1 & Hfl1 & Hfu1).
    pose proof (NBASE_power_pos w1) as Hp1.
    destruct (Z.leb_spec fd1 fd2) as [Hfd | Hfd]; apply Hgoal.
    + (* w1 - w2 - 1 <= 0 *)
      destruct (Z.le_gt_cases w1 (w2 + 1)) as [H | H]; [lia | exfalso].
      pose proof (NBASE_power_le (w2 + 2) w1 ltac:(lia)) as Hle.
      replace (w2 + 2)%Z with (w2 + 1 + 1)%Z in Hle by lia.
      rewrite NBASE_power_succ in Hle. lra.
    + destruct (Z.le_gt_cases w1 w2) as [H | H]; [lia | exfalso].
      pose proof (NBASE_power_le (w2 + 1) w1 ltac:(lia)) as Hle.
      rewrite NBASE_power_succ in Hle.
      assert (Hfd' : inject_Z fd2 + 1 <= inject_Z fd1).
      { replace 1 with (inject_Z 1) by reflexivity. rewrite <- inject_Z_plus.
        rewrite <- Zle_Qle. lia. }
      assert (Hone : 0 <= inject_Z fd2 + 1).
      { change 0 with (inject_Z 0) at 1.
        replace 1 with (inject_Z 1) by reflexivity. rewrite <- inject_Z_plus.
        rewrite <- Zle_Qle. lia. }
      assert (Hstep1 : (inject_Z fd2 + 1) * NBASE_power w1
                       <= inject_Z fd1 * NBASE_power w1)
        by (apply Qmult_le_compat_r; lra).
      assert (Hstep2 : (inject_Z fd2 + 1) * (10000 * NBASE_power w2)
                       <= (inject_Z fd2 + 1) * NBASE_power w1).
      { rewrite (Qmult_comm _ (10000 * NBASE_power w2)).
        rewrite (Qmult_comm _ (NBASE_power w1)).
        apply Qmult_le_compat_r; lra. }
      assert (Heq : (inject_Z fd2 + 1) * (10000 * NBASE_power w2)
                    == 10000 * ((inject_Z fd2 + 1) * NBASE_power w2)) by ring.
      lra.
  - assert (Hnull : numeric_value a == 0).
    { pose proof (Qabs_nonneg (numeric_value a)) as Hnn.
      destruct (Qabs_Qle_condition (numeric_value a) 0) as [Hcond _].
      specialize (Hcond Ha). lra. }
    rewrite (leading_digit_null _ Hnull).
    destruct (Z.leb_spec 0 fd2) as [_ | Hneg]; [| lia].
    apply Hgoal. lia.
Qed.

Lemma scale_le (s t : nat) :
  (s <= t)%nat -> inject_Z (Zpos (scale s)) <= inject_Z (Zpos (scale t)).
Proof.
  intros Hst. rewrite <- Zle_Qle. unfold scale.
  rewrite !Z2Pos.id by (apply Z.pow_pos_nonneg; lia).
  apply Z.pow_le_mono_r; lia.
Qed.

(** A quotient kept with sixteen places or more is within half a unit of
    the sixteenth place of the exact one. *)
Lemma numeric_div_error (a b : NUMERIC) :
  (16 <= select_div_scale a b)%nat ->
  Qabs (numeric_value (numeric_div a b) - numeric_value a / numeric_value b)
  <= 1 # 20000000000000000.
Proof.
  intros Hscale. unfold numeric_div. cbn [numeric_value].
  set (rscale := select_div_scale a b) in *.
  set (q := numeric_value a / numeric_value b).
  destruct (numeric_round_error rscale q) as [Hlo Hhi].
  pose proof (scale_le 16 rscale Hscale) as Hle.
  change (inject_Z (Zpos (scale 16))) with 10000000000000000 in Hle.
  pose proof (scale_pos_Q rscale) as Hpos.
  assert (Hhalf : 1 / (2 * inject_Z (Zpos (scale rscale)))
                  <= 1 # 20000000000000000).
  { apply Qle_shift_div_r; lra. }
  apply Qabs_case; intros _; lra.
Qed.

Lemma Zsum_Qsum (l : list Z) : inject_Z (fold_right Z.add 0%Z l) == Qsum (zs l).
Proof.
  induction l as [| x l IH]; cbn [fold_right zs map Qsum].
  - reflexivity.
  - rewrite inject_Z_plus, IH. reflexivity.
Qed.

Lemma AVG_integer_quotient (l : list Z) :
  exists rscale, AVG_integer l = numeric_round rscale (sql_avg (zs l)).
Proof.
  unfold AVG_integer, numeric_div. cbn [numeric_value].
  eexists. apply numeric_round_comp. unfold sql_avg, numeric_of_integer.
  cbn [numeric_value]. rewrite Zsum_Qsum. unfold zs. rewrite List.length_map.
  reflexivity.
Qed.

Lemma numeric_round_integer (s : nat) (k : Z) :
  numeric_round s (inject_Z k) == inject_Z k.
Proof.
  unfold numeric_round. rewrite Qred_correct.
  rewrite (round_half_away_comp _ (inject_Z (k * Zpos (scale s))))
    by (rewrite inject_Z_mult; reflexivity).
  rewrite round_half_away_Z.
  rewrite (as_quotient (k * Zpos (scale s)) (scale s)).
  rewrite inject_Z_mult. field.
  pose proof (scale_pos_Q s). lra.
Qed.

Lemma numeric_round_lower (s : nat) (q : Q) (k : Z) :
  inject_Z k <= q -> inject_Z k <= numeric_round s q.
Proof.
  intros Hq. rewrite <- (numeric_round_integer s k).
  apply numeric_round_le. exact Hq.
Qed.

Lemma AVG_integer_bounds (l : list Z) (lo hi : Z) :
  l <> [] -> Forall (fun s => (lo <= s <= hi)%Z) l ->
  inject_Z lo <= AVG_integer l <= inject_Z hi.
Proof.
  intros Hne Hall.
  destruct (AVG_integer_quotient l) as [rscale ->].
  assert (Hne' : zs l <> []) by (destruct l; [contradiction | discriminate]).
  assert (Hrange : Forall (fun x => inject_Z lo <= x <= inject_Z hi) (zs l)).
  { apply List.Forall_forall. intros x Hx.
    apply in_map_iff in Hx as [s [<- Hs]].
    rewrite List.Forall_forall in Hall. specialize (Hall s Hs).
    rewrite <- !Zle_Qle. exact Hall. }
  pose proof (sql_avg_bounds _ _ _ Hne' Hrange) as [H1 H2].
  split.
  - apply numeric_round_lower. exact H1.
  - apply numeric_round_upper. exact H2.
Qed.

(** On scores between 0 and 100 the NUMERIC average is within half a unit
    of the sixteenth place of the exact mean. *)
Lemma AVG_integer_error (l : list Z) :
  l <> [] -> Forall (fun s => (0 <= s <= 100)%Z) l ->
  Qabs (AVG_integer l - sql_avg (zs l)) <= 1 # 20000000000000000.
Proof.
  intros Hne Hall. unfold AVG_integer.
  set (a := numeric_of_integer (fold_right Z.add 0%Z l)).
  set (b := numeric_of_integer (Z.of_nat (length l))).
  assert (Hne' : zs l <> []) by (destruct l; [contradiction | discriminate]).
  pose proof (length_pos_Q (zs l) Hne') as Hn.
  unfold zs in Hn. rewrite List.length_map in Hn.
  assert (Hb : numeric_value b = inject_Z (Z.of_nat (length l))) by reflexivity.
  assert (Ha : numeric_value a == Qsum (zs l)) by apply Zsum_Qsum.
  destruct (Qsum_bounds (zs l) 0 100 (zs_range l Hall)) as [Hlo Hhi].
  unfold zs in Hlo, Hhi. rewrite List.length_map in Hlo, Hhi.
  fold (zs l) in Hlo, Hhi.
  assert (Hone : 1 <= numeric_value b).
  { rewrite Hb. change 1 with (inject_Z 1). rewrite <- Zle_Qle.
    destruct l; [contradiction | cbn [length]; lia]. }
  assert (Hscale : (16 <= select_div_scale a b)%nat).
  { apply select_div_scale_sixteen; [exact Hone |].
    rewrite Ha, Hb. rewrite Qabs_pos by lra. lra. }
  pose proof (numeric_div_error a b Hscale) as Herr.
  assert (Hmean : numeric_value a / numeric_value b == sql_avg (zs l)).
  { unfold sql_avg. rewrite Ha, Hb.
    replace (length (zs l)) with (length l)
      by (unfold zs; rewrite List.length_map; reflexivity).
    reflexivity. }
  rewrite Hmean in Herr. exact Herr.
Qed.

(** ** The weekly averages *)

(** C8, as stated, fails: the cut-off is the start of today less eight
    weeks, not now less eight weeks, and there is no upper end.  In the
    afternoon of day 60 two events of the morning of day 4 are returned
    although they are older than eight weeks, and so are two events
    stamped far in the future. *)
Lemma events_outside_last_8_weeks_counted :
  fst (weeklyAverages afternoon_of_day_60 "tone" None early_events_db)
  = [(345600%Z, 50)]
  /\ forallb (spec_in_last_8_weeks afternoon_of_day_60)
       (edit_analyses early_events_db) = false
  /\ length
       (fst (weeklyAverages afternoon_of_day_60 "tone" None future_events_db))
     = 1%nat
  /\ forallb (spec_in_last_8_weeks afternoon_of_day_60)
       (edit_analyses future_events_db) = false.
Proof. repeat split; vm_compute; reflexivity. Qed.

(** C8, amended: the aggregation returns exactly the weeks, Monday 00:00
    to Monday 00:00, that hold at least two events of the pattern (and
    user) stamped at or after the start of today less eight weeks, later
    events included, each with the NUMERIC average of the scores of those
    events (within half a unit of the sixteenth decimal place of their
    mean when the scores lie between 0 and 100), in ascending order of
    week start and no week twice; with no such week the result is empty;
    the database is returned as it was. *)
Theorem weeklyAverages_buckets (now : Z) (pattern_value_param : string)
    (user_id_param : option string) (d : db) :
  let weekly := fst (weeklyAverages now pattern_value_param user_id_param d) in
  let events :=
    fun w => qualifying_events now pattern_value_param user_id_param w d in
  snd (weeklyAverages now pattern_value_param user_id_param d) = d
  /\ StronglySorted Z.lt (map fst weekly)
  /\ (forall w avg,
        In (w, avg) weekly <->
        starts_a_week w = true
        /\ (2 <= length (events w))%nat
        /\ avg = AVG_integer (map success_score (events w)))
  /\ ((forall w, starts_a_week w = true -> (length (events w) < 2)%nat) ->
      weekly = [])
  /\ (scores_in_range d ->
      forall w avg,
        In (w, avg) weekly ->
        Qabs (avg - sql_avg (zs (map success_score (events w))))
        <= 1 # 20000000000000000).
Proof.
  cbv zeta. unfold weeklyAverages. cbn [fst snd]. split; [reflexivity |].
  split.
  { unfold weekly_query. rewrite List.map_map. cbn [fst].
    apply filter_keys_sorted. apply group_by_week_sorted. }
  assert (Hmember : forall w avg,
    In (w, avg)
      (weekly_query now pattern_value_param user_id_param (edit_analyses d))
    <-> starts_a_week w = true
        /\ (2 <= length (qualifying_events now pattern_value_param
                           user_id_param w d))%nat
        /\ avg = AVG_integer
                   (map success_score
                      (qualifying_events now pattern_value_param
                         user_id_param w d))).
  { intros w avg. rewrite weekly_query_member. split.
    - intros [Hcount Havg].
      assert (Hw : starts_a_week w = true).
      { apply (week_bucket_starts_a_week now pattern_value_param
                 user_id_param w d).
        intros Hnil. rewrite Hnil in Hcount. cbn in Hcount. lia. }
      rewrite (week_bucket_qualifying _ _ _ _ _ Hw) in Hcount, Havg.
      split; [exact Hw |]. split; assumption.
    - intros (Hw & Hcount & Havg).
      rewrite (week_bucket_qualifying _ _ _ _ _ Hw). split; assumption. }
  split; [exact Hmember |].
  split.
  { intros Hnone.
    destruct (weekly_query now pattern_value_param user_id_param
                (edit_analyses d)) as [| [w avg] rest] eqn:Hq; [reflexivity |].
    exfalso.
    assert (Hin : In (w, avg) ((w, avg) :: rest)) by (left; reflexivity).
    apply Hmember in Hin as (Hw & Hcount & _).
    specialize (Hnone w Hw). lia. }
  intros Hrange w avg Hin.
  apply Hmember in Hin as (_ & Hcount & ->).
  apply AVG_integer_error.
  - intros Hnil. apply (f_equal (@length Z)) in Hnil.
    rewrite List.length_map in Hnil. cbn [length] in Hnil. lia.
  - apply List.Forall_forall. intros score Hscore.
    apply in_map_iff in Hscore as [ea [<- Hea]].
    unfold qualifying_events in Hea. apply List.filter_In in Hea as [Hea _].
    unfold scores_in_range in Hrange. rewrite List.Forall_forall in Hrange.
    apply Hrange. exact Hea.
Qed.

Lemma weeklyAverages_buckets_witness :
  In (345600%Z, 50)
    (fst (weeklyAverages afternoon_of_day_60 "tone" None early_events_db)).
Proof.
  destruct (weeklyAverages_buckets afternoon_of_day_60 "tone" None
              early_events_db) as (_ & _ & Hmember & _).
  apply Hmember. split; [reflexivity |].
  split; [vm_compute; lia | vm_compute; reflexivity].
Defined.

(** What the aggregation loop appends for one week. *)
Lemma week_average_cast (scores : list Z) :
  scores <> [] -> Forall (fun s => (0 <= s <= 100)%Z) scores ->
  cast_decimal 5 2 (AVG_integer scores)
  = Val (numeric_round 2 (AVG_integer scores))
  /\ weekly_average (numeric_round 2 (AVG_integer scores)).
Proof.
  intros Hne Hall.
  pose proof (AVG_integer_bounds scores 0 100 Hne Hall) as [Hlo Hhi].
  change (inject_Z 0) with 0 in Hlo. change (inject_Z 100) with 100 in Hhi.
  split.
  - apply (cast_decimal_between 5 2 _ 0 100);
      [vm_compute; reflexivity | vm_compute; reflexivity | split; assumption].
  - split; [symmetry; apply numeric_round_idem |]. split.
    + apply numeric_round_nonneg. exact Hlo.
    + apply (numeric_round_upper 2 _ 100). exact Hhi.
Qed.

(** The weeks of the window. *)
Lemma DATE_TRUNC_week_index (t : Z) :
  DATE_TRUNC_week t
  = (seconds_per_week * ((t + 3 * seconds_per_day) / seconds_per_week)
     - 3 * seconds_per_day)%Z.
Proof.
  unfold DATE_TRUNC_week, seconds_per_week, seconds_per_day.
  pose proof (Z.div_mod (t + 3 * 86400) 604800 ltac:(lia)). lia.
Qed.

(** Ascending keys on a grid of step [g], between the grid points [lo] and
    [hi]: there are at most [hi - lo + 1] of them. *)
Lemma ascending_in_interval (g c : Z) (keys : list Z) (lo hi : Z) :
  (0 < g)%Z ->
  StronglySorted Z.lt keys ->
  Forall (fun w => exists k, w = (g * k - c)%Z /\ (lo <= k <= hi)%Z) keys ->
  (Z.of_nat (length keys) <= Z.max 0 (hi - lo + 1))%Z.
Proof.
  intros Hg Hsorted. revert lo.
  induction Hsorted as [| w keys Hrest IH Hbelow]; intros lo Hall.
  - cbn. lia.
  - inversion Hall as [| ? ? (k & Hw & Hk) Hall']; subst.
    assert (Hnext : Forall (fun w' => exists k', w' = (g * k' - c)%Z
                                       /\ (k + 1 <= k' <= hi)%Z) keys).
    { rewrite List.Forall_forall in Hall', Hbelow |- *. intros w' Hin.
      destruct (Hall' w' Hin) as (k' & -> & Hk').
      specialize (Hbelow _ Hin). exists k'. split; [reflexivity |]. nia. }
    specialize (IH (k + 1)%Z Hnext). cbn [length]. lia.
Qed.

Section ApplicationDatabase.

Variables (now : Z) (pattern_value_param : string)
  (user_id_param : option string) (d : db).

Hypothesis scores_ok : scores_in_range d.
Hypothesis stamps_ok : none_in_future now d.

Lemma bucket_scores_range (w : Z) :
  Forall (fun s => (0 <= s <= 100)%Z)
    (map success_score (week_bucket now pattern_value_param user_id_param w d)).
Proof using scores_ok.
  apply List.Forall_forall. intros s Hs.
  apply in_map_iff in Hs as [ea [<- Hea]].
  apply week_bucket_member in Hea as [Hin _].
  pose proof scores_ok as Hrange.
  unfold scores_in_range in Hrange. rewrite List.Forall_forall in Hrange.
  apply Hrange. exact Hin.
Qed.

Lemma weekly_rates_cast :
  let averages :=
    map snd (weekly_query now pattern_value_param user_id_param
               (edit_analyses d)) in
  sql_map (cast_decimal 5 2) averages = Val (map (numeric_round 2) averages)
  /\ Forall weekly_average (map (numeric_round 2) averages).
Proof using scores_ok.
  cbv zeta.
  assert (Hall : Forall
            (fun avg =>
               cast_decimal 5 2 avg = Val (numeric_round 2 avg)
               /\ weekly_average (numeric_round 2 avg))
            (map snd (weekly_query now pattern_value_param user_id_param
                        (edit_analyses d)))).
  { apply List.Forall_forall. intros avg Havg.
    apply in_map_iff in Havg as [[w avg'] [Heq Hin]]. cbn in Heq. subst avg'.
    apply weekly_query_member in Hin as [Hcount ->].
    apply week_average_cast.
    - intros Hnil. apply (f_equal (@length Z)) in Hnil.
      rewrite List.length_map in Hnil. cbn in Hnil. lia.
    - apply bucket_scores_range. }
  induction Hall as [| avg rest [Hcast Hweekly] Hrest [IH1 IH2]];
    cbn [sql_map map].
  - split; [reflexivity | constructor].
  - rewrite Hcast. cbn [sql_bind]. rewrite IH1. cbn [sql_bind].
    split; [reflexivity | constructor; assumption].
Qed.

(** The window reaches back eight weeks from today, so it meets at most
    ten calendar weeks. *)
Lemma weekly_query_length :
  (length (weekly_query now pattern_value_param user_id_param
             (edit_analyses d)) <= 10)%nat.
Proof using stamps_ok.
  set (weekly := weekly_query now pattern_value_param user_id_param
                   (edit_analyses d)).
  pose (top := ((now + 3 * seconds_per_day) / seconds_per_week)%Z).
  assert (Hkeys : Forall (fun w => exists k,
                            w = (seconds_per_week * k - 3 * seconds_per_day)%Z
                            /\ (top - 9 <= k <= top)%Z) (map fst weekly)).
  { apply List.Forall_forall. intros w Hw.
    apply in_map_iff in Hw as [[w' avg] [Heq Hin]]. cbn in Heq. subst w'.
    apply weekly_query_member in Hin as [Hcount _].
    destruct (week_bucket now pattern_value_param user_id_param w d)
      as [| ea rest] eqn:Hbucket; [cbn in Hcount; lia |].
    assert (Hea : In ea (week_bucket now pattern_value_param user_id_param w d))
      by (rewrite Hbucket; left; reflexivity).
    apply week_bucket_member in Hea as (Hin & _ & Hcut & Hweek).
    pose proof stamps_ok as Hpast.
    unfold none_in_future in Hpast. rewrite List.Forall_forall in Hpast.
    specialize (Hpast ea Hin). cbv beta in Hpast.
    exists ((created_at ea + 3 * seconds_per_day) / seconds_per_week)%Z.
    split; [rewrite <- Hweek; apply DATE_TRUNC_week_index |].
    unfold top, CURRENT_DATE, seconds_per_week, seconds_per_day in *.
    pose proof (Z.mod_pos_bound now 86400 ltac:(lia)) as Hday.
    split.
    - apply Z.div_le_lower_bound; [lia |].
      pose proof (Z.mul_div_le (now + 3 * 86400) 604800 ltac:(lia)). lia.
    - apply Z.div_le_mono; lia. }
  pose proof (ascending_in_interval seconds_per_week (3 * seconds_per_day)
                (map fst weekly) (top - 9) top ltac:(reflexivity)) as Hlen.
  rewrite List.length_map in Hlen.
  assert (Hsorted : StronglySorted Z.lt (map fst weekly)).
  { unfold weekly, weekly_query. rewrite List.map_map. cbn [fst].
    apply filter_keys_sorted. apply group_by_week_sorted. }
  specialize (Hlen Hsorted Hkeys). lia.
Qed.

(** On events scored between 0 and 100 and none dated in the future the
    stability function always returns a row. *)
Lemma calculate_pattern_stability_returns (pattern_type_param : string) :
  exists r,
    calculate_pattern_stability now pattern_type_param pattern_value_param
      user_id_param d = Val r
    /\ weekly_rates r
       = map (numeric_round 2)
           (map snd (fst (weeklyAverages now pattern_value_param
                            user_id_param d))).
Proof using scores_ok stamps_ok.
  unfold calculate_pattern_stability, weeklyAverages. cbn [fst].
  destruct weekly_rates_cast as [Hcast Hweekly].
  rewrite Hcast. cbn [sql_bind].
  set (rates := map (numeric_round 2)
                  (map snd (weekly_query now pattern_value_param user_id_param
                              (edit_analyses d)))) in *.
  assert (Hlen : (length rates <= 10)%nat).
  { unfold rates. rewrite !List.length_map. apply weekly_query_length. }
  destruct (Nat.lt_ge_cases (length rates) 3) as [Hshort | Hlong].
  - rewrite (stability_of_rates_short rates Hshort).
    eexists. split; reflexivity.
  - rewrite (stability_of_rates_closed_form rates Hweekly) by lia.
    eexists. split; reflexivity.
Qed.

End ApplicationDatabase.

(** The declining series, recorded event by event: the threshold is met,
    drift is detected, and the view reports the pattern as unstable. *)
Lemma declining_pattern_end_to_end :
  record_all declining_events empty_db = Val declining_db
  /\ option_map
       (fun li =>
          (weekly_success_rates li, frequency li, confidence li,
           time_span_days li, threshold_met li, stability_validated li,
           pattern_drift_detected li, validationStatus li))
       (learning_insights declining_db !! ("edit_type", "tone"%string))
     = Some (declining_weeks, 14%Z, 76%Z, 43%Z, true, false, true,
             THRESHOLD_MET_BUT_UNSTABLE).
Proof. split; vm_compute; reflexivity. Qed.

(** The repository's two reference series: the steady one scores higher
    and is stable, the erratic one is not. *)
Lemma steady_above_erratic :
  exists steady erratic,
    stability_of_rates steady_weeks = Val steady
    /\ stability_of_rates erratic_weeks = Val erratic
    /\ stability_score erratic < stability_score steady
    /\ is_stable steady = true /\ is_stable erratic = false.
Proof.
  eexists. eexists. split; [vm_compute; reflexivity |].
  split; [vm_compute; reflexivity |].
  split; [vm_compute; reflexivity |]. split; reflexivity.
Qed.

(** With the database in reach the event is stored and its pattern gets its
    first learning_insights row. *)
Lemma analyzeEdit_records_when_reachable :
  option_map
    (fun li => (frequency li, sample_size li, confidence li, success_rate li))
    (learning_insights
       (database
          (snd (analyzeEdit fixed_ai "r1" (ascii_units "thanks a lot")
                  (ascii_units "thanks") None reachable_world)))
       !! ("edit_type", "tone"%string))
  = Some (1%Z, 1%Z, 50%Z, numeric_of_integer 25)
  /\ length
       (edit_analyses
          (database
             (snd (analyzeEdit fixed_ai "r1" (ascii_units "thanks a lot")
                     (ascii_units "thanks") None reachable_world)))) = 1%nat.
Proof. split; vm_compute; reflexivity. Qed.

(** * Further properties of the recording path *)

Local Open Scope Z_scope.

(* LEMMAS *)
(** ** What the trigger keeps true of every row *)

Lemma maintained_shape (li : learning_insights_row) :
  maintained li ->
  1 <= frequency li
  /\ confidence li = Z.min 90 (48 + 2 * frequency li)
  /\ 1 <= time_span_days li
  /\ threshold_met li
     = thresholdMet (sample_size li) (confidence li) (time_span_days li)
  /\ sample_size li = frequency li
  /\ pattern_type li = "edit_type"%string.
Proof.
  induction 1 as [now NEW st | now NEW li st Hli IH]; cbn.
  - repeat split; lia.
  - destruct IH as (Hf & Hc & Ht & Hthr & Hs & Hp).
    repeat split; try lia. exact Hp.
Qed.

Lemma recorded_rows_maintained (d : db) :
  recorded d ->
  forall key li,
    learning_insights d !! key = Some li ->
    maintained li /\ pattern_value li = snd key.
Proof.
  induction 1 as [| d d' now NEW Hd IH Hins]; intros key li Hlook.
  - cbn in Hlook. rewrite lookup_empty in Hlook. discriminate.
  - apply insert_edit_analysis_Val in Hins as [st ->].
    cbn [learning_insights] in Hlook.
    destruct (decide (key = ("edit_type"%string, edit_type NEW))) as [-> | Hne].
    + rewrite lookup_insert_eq in Hlook. injection Hlook as <-.
      destruct (learning_insights d !! ("edit_type"%string, edit_type NEW))
        as [old |] eqn:Hold.
      * destruct (IH _ _ Hold) as [Hm Hv]. split.
        -- apply maintained_update. exact Hm.
        -- cbn. exact Hv.
      * split; [apply maintained_insert | reflexivity].
    + rewrite lookup_insert_ne in Hlook by congruence. apply IH. exact Hlook.
Qed.

(** X1: in a database the recording path has produced, every
    learning_insights row has confidence min(90, 48 + 2 * frequency) and a
    time span of at least one day, so its threshold_met flag is set exactly
    when the pattern has been seen nine times or more over three days or
    more: the five-sample minimum is never the binding condition. *)
Theorem threshold_needs_nine_events (d : db) :
  recorded d ->
  forall key li,
    learning_insights d !! key = Some li ->
    confidence li = Z.min 90 (48 + 2 * frequency li)
    /\ 1 <= time_span_days li
    /\ (threshold_met li = true <-> 9 <= frequency li /\ 3 <= time_span_days li).
Proof.
  intros Hd key li Hlook.
  destruct (recorded_rows_maintained d Hd key li Hlook) as [Hm _].
  destruct (maintained_shape li Hm) as (Hf & Hc & Ht & Hthr & Hs & _).
  split; [exact Hc |]. split; [exact Ht |].
  rewrite Hthr, Hs. unfold thresholdMet.
  rewrite !andb_true_iff, !Z.leb_le. lia.
Qed.

Lemma pattern_scores_append (pattern : string) (d : db) (NEW : edit_analyses_row)
    (table : gmap (string * string) learning_insights_row) :
  pattern_scores pattern
    {| edit_analyses := edit_analyses d ++ [NEW]; learning_insights := table |}
  = pattern_scores pattern d
    ++ (if String.eqb (edit_type NEW) pattern then [success_score NEW] else []).
Proof.
  unfold pattern_scores. cbn [edit_analyses].
  rewrite List.filter_app, List.map_app. cbn [List.filter].
  destruct (String.eqb (edit_type NEW) pattern); reflexivity.
Qed.

Lemma events_of_pattern_scores (pattern : string) (d : db) :
  events_of pattern d = Z.of_nat (length (pattern_scores pattern d)).
Proof. unfold events_of, pattern_scores. rewrite List.length_map. reflexivity. Qed.

Lemma Qsum_zs_snoc (l : list Z) (s : Z) :
  (Qsum (zs (l ++ [s])) == Qsum (zs l) + inject_Z s)%Q.
Proof.
  induction l as [| a l IH]; cbn [app zs map Qsum fold_right].
  - ring.
  - unfold zs, Qsum in IH. rewrite IH. ring.
Qed.

Lemma running_average_step (rate : Q) (l : list Z) (s : Z) :
  l <> [] ->
  (rate == sql_avg (zs l))%Q ->
  ((rate * inject_Z (Z.of_nat (length l)) + inject_Z s)
   / inject_Z (Z.of_nat (length l) + 1)
   == sql_avg (zs (l ++ [s])))%Q.
Proof.
  intros Hne Hrate. unfold sql_avg in *.
  assert (Hlen : zs (l ++ [s]) = zs l ++ [inject_Z s])
    by (unfold zs; rewrite List.map_app; reflexivity).
  unfold zs at 2. rewrite List.length_map, List.length_app. cbn [length].
  rewrite Qsum_zs_snoc, Hrate. unfold zs at 2. rewrite List.length_map.
  replace (Z.of_nat (length l + 1)) with (Z.of_nat (length l) + 1) by lia.
  assert (Hn : (0 < inject_Z (Z.of_nat (length l)))%Q).
  { change 0%Q with (inject_Z 0). rewrite <- Zlt_Qlt.
    destruct l; [contradiction | cbn [length]; lia]. }
  rewrite inject_Z_plus. change (inject_Z 1) with 1%Q.
  field. split; lra.
Qed.

Lemma recorded_rates_agree (d : db) : recorded d -> rates_agree d.
Proof.
  induction 1 as [| d d' now NEW Hd IH Hins]; intros pattern li Hlook.
  - cbn in Hlook. rewrite lookup_empty in Hlook. discriminate.
  - pose proof (recorded_counts_agree d Hd) as [_ Hcount].
    apply insert_edit_analysis_Val in Hins as [st ->].
    cbn [learning_insights] in Hlook. rewrite pattern_scores_append.
    destruct (String.eqb_spec (edit_type NEW) pattern) as [<- | Hne].
    + rewrite lookup_insert_eq in Hlook. injection Hlook as <-.
      specialize (Hcount (edit_type NEW)).
      destruct (learning_insights d !! ("edit_type"%string, edit_type NEW))
        as [old |] eqn:Hold.
      * destruct (IH _ _ Hold) as (Hne & Hrec).
        split; [destruct (pattern_scores (edit_type NEW) d); discriminate |].
        cbn [upsert_row recommendation]. rewrite Hrec.
        destruct (pattern_scores (edit_type NEW) d);
          [contradiction | reflexivity].
      * rewrite events_of_pattern_scores in Hcount.
        assert (Hnil : pattern_scores (edit_type NEW) d = [])
          by (destruct (pattern_scores (edit_type NEW) d);
              [reflexivity | cbn [length] in Hcount; lia]).
        rewrite Hnil. cbn [app upsert_row recommendation hd].
        split; [discriminate | reflexivity].
    + rewrite lookup_insert_ne in Hlook by congruence.
      rewrite List.app_nil_r. apply IH. exact Hlook.
Qed.

Lemma Qabs_scaled (x c : Q) : (0 <= c <= 1)%Q -> (Qabs (x * c) <= Qabs x)%Q.
Proof.
  intros [Hc0 Hc1]. rewrite Qabs_Qmult.
  rewrite (Qabs_pos c) by exact Hc0.
  pose proof (Qabs_nonneg x) as Hx.
  assert (Hle : (Qabs x * c <= Qabs x * 1)%Q).
  { rewrite !(Qmult_comm (Qabs x)). apply Qmult_le_compat_r; assumption. }
  rewrite Qmult_1_r in Hle. exact Hle.
Qed.

(** One update of the stored rate: the quotient is taken to sixteen places
    or more, so the distance to the mean grows by at most half a unit of
    the sixteenth place. *)
Lemma running_rate_step (rate : NUMERIC) (l : list Z) (s : Z) (bound : Q) :
  l <> [] -> (0 <= s <= 100)%Z ->
  (0 <= numeric_value rate <= 100)%Q ->
  (Qabs (numeric_value rate - sql_avg (zs l)) <= bound)%Q ->
  let new :=
    numeric_div
      (numeric_add
         (numeric_mul rate (numeric_of_integer (Z.of_nat (length l))))
         (numeric_of_integer s))
      (numeric_of_integer (Z.of_nat (length l) + 1)) in
  (0 <= numeric_value new <= 100)%Q
  /\ (Qabs (numeric_value new - sql_avg (zs (l ++ [s])))
      <= bound + half_unit_16)%Q.
Proof.
  intros Hne [Hs0 Hs100] [Hr0 Hr100] Hdist. cbv zeta.
  set (n := Z.of_nat (length l)).
  assert (Hn : (1 <= n)%Z)
    by (unfold n; destruct l; [contradiction | cbn [length]; lia]).
  set (a := numeric_add (numeric_mul rate (numeric_of_integer n))
              (numeric_of_integer s)).
  set (b := numeric_of_integer (n + 1)).
  assert (Ha : numeric_value a
               = (numeric_value rate * inject_Z n + inject_Z s)%Q)
    by reflexivity.
  assert (Hb : numeric_value b = inject_Z (n + 1)) by reflexivity.
  assert (HF : (1 <= inject_Z n)%Q)
    by (change 1%Q with (inject_Z 1); rewrite <- Zle_Qle; exact Hn).
  assert (Hsq0 : (0 <= inject_Z s)%Q)
    by (change 0%Q with (inject_Z 0); rewrite <- Zle_Qle; exact Hs0).
  assert (Hsq100 : (inject_Z s <= 100)%Q)
    by (change 100%Q with (inject_Z 100); rewrite <- Zle_Qle; exact Hs100).
  assert (Hb1 : (inject_Z (n + 1) == inject_Z n + 1)%Q)
    by (rewrite inject_Z_plus; reflexivity).
  assert (Hprod0 : (0 <= numeric_value rate * inject_Z n)%Q)
    by (apply Qmult_le_0_compat; lra).
  assert (Hprod100 : (numeric_value rate * inject_Z n <= 100 * inject_Z n)%Q)
    by (apply Qmult_le_compat_r; lra).
  assert (Hexact : (0 <= numeric_value a / numeric_value b <= 100)%Q).
  { rewrite Ha, Hb, Hb1. split.
    - apply Qle_shift_div_l; lra.
    - apply Qle_shift_div_r; lra. }
  assert (Hscale : (16 <= select_div_scale a b)%nat).
  { apply select_div_scale_sixteen.
    - rewrite Hb, Hb1. lra.
    - rewrite Ha, Hb, Hb1. rewrite Qabs_pos by lra. lra. }
  pose proof (numeric_div_error a b Hscale) as Herr.
  fold half_unit_16 in Herr.
  split.
  - unfold numeric_div. cbn [numeric_value]. split.
    + apply numeric_round_nonneg. apply Hexact.
    + apply (numeric_round_upper _ _ 100). apply Hexact.
  - pose proof (running_average_step (sql_avg (zs l)) l s Hne
                  (Qeq_refl _)) as Hmean.
    fold n in Hmean.
    assert (Hshift :
      (numeric_value a / numeric_value b - sql_avg (zs (l ++ [s]))
       == (numeric_value rate - sql_avg (zs l))
          * (inject_Z n / inject_Z (n + 1)))%Q).
    { rewrite <- Hmean, Ha, Hb. field. rewrite Hb1. lra. }
    assert (Hfrac : (0 <= inject_Z n / inject_Z (n + 1) <= 1)%Q).
    { rewrite Hb1. split.
      - apply Qle_shift_div_l; lra.
      - apply Qle_shift_div_r; lra. }
    pose proof (Qabs_scaled (numeric_value rate - sql_avg (zs l)) _ Hfrac)
      as Hshrink.
    rewrite <- Hshift in Hshrink.
    assert (Hsplit :
      (numeric_value (numeric_div a b) - sql_avg (zs (l ++ [s]))
       == (numeric_value (numeric_div a b)
           - numeric_value a / numeric_value b)
          + (numeric_value a / numeric_value b
             - sql_avg (zs (l ++ [s]))))%Q) by ring.
    rewrite Hsplit.
    eapply Qle_trans; [apply Qabs_triangle |]. lra.
Qed.

(** ** The running success rate *)

Lemma Qabs_quotient (a b : Q) : (0 < b)%Q -> (Qabs a == Qabs (a / b) * b)%Q.
Proof.
  intros Hb. unfold Qdiv. rewrite Qabs_Qmult.
  rewrite (Qabs_pos (/ b)) by (apply Qlt_le_weak, Qinv_lt_0_compat; exact Hb).
  field. lra.
Qed.

(** C5, as stated, fails twice.  The quotient is stored as NUMERIC division
    delivers it: from a rate of 50 over two events and a new score of 0 the
    row keeps 33.3333333333333333, not 100/3.  And the claim covers every
    existing row: one whose confidence stands at 95 is set to 90, which is
    a decrease. *)
Lemma stored_rate_is_rounded_and_confidence_can_drop :
  match update_learning_insights_with_stability 0 (sample_event "tone" 0 0)
          overconfident_db with
  | Val d' =>
      match learning_insights d' !! ("edit_type"%string, "tone"%string) with
      | Some li' =>
          (numeric_value (success_rate li') == 33.3333333333333333)%Q
          /\ ~ (numeric_value (success_rate li')
                == spec_successRate
                     (numeric_value (success_rate overconfident_insight))
                     (frequency overconfident_insight) 0)%Q
          /\ confidence li' = 90
          /\ confidence li' < confidence overconfident_insight
      | None => False
      end
  | Raise _ => False
  end.
Proof.
  vm_compute. repeat split; try reflexivity; intros H; discriminate.
Qed.

(** C5, amended: when the trigger function runs for an event whose pattern
    has a row with frequency n > 0, the row it leaves has as successRate
    the quotient (old * n + s) / (n + 1) rounded to the display scale
    NUMERIC division selects (sixteen places or more, hence within half a
    unit of the sixteenth place of the exact quotient, whenever that
    quotient is below 10000 in absolute value), and as confidence
    min(90, old + 2), which never exceeds 90 and is not below the old
    confidence when that was at most 90, as it is on every row this path
    has written. *)
Theorem applyEvent_running_average (now : Z) (NEW : edit_analyses_row)
    (d d' : db) (li : learning_insights_row) :
  update_learning_insights_with_stability now NEW d = Val d' ->
  learning_insights d !! ("edit_type"%string, edit_type NEW) = Some li ->
  0 < frequency li ->
  exists li',
    learning_insights d' !! ("edit_type"%string, edit_type NEW) = Some li'
    /\ (let exact :=
          spec_successRate (numeric_value (success_rate li)) (frequency li)
            (success_score NEW) in
        numeric_value (success_rate li')
        = numeric_round (dscale (success_rate li')) exact
        /\ ((Qabs exact < 10000)%Q ->
            (16 <= dscale (success_rate li'))%nat
            /\ (Qabs (numeric_value (success_rate li') - exact)
                <= 1 # 20000000000000000)%Q))
    /\ confidence li' = Z.min 90 (confidence li + 2)
    /\ confidence li' <= 90
    /\ (confidence li <= 90 -> confidence li <= confidence li')
    /\ (maintained li -> confidence li <= confidence li').
Proof.
  intros Hrun Hli Hn.
  unfold update_learning_insights_with_stability in Hrun.
  destruct (calculate_pattern_stability now "edit_type" (edit_type NEW)
              (user_id NEW) d) as [st | e]; cbn [sql_bind] in Hrun;
    [| discriminate].
  apply Val_inj in Hrun. subst d'. cbn [learning_insights].
  rewrite lookup_insert_eq, Hli. eexists. split; [reflexivity |].
  cbn [upsert_row success_rate confidence].
  assert (Hpos : (0 <? frequency li) = true) by (apply Z.ltb_lt; exact Hn).
  rewrite Hpos.
  set (a := numeric_add
              (numeric_mul (success_rate li) (numeric_of_integer (frequency li)))
              (numeric_of_integer (success_score NEW))).
  set (b := numeric_of_integer (frequency li + 1)).
  assert (Hb : (1 <= numeric_value b)%Q).
  { unfold b, numeric_of_integer. cbn [numeric_value].
    change 1%Q with (inject_Z 1). rewrite <- Zle_Qle. lia. }
  split; [| repeat split; try lia;
            intros Hm; apply maintained_bounds in Hm; lia].
  cbv zeta. split; [reflexivity |].
  intros Hsmall.
  change (spec_successRate (numeric_value (success_rate li)) (frequency li)
            (success_score NEW))
    with (numeric_value a / numeric_value b)%Q in Hsmall |- *.
  assert (Hscale : (16 <= select_div_scale a b)%nat).
  { apply select_div_scale_sixteen; [exact Hb |].
    rewrite (Qabs_quotient (numeric_value a) (numeric_value b)) by lra.
    apply Qmult_lt_compat_r; [lra | exact Hsmall]. }
  split; [exact Hscale |].
  apply numeric_div_error. exact Hscale.
Qed.

Lemma applyEvent_running_average_witness :
  exists li',
    learning_insights two_tone_db !! ("edit_type"%string, "tone"%string)
    = Some li'
    /\ confidence li' = 52
    /\ (16 <= dscale (success_rate li'))%nat.
Proof.
  destruct (applyEvent_running_average 10 (sample_event "tone" 25 10)
              between_two_tones two_tone_db
              (upsert_row 0 (sample_event "tone" 75 0) None neutral_row))
    as (li' & Hlook & (_ & Hrate) & Hconf & _).
  - vm_compute. reflexivity.
  - vm_compute. reflexivity.
  - cbn. lia.
  - exists li'. split; [exact Hlook |].
    split; [rewrite Hconf; reflexivity |].
    apply Hrate. vm_compute. reflexivity.
Defined.

(** X2: when every stored score is between 0 and 100, the success_rate
    the trigger keeps by its incremental formula is between 0 and 100 and
    differs from the plain mean of the stored scores of the pattern by at
    most frequency - 1 half units of the sixteenth decimal place: each
    update after the first rounds the quotient once. *)
Theorem success_rate_is_mean_of_scores (d : db) :
  recorded d -> scores_in_range d ->
  forall pattern li,
    learning_insights d !! ("edit_type"%string, pattern) = Some li ->
    (0 <= numeric_value (success_rate li) <= 100)%Q
    /\ (Qabs (numeric_value (success_rate li)
              - sql_avg (zs (pattern_scores pattern d)))
        <= inject_Z (frequency li - 1) * (1 # 20000000000000000))%Q.
Proof.
  intros Hd Hrange. change (rate_tracks_mean d). revert Hrange.
  induction Hd as [| d d' now NEW Hd IH Hins]; intros Hrange pattern li Hlook.
  - cbn in Hlook. rewrite lookup_empty in Hlook. discriminate.
  - pose proof (recorded_counts_agree d Hd) as [_ Hcount].
    pose proof (recorded_rates_agree d Hd) as Hagree.
    apply insert_edit_analysis_Val in Hins as [st ->].
    unfold scores_in_range in Hrange. cbn [edit_analyses] in Hrange.
    apply List.Forall_app in Hrange as [Hrange Hnew].
    inversion Hnew as [| ? ? Hscore _]; subst.
    specialize (IH Hrange).
    cbn [learning_insights] in Hlook. rewrite pattern_scores_append.
    destruct (String.eqb_spec (edit_type NEW) pattern) as [<- | Hne].
    + rewrite lookup_insert_eq in Hlook. injection Hlook as <-.
      specialize (Hcount (edit_type NEW)).
      destruct (learning_insights d !! ("edit_type"%string, edit_type NEW))
        as [old |] eqn:Hold.
      * destruct (IH _ _ Hold) as (Hin & Hdist).
        destruct (Hagree _ _ Hold) as (Hne & _).
        destruct Hcount as [_ Hfreq].
        rewrite events_of_pattern_scores in Hfreq.
        assert (Hpos : (0 <? frequency old) = true).
        { apply Z.ltb_lt. rewrite Hfreq.
          destruct (pattern_scores (edit_type NEW) d);
            [contradiction | cbn [length]; lia]. }
        cbn [upsert_row success_rate frequency]. rewrite Hpos, Hfreq.
        destruct (running_rate_step (success_rate old)
                    (pattern_scores (edit_type NEW) d) (success_score NEW)
                    _ Hne Hscore Hin Hdist) as [Hin' Hdist'].
        split; [exact Hin' |].
        eapply Qle_trans; [exact Hdist' |].
        rewrite Hfreq.
        replace (Z.max (Z.of_nat (length (pattern_scores (edit_type NEW) d)) + 1)
                   1 - 1)%Z
          with (Z.of_nat (length (pattern_scores (edit_type NEW) d)) - 1 + 1)%Z
          by lia.
        rewrite (inject_Z_plus _ 1). change (inject_Z 1) with 1%Q.
        apply Qle_lteq. right. ring.
      * rewrite events_of_pattern_scores in Hcount.
        assert (Hnil : pattern_scores (edit_type NEW) d = [])
          by (destruct (pattern_scores (edit_type NEW) d);
              [reflexivity | cbn [length] in Hcount; lia]).
        rewrite Hnil.
        cbn [app upsert_row success_rate frequency numeric_of_integer
             numeric_value].
        destruct Hscore as [Hs0 Hs100]. split.
        -- rewrite Zle_Qle in Hs0, Hs100. split; assumption.
        -- assert (Hsame : (inject_Z (success_score NEW)
                            - sql_avg (zs [success_score NEW]) == 0)%Q).
           { unfold sql_avg, zs. cbn. field. }
           rewrite Hsame. vm_compute. discriminate.
    + rewrite lookup_insert_ne in Hlook by congruence.
      rewrite List.app_nil_r. apply IH. exact Hlook.
Qed.

Lemma success_rate_is_mean_of_scores_witness :
  match learning_insights two_tone_db !! ("edit_type"%string, "tone"%string) with
  | Some li => (numeric_value (success_rate li) <= 100)%Q
  | None => False
  end.
Proof.
  destruct (learning_insights two_tone_db !! ("edit_type"%string, "tone"%string))
    as [li |] eqn:Hlook.
  - assert (Hrange : scores_in_range two_tone_db).
    { vm_compute. repeat constructor; discriminate. }
    destruct (success_rate_is_mean_of_scores two_tone_db two_tone_db_recorded
                Hrange "tone"%string li Hlook) as [[_ Hup] _].
    exact Hup.
  - vm_compute in Hlook. discriminate.
Defined.

(** X3: the recommendation of a row is the band of the score of the
    first event of its pattern; the ON CONFLICT branch never rewrites it,
    whatever the later scores are. *)
Theorem recommendation_set_by_first_event (d : db) :
  recorded d ->
  forall pattern li,
    learning_insights d !! ("edit_type"%string, pattern) = Some li ->
    exists first later,
      pattern_scores pattern d = first :: later
      /\ recommendation li = recommendation_for first.
Proof.
  intros Hd pattern li Hlook.
  destruct (recorded_rates_agree d Hd pattern li Hlook) as (Hne & Hrec).
  destruct (pattern_scores pattern d) as [| first later]; [contradiction |].
  exists first, later. split; [reflexivity | exact Hrec].
Qed.

Lemma recommendation_set_by_first_event_witness :
  match learning_insights two_tone_db !! ("edit_type"%string, "tone"%string) with
  | Some li => recommendation li = "Current approach working well"%string
  | None => False
  end.
Proof.
  destruct (learning_insights two_tone_db !! ("edit_type"%string, "tone"%string))
    as [li |] eqn:Hlook.
  - destruct (recommendation_set_by_first_event two_tone_db two_tone_db_recorded
                "tone"%string li Hlook) as (first & later & Hscores & Hrec).
    rewrite Hrec. vm_compute in Hscores. injection Hscores as <- _.
    reflexivity.
  - vm_compute in Hlook. discriminate.
Defined.

(** X4: the recording path keeps one row per pattern that has an event
    and none for a pattern without one; every row sits under the key
    (edit_type, pattern) and carries that pair in its own columns. *)
Theorem one_row_per_recorded_pattern (d : db) :
  recorded d ->
  (forall pattern,
      is_Some (learning_insights d !! ("edit_type"%string, pattern))
      <-> pattern_scores pattern d <> [])
  /\ (forall key li,
        learning_insights d !! key = Some li ->
        fst key = "edit_type"%string
        /\ pattern_type li = "edit_type"%string
        /\ pattern_value li = snd key).
Proof.
  intros Hd. destruct (recorded_counts_agree d Hd) as [Hkeys Hcount]. split.
  - intros pattern. specialize (Hcount pattern).
    rewrite events_of_pattern_scores in Hcount.
    destruct (learning_insights d !! ("edit_type"%string, pattern))
      as [li |] eqn:Hlook.
    + destruct (recorded_rates_agree d Hd pattern li Hlook) as (Hne & _).
      split; [intros _; exact Hne | intros _; eexists; reflexivity].
    + split.
      * intros [li Hli]. discriminate.
      * intros Hne. exfalso. apply Hne.
        destruct (pattern_scores pattern d); [reflexivity |].
        cbn [length] in Hcount. lia.
  - intros key li Hlook.
    destruct (recorded_rows_maintained d Hd key li Hlook) as [Hm Hv].
    destruct (maintained_shape li Hm) as (_ & _ & _ & _ & _ & Hp).
    split; [exact (Hkeys key li Hlook) |]. split; assumption.
Qed.

Lemma one_row_per_recorded_pattern_witness :
  is_Some (learning_insights two_tone_db !! ("edit_type"%string, "tone"%string))
  /\ learning_insights two_tone_db !! ("edit_type"%string, "length"%string) = None.
Proof.
  destruct (one_row_per_recorded_pattern two_tone_db two_tone_db_recorded)
    as [Hrows _].
  split.
  - apply Hrows. vm_compute. discriminate.
  - destruct (learning_insights two_tone_db
                !! ("edit_type"%string, "length"%string)) as [li |] eqn:Hlook;
      [| reflexivity].
    exfalso. apply (proj1 (Hrows "length"%string)).
    + rewrite Hlook. eexists. reflexivity.
    + vm_compute. reflexivity.
Defined.

Lemma threshold_needs_nine_events_witness :
  match learning_insights declining_db !! ("edit_type"%string, "tone"%string) with
  | Some li => threshold_met li = true /\ 9 <= frequency li
  | None => False
  end.
Proof.
  assert (Hrec : recorded declining_db).
  { apply (record_all_recorded declining_events empty_db);
      [exact recorded_empty | vm_compute; reflexivity]. }
  destruct (learning_insights declining_db !! ("edit_type"%string, "tone"%string))
    as [li |] eqn:Hlook.
  - destruct (threshold_needs_nine_events declining_db Hrec _ li Hlook)
      as (_ & _ & Hthr).
    assert (Hmet : threshold_met li = true).
    { vm_compute in Hlook. injection Hlook as <-. reflexivity. }
    split; [exact Hmet | apply Hthr; exact Hmet].
  - vm_compute in Hlook. discriminate.
Defined.

(** ** What every returned stability row satisfies *)

Lemma cast_decimal_Val (p s : nat) (q v : Q) :
  cast_decimal p s q = Val v -> v = numeric_round s q.
Proof.
  unfold cast_decimal. destruct (Qle_bool _ _); [discriminate |].
  intros [= <-]. reflexivity.
Qed.

Lemma sql_avg_nonneg (l : list Q) :
  Forall (fun y => (0 <= y)%Q) l -> (0 <= sql_avg l)%Q.
Proof.
  intros Hall. unfold sql_avg.
  destruct l as [| a l'] eqn:Hl.
  - vm_compute. discriminate.
  - rewrite <- Hl in *. apply Qle_shift_div_l.
    + apply length_pos_Q. rewrite Hl. discriminate.
    + pose proof (Qsum_nonneg l Hall). lra.
Qed.

Lemma squares_nonneg (c : Q) (l : list Q) :
  Forall (fun y => (0 <= y)%Q)
    (map (fun rate => (rate - c) * (rate - c))%Q l).
Proof.
  induction l as [| x l IH]; cbn [map]; constructor.
  - apply Qsquare_nonneg.
  - exact IH.
Qed.

Lemma stability_of_rates_sound (weekly : list Q) (r : stability_row) :
  stability_of_rates weekly = Val r ->
  weekly_rates r = weekly
  /\ (0 <= stability_score r <= 1)%Q
  /\ (0 <= pattern_variance r)%Q
  /\ (is_stable r = true <-> (7 # 10 <= stability_score r)%Q)
  /\ (is_stable r = true -> (3 <= length weekly)%nat)
  /\ (drift_detected r = true -> (4 <= length weekly)%nat).
Proof.
  unfold stability_of_rates.
  destruct (array_length weekly) as [rate_count |] eqn:Hcount.
  2:{ intros [= <-]. cbn. repeat split; try discriminate; try lra. }
  assert (Hlen : rate_count = Z.of_nat (length weekly)).
  { destruct weekly; [discriminate | injection Hcount as <-; reflexivity]. }
  destruct (Z.ltb_spec rate_count 3) as [Hshort | Hlong].
  { intros [= <-]. cbn. repeat split; try discriminate; try lra. }
  destruct (sql_map (cast_decimal 8 3) weekly) as [rates | e]; [| discriminate].
  cbn [sql_bind].
  destruct (cast_decimal 8 3 (sql_avg rates)) as [mean_rate | e];
    [| discriminate].
  cbn [sql_bind].
  destruct (cast_decimal 8 3 _) as [variance_calc | e] eqn:Hvar;
    [| discriminate].
  cbn [sql_bind].
  match goal with
  | |- context [sql_bind ?m _] =>
      assert (Hscore : forall v, m = Val v -> (0 <= v <= 1)%Q)
  end.
  { intros v. destruct (Qlt_bool 0 mean_rate).
    - destruct (numeric_sqrt variance_calc) as [root | e]; [| discriminate].
      cbn [sql_bind].
      destruct (cast_decimal 5 3 _) as [cv | e]; [| discriminate].
      cbn [sql_bind]. intros [= <-]. apply clamp_unit.
    - intros [= <-]. lra. }
  match goal with
  | |- context [sql_bind ?m _] => destruct m as [stability_calc | e]
  end; [| discriminate].
  specialize (Hscore stability_calc eq_refl). cbn [sql_bind].
  match goal with
  | |- context [sql_bind ?m _] =>
      assert (Hdrift : forall b, m = Val b -> b = true -> 4 <= rate_count)
  end.
  { intros b. destruct (Z.leb_spec 4 rate_count) as [H4 | H4].
    - intros _ _. exact H4.
    - intros [= <-]. discriminate. }
  match goal with
  | |- context [sql_bind ?m _] => destruct m as [drift_detected_calc | e]
  end; [| discriminate].
  specialize (Hdrift drift_detected_calc eq_refl). cbn [sql_bind].
  intros [= <-]. cbn.
  split; [reflexivity |]. split; [exact Hscore |]. split.
  - apply cast_decimal_Val in Hvar. rewrite Hvar.
    apply numeric_round_nonneg, sql_avg_nonneg, squares_nonneg.
  - split; [apply Qle_bool_iff |]. split; [intros _; lia |].
    intros Hd. specialize (Hdrift Hd). lia.
Qed.

Lemma insert_edit_analysis_Val_stability (now : Z) (NEW : edit_analyses_row)
    (d d' : db) :
  insert_edit_analysis now NEW d = Val d' ->
  exists (rates : list Q) (st : stability_row),
    stability_of_rates rates = Val st
    /\ d' = {| edit_analyses := edit_analyses d ++ [NEW];
               learning_insights :=
                 <[("edit_type"%string, edit_type NEW) :=
                     upsert_row now NEW
                       (learning_insights d !! ("edit_type"%string, edit_type NEW))
                       st]>
                   (learning_insights d) |}.
Proof.
  unfold insert_edit_analysis, update_learning_insights_with_stability.
  cbn [edit_analyses learning_insights].
  unfold calculate_pattern_stability.
  destruct (sql_map (cast_decimal 5 2) _) as [rates | e]; [| discriminate].
  cbn [sql_bind].
  destruct (stability_of_rates rates) as [st | e] eqn:Hst; [| discriminate].
  cbn [sql_bind]. intros [= <-]. exists rates, st. split; [exact Hst | reflexivity].
Qed.

Lemma upsert_row_stability_sound (now : Z) (NEW : edit_analyses_row)
    (existing : option learning_insights_row) (rates : list Q)
    (st : stability_row) :
  stability_of_rates rates = Val st ->
  stability_columns_sound (upsert_row now NEW existing st).
Proof.
  intros Hst.
  destruct (stability_of_rates_sound rates st Hst)
    as (Hrates & Hscore & Hvar & Hstable & Hthree & Hfour).
  unfold stability_columns_sound.
  destruct existing as [li |]; cbn; rewrite Hrates;
    (split; [exact Hscore |]; split; [exact Hvar |]; split;
     [intros H; split; [apply Hstable; exact H | apply Hthree; exact H]
     | exact Hfour]).
Qed.

Lemma recorded_rows_stability_sound (d : db) :
  recorded d ->
  forall key li,
    learning_insights d !! key = Some li -> stability_columns_sound li.
Proof.
  induction 1 as [| d d' now NEW Hd IH Hins]; intros key li Hlook.
  - cbn in Hlook. rewrite lookup_empty in Hlook. discriminate.
  - apply insert_edit_analysis_Val_stability in Hins as (rates & st & Hst & ->).
    cbn [learning_insights] in Hlook.
    destruct (decide (key = ("edit_type"%string, edit_type NEW))) as [-> | Hne].
    + rewrite lookup_insert_eq in Hlook. injection Hlook as <-.
      apply (upsert_row_stability_sound now NEW _ rates st Hst).
    + rewrite lookup_insert_ne in Hlook by congruence.
      apply (IH key li Hlook).
Qed.

(** X5: the view's ELSE branch is dead on rows the trigger has written:
    no stored row is reported PENDING_VALIDATION, and a row that is neither
    validated nor stable is reported INSUFFICIENT_SAMPLES below five events,
    INSUFFICIENT_CONFIDENCE below nine, INSUFFICIENT_TIME_SPAN from then on. *)
Theorem pending_validation_never_stored (d : db) :
  recorded d ->
  forall key li,
    learning_insights d !! key = Some li ->
    validationStatus li <> PENDING_VALIDATION
    /\ (threshold_met li = false -> stability_validated li = false ->
        validationStatus li =
          (if frequency li <? 5 then INSUFFICIENT_SAMPLES
           else if frequency li <? 9 then INSUFFICIENT_CONFIDENCE
           else INSUFFICIENT_TIME_SPAN)).
Proof.
  intros Hd key li Hlook.
  destruct (recorded_rows_maintained d Hd key li Hlook) as [Hm _].
  destruct (maintained_shape li Hm) as (Hf & Hc & Ht & Hthr & Hs & _).
  unfold validationStatus. rewrite Hthr, Hs. unfold thresholdMet.
  destruct (stability_validated li), (pattern_drift_detected li);
    destruct (Z.leb_spec 5 (frequency li));
    destruct (Z.leb_spec 65 (confidence li));
    destruct (Z.leb_spec 3 (time_span_days li));
    destruct (Z.ltb_spec (confidence li) 65);
    destruct (Z.ltb_spec (time_span_days li) 3);
    destruct (Z.ltb_spec (frequency li) 5);
    destruct (Z.ltb_spec (frequency li) 9);
    cbn [andb negb]; split; try discriminate; try reflexivity;
    try (intros; discriminate); try (intros; reflexivity); try lia.
Qed.

(** X6: a stored row the view reports FULLY_VALIDATED has at least nine
    events over at least three days, confidence of at least 66, a stability
    score of at least 0.7 computed from at least three weekly averages, and
    no drift flag. *)
Theorem fully_validated_requirements (d : db) :
  recorded d ->
  forall key li,
    learning_insights d !! key = Some li ->
    validationStatus li = FULLY_VALIDATED ->
    9 <= frequency li
    /\ 3 <= time_span_days li
    /\ 66 <= confidence li
    /\ (7 # 10 <= li_stability_score li)%Q
    /\ (3 <= length (weekly_success_rates li))%nat
    /\ pattern_drift_detected li = false.
Proof.
  intros Hd key li Hlook Hstatus.
  destruct (recorded_rows_maintained d Hd key li Hlook) as [Hm _].
  destruct (maintained_shape li Hm) as (Hf & Hc & Ht & Hthr & Hs & _).
  destruct (recorded_rows_stability_sound d Hd key li Hlook)
    as (_ & _ & Hstable & _).
  assert (Hall : threshold_met li = true /\ stability_validated li = true
                 /\ pattern_drift_detected li = false).
  { revert Hstatus. unfold validationStatus.
    destruct (threshold_met li), (stability_validated li),
      (pattern_drift_detected li); cbn [andb negb];
      try (intros _; repeat split; reflexivity); try discriminate;
      repeat match goal with
             | |- context [if ?c then _ else _] => destruct c
             end; discriminate. }
  destruct Hall as (Hmet & Hval & Hnodrift).
  rewrite Hthr, Hs in Hmet. unfold thresholdMet in Hmet.
  rewrite !andb_true_iff, !Z.leb_le in Hmet.
  destruct (Hstable Hval) as [Hscore Hweeks].
  repeat split; try assumption; lia.
Qed.

Lemma steady_db_recorded : recorded steady_db.
Proof.
  apply (record_all_recorded steady_events empty_db);
    [exact recorded_empty | vm_compute; reflexivity].
Qed.

Lemma declining_db_recorded : recorded declining_db.
Proof.
  apply (record_all_recorded declining_events empty_db);
    [exact recorded_empty | vm_compute; reflexivity].
Qed.

Lemma pending_validation_never_stored_witness :
  match learning_insights two_tone_db !! ("edit_type"%string, "tone"%string) with
  | Some li => validationStatus li = INSUFFICIENT_SAMPLES
  | None => False
  end.
Proof.
  destruct (learning_insights two_tone_db !! ("edit_type"%string, "tone"%string))
    as [li |] eqn:Hlook.
  - destruct (pending_validation_never_stored two_tone_db two_tone_db_recorded
                _ li Hlook) as [_ Hstatus].
    vm_compute in Hlook. injection Hlook as <-.
    apply Hstatus; reflexivity.
  - vm_compute in Hlook. discriminate.
Defined.

Lemma fully_validated_requirements_witness :
  match learning_insights steady_db !! ("edit_type"%string, "tone"%string) with
  | Some li => validationStatus li = FULLY_VALIDATED /\ 9 <= frequency li
  | None => False
  end.
Proof.
  destruct (learning_insights steady_db !! ("edit_type"%string, "tone"%string))
    as [li |] eqn:Hlook.
  - assert (Hstatus : validationStatus li = FULLY_VALIDATED).
    { vm_compute in Hlook. injection Hlook as <-. reflexivity. }
    split; [exact Hstatus |].
    apply (fully_validated_requirements steady_db steady_db_recorded _ li Hlook
             Hstatus).
  - vm_compute in Hlook. discriminate.
Defined.

(** * Further properties of the stability function *)

Lemma window_weeks (now t : Z) :
  CURRENT_DATE now - 8 * seconds_per_week <= t -> t <= now ->
  (now + 3 * seconds_per_day) / seconds_per_week - 8
  <= (t + 3 * seconds_per_day) / seconds_per_week
  <= (now + 3 * seconds_per_day) / seconds_per_week.
Proof.
  unfold CURRENT_DATE, seconds_per_week, seconds_per_day.
  intros Hcut Hnow. Z.div_mod_to_equations. lia.
Qed.

(** X7: on events scored between 0 and 100 and none stamped in the
    future, calculate_pattern_stability raises nothing: it returns a row
    whose weekly_rates are at most nine two-decimal averages between 0 and
    100 (the eight-week window meets at most nine calendar weeks). *)
Theorem stability_returns_on_application_data (now : Z)
    (pattern_type_param pattern_value_param : string)
    (user_id_param : option string) (d : db) :
  scores_in_range d -> none_in_future now d ->
  exists r,
    calculate_pattern_stability now pattern_type_param pattern_value_param
      user_id_param d = Val r
    /\ (length (weekly_rates r) <= 9)%nat
    /\ Forall weekly_average (weekly_rates r).
Proof.
  intros Hrange Hpast.
  destruct (calculate_pattern_stability_returns now pattern_value_param
              user_id_param d Hrange Hpast pattern_type_param)
    as (r & Hrun & Hrates).
  exists r. split; [exact Hrun |]. rewrite Hrates.
  unfold weeklyAverages. cbn [fst]. split.
  - rewrite !List.length_map.
    set (weekly := weekly_query now pattern_value_param user_id_param
                     (edit_analyses d)).
    pose (top := (now + 3 * seconds_per_day) / seconds_per_week).
    assert (Hkeys : Forall (fun w => exists k,
                              w = seconds_per_week * k - 3 * seconds_per_day
                              /\ top - 8 <= k <= top) (map fst weekly)).
    { apply List.Forall_forall. intros w Hw.
      apply in_map_iff in Hw as [[w' avg] [Heq Hin]]. cbn in Heq. subst w'.
      apply weekly_query_member in Hin as [Hcount _].
      destruct (week_bucket now pattern_value_param user_id_param w d)
        as [| ea rest] eqn:Hbucket; [cbn in Hcount; lia |].
      assert (Hea : In ea (week_bucket now pattern_value_param user_id_param w d))
        by (rewrite Hbucket; left; reflexivity).
      apply week_bucket_member in Hea as (Hin & _ & Hcut & Hweek).
      unfold none_in_future in Hpast. rewrite List.Forall_forall in Hpast.
      specialize (Hpast ea Hin). cbv beta in Hpast.
      exists ((created_at ea + 3 * seconds_per_day) / seconds_per_week).
      split; [rewrite <- Hweek; apply DATE_TRUNC_week_index |].
      apply window_weeks; assumption. }
    pose proof (ascending_in_interval seconds_per_week (3 * seconds_per_day)
                  (map fst weekly) (top - 8) top ltac:(reflexivity)) as Hlen.
    rewrite List.length_map in Hlen.
    assert (Hsorted : StronglySorted Z.lt (map fst weekly)).
    { unfold weekly, weekly_query. rewrite List.map_map. cbn [fst].
      apply filter_keys_sorted. apply group_by_week_sorted. }
    specialize (Hlen Hsorted Hkeys). lia.
  - apply (weekly_rates_cast now pattern_value_param user_id_param d Hrange).
Qed.

Lemma stability_returns_on_application_data_witness :
  exists r,
    calculate_pattern_stability (7 * seconds_per_week) "edit_type" "tone" None
      declining_db = Val r
    /\ (length (weekly_rates r) <= 9)%nat.
Proof.
  destruct (stability_returns_on_application_data (7 * seconds_per_week)
              "edit_type" "tone" None declining_db) as (r & Hrun & Hlen & _).
  - unfold scores_in_range.
    let l := eval vm_compute in (edit_analyses declining_db) in
    change (edit_analyses declining_db) with l.
    repeat (constructor; [cbn; lia |]). constructor.
  - unfold none_in_future.
    let l := eval vm_compute in (edit_analyses declining_db) in
    change (edit_analyses declining_db) with l.
    repeat (constructor; [vm_compute; discriminate |]). constructor.
  - exists r. split; assumption.
Defined.

Local Open Scope Q_scope.

(** ** The order of the weeks *)

Lemma Qsum_Permutation (l l' : list Q) : Permutation l l' -> Qsum l == Qsum l'.
Proof.
  induction 1 as [| x l l' Hp IH | x y l | l l' l'' Hp1 IH1 Hp2 IH2];
    cbn [Qsum fold_right].
  - reflexivity.
  - fold (Qsum l) (Qsum l'). rewrite IH. reflexivity.
  - ring.
  - rewrite IH1. exact IH2.
Qed.

Lemma sql_avg_Permutation (l l' : list Q) :
  Permutation l l' -> sql_avg l == sql_avg l'.
Proof.
  intros Hp. unfold sql_avg.
  rewrite (Qsum_Permutation l l' Hp), (Permutation_length Hp). reflexivity.
Qed.

Lemma rounded_mean_Permutation (l l' : list Q) :
  Permutation l l' -> rounded_mean l = rounded_mean l'.
Proof.
  intros Hp. apply numeric_round_comp, sql_avg_Permutation. exact Hp.
Qed.

Lemma rounded_variance_Permutation (l l' : list Q) :
  Permutation l l' -> rounded_variance l = rounded_variance l'.
Proof.
  intros Hp. unfold rounded_variance.
  rewrite (rounded_mean_Permutation l l' Hp).
  apply numeric_round_comp, sql_avg_Permutation, Permutation_map. exact Hp.
Qed.

(** X8: the stability score, the variance and the stable flag do not
    depend on the order of the weeks: any rearrangement of the same weekly
    averages gives the same three values (the drift flag alone reads the
    order). *)
Theorem stability_ignores_week_order (weekly weekly' : list Q) :
  Permutation weekly weekly' ->
  Forall weekly_average weekly -> (3 <= length weekly <= 64)%nat ->
  exists r r',
    stability_of_rates weekly = Val r
    /\ stability_of_rates weekly' = Val r'
    /\ stability_score r' = stability_score r
    /\ pattern_variance r' = pattern_variance r
    /\ is_stable r' = is_stable r.
Proof.
  intros Hp Hall Hlen.
  assert (Hall' : Forall weekly_average weekly').
  { rewrite List.Forall_forall in Hall |- *. intros x Hx. apply Hall.
    apply (Permutation_in x (Permutation_sym Hp)). exact Hx. }
  assert (Hlen' : (3 <= length weekly' <= 64)%nat)
    by (rewrite <- (Permutation_length Hp); exact Hlen).
  exists (stability_closed_form weekly), (stability_closed_form weekly').
  split; [apply stability_of_rates_closed_form; assumption |].
  split; [apply stability_of_rates_closed_form; assumption |].
  unfold stability_closed_form.
  cbn [stability_score pattern_variance is_stable].
  rewrite <- (rounded_mean_Permutation weekly weekly' Hp).
  rewrite <- (rounded_variance_Permutation weekly weekly' Hp).
  repeat split; reflexivity.
Qed.

Lemma stability_ignores_week_order_witness :
  exists r r',
    stability_of_rates declining_weeks = Val r
    /\ stability_of_rates (rev declining_weeks) = Val r'
    /\ stability_score r' = stability_score r.
Proof.
  destruct (stability_ignores_week_order declining_weeks (rev declining_weeks))
    as (r & r' & Hr & Hr' & Hscore & _).
  - apply Permutation_rev.
  - unfold declining_weeks, zs. cbn [map]. weekly_averages.
  - cbn. lia.
  - exists r, r'. repeat split; assumption.
Defined.

(** ** Series that stay within a band *)

Lemma extremes_exist (l : list Q) :
  l <> [] ->
  exists lo hi, In lo l /\ In hi l /\ Forall (fun x => lo <= x <= hi) l.
Proof.
  induction l as [| x l IH]; [contradiction | intros _].
  destruct l as [| y l'].
  - exists x, x. repeat split; [left; reflexivity | left; reflexivity |].
    constructor; [split; lra | constructor].
  - destruct (IH ltac:(discriminate)) as (lo & hi & Hlo & Hhi & Hall).
    exists (if Qlt_le_dec x lo then x else lo),
           (if Qlt_le_dec hi x then x else hi).
    split; [destruct (Qlt_le_dec x lo); [left; reflexivity | right; exact Hlo] |].
    split; [destruct (Qlt_le_dec hi x); [left; reflexivity | right; exact Hhi] |].
    constructor.
    + destruct (Qlt_le_dec x lo), (Qlt_le_dec hi x); split; lra.
    + eapply List.Forall_impl; [| exact Hall].
      intros z [Hz1 Hz2]. cbn beta.
      destruct (Qlt_le_dec x lo), (Qlt_le_dec hi x); split; lra.
Qed.

(** The mean of weekly averages, taken to three places, lies between two
    of them. *)
Lemma rounded_mean_between (l : list Q) :
  Forall weekly_average l -> l <> [] ->
  exists lo hi,
    In lo l /\ In hi l /\ lo <= rounded_mean l <= hi.
Proof.
  intros Hall Hne.
  destruct (extremes_exist l Hne) as (lo & hi & Hlo & Hhi & Hbounds).
  exists lo, hi. split; [exact Hlo |]. split; [exact Hhi |].
  pose proof (sql_avg_bounds l lo hi Hne Hbounds) as [H1 H2].
  rewrite List.Forall_forall in Hall.
  destruct (Hall lo Hlo) as (Hglo & _). destruct (Hall hi Hhi) as (Hghi & _).
  unfold rounded_mean. split.
  - pose proof (numeric_round_le 3 _ _ H1) as Hle.
    rewrite (numeric_round_finer lo Hglo) in Hle. exact Hle.
  - pose proof (numeric_round_le 3 _ _ H2) as Hle.
    rewrite (numeric_round_finer hi Hghi) in Hle. exact Hle.
Qed.

(** X9: when no two weekly averages are more than 20 points apart, the
    function returns and the drift flag is off. *)
Theorem no_drift_within_twenty_points (weekly : list Q) :
  Forall weekly_average weekly -> (length weekly <= 64)%nat ->
  (forall x y, In x weekly -> In y weekly -> x - y <= 20) ->
  exists r, stability_of_rates weekly = Val r /\ drift_detected r = false.
Proof.
  intros Hall Hlen Hband.
  destruct (Nat.lt_ge_cases (length weekly) 3) as [Hshort | Hlong].
  { eexists. split; [apply stability_of_rates_short; exact Hshort |].
    reflexivity. }
  exists (stability_closed_form weekly).
  split; [apply stability_of_rates_closed_form; [exact Hall | lia] |].
  unfold stability_closed_form. cbn [drift_detected].
  destruct (Nat.leb_spec 4 (length weekly)) as [H4 | H4]; [| reflexivity].
  apply Qlt_bool_false.
  set (recent := skipn (length weekly - 2) weekly).
  set (historical := firstn (length weekly - 2) weekly).
  assert (Hrecent : Forall weekly_average recent)
    by (apply Forall_skipn_keep; exact Hall).
  assert (Hhist : Forall weekly_average historical)
    by (apply Forall_firstn_keep; exact Hall).
  assert (Hrne : recent <> []).
  { intros Hnil. apply (f_equal (@length Q)) in Hnil. unfold recent in Hnil.
    rewrite length_skipn in Hnil. cbn in Hnil. lia. }
  assert (Hhne : historical <> []).
  { intros Hnil. apply (f_equal (@length Q)) in Hnil. unfold historical in Hnil.
    rewrite length_firstn in Hnil. cbn in Hnil. lia. }
  destruct (rounded_mean_between recent Hrecent Hrne)
    as (lo1 & hi1 & Hlo1 & Hhi1 & Hr).
  destruct (rounded_mean_between historical Hhist Hhne)
    as (lo2 & hi2 & Hlo2 & Hhi2 & Hh).
  assert (Hin1 : forall x, In x recent -> In x weekly).
  { intros x Hx. rewrite <- (firstn_skipn (length weekly - 2) weekly).
    apply in_or_app. right. exact Hx. }
  assert (Hin2 : forall x, In x historical -> In x weekly).
  { intros x Hx. rewrite <- (firstn_skipn (length weekly - 2) weekly).
    apply in_or_app. left. exact Hx. }
  pose proof (Hband hi1 lo2 (Hin1 _ Hhi1) (Hin2 _ Hlo2)) as Hup.
  pose proof (Hband hi2 lo1 (Hin2 _ Hhi2) (Hin1 _ Hlo1)) as Hdown.
  unfold rounded_mean in Hr, Hh.
  apply Qabs_case; intros _; lra.
Qed.

Lemma no_drift_within_twenty_points_witness :
  exists r, stability_of_rates steady_weeks = Val r /\ drift_detected r = false.
Proof.
  apply no_drift_within_twenty_points.
  - unfold steady_weeks, zs. cbn [map]. weekly_averages.
  - cbn. lia.
  - intros x y Hx Hy.
    assert (Hrange : forall z, In z steady_weeks -> 82 <= z <= 90).
    { intros z Hz. unfold steady_weeks, zs in Hz. cbn [map In] in Hz.
      repeat destruct Hz as [<- | Hz]; try contradiction;
        split; vm_compute; discriminate. }
    destruct (Hrange x Hx), (Hrange y Hy). lra.
Defined.

(** ** A series that never moves *)

Lemma Qsum_repeat (c : Q) (n : nat) :
  Qsum (repeat c n) == inject_Z (Z.of_nat n) * c.
Proof.
  induction n as [| n IH].
  - cbn. ring.
  - cbn [repeat Qsum fold_right]. fold (Qsum (repeat c n)). rewrite IH.
    rewrite Nat2Z.inj_succ. unfold Z.succ. rewrite inject_Z_plus.
    change (inject_Z 1) with 1. ring.
Qed.

Lemma sql_avg_repeat (c : Q) (n : nat) :
  (0 < n)%nat -> sql_avg (repeat c n) == c.
Proof.
  intros Hn. unfold sql_avg. rewrite Qsum_repeat, repeat_length.
  assert (Hpos : 0 < inject_Z (Z.of_nat n)).
  { change 0 with (inject_Z 0). rewrite <- Zlt_Qlt. lia. }
  field. lra.
Qed.

Lemma rounded_mean_repeat (c : Q) (n : nat) :
  weekly_average c -> (0 < n)%nat -> rounded_mean (repeat c n) = c.
Proof.
  intros (Hc & _) Hn. unfold rounded_mean.
  rewrite (numeric_round_comp 3 _ c (sql_avg_repeat c n Hn)).
  apply numeric_round_finer. exact Hc.
Qed.

Lemma Qsum_zero (l : list Q) : Forall (fun x => x == 0) l -> Qsum l == 0.
Proof.
  induction 1 as [| x l Hx Hl IH]; cbn [Qsum fold_right].
  - reflexivity.
  - fold (Qsum l). rewrite Hx, IH. ring.
Qed.

Lemma rounded_variance_repeat (c : Q) (n : nat) :
  weekly_average c -> (0 < n)%nat -> rounded_variance (repeat c n) = 0.
Proof.
  intros Hc Hn. unfold rounded_variance.
  rewrite (rounded_mean_repeat c n Hc Hn).
  change 0 with (numeric_round 3 0) at 1.
  apply numeric_round_comp. unfold sql_avg.
  rewrite Qsum_zero.
  - unfold Qdiv. ring.
  - apply List.Forall_forall. intros x Hx.
    apply in_map_iff in Hx as [y [<- Hy]]. apply repeat_spec in Hy. subst y.
    ring.
Qed.

Lemma skipn_repeat {A : Type} (c : A) (k n : nat) :
  skipn k (repeat c n) = repeat c (n - k).
Proof.
  revert n. induction k as [| k IH]; intros [| n]; cbn; try reflexivity.
  apply IH.
Qed.

Lemma firstn_repeat {A : Type} (c : A) (k n : nat) :
  firstn k (repeat c n) = repeat c (Nat.min k n).
Proof.
  revert n. induction k as [| k IH]; intros [| n]; cbn; try reflexivity.
  f_equal. apply IH.
Qed.

(** X10: a series of three or more identical weekly averages has variance
    0 and no drift; when the common value is above 0 the score is 1 and the
    pattern is stable, and when it is 0 the score is 0 and the pattern is
    not stable, constant though it is. *)
Theorem constant_series_scores (c : Q) (n : nat) :
  weekly_average c -> (3 <= n <= 64)%nat ->
  exists r,
    stability_of_rates (repeat c n) = Val r
    /\ pattern_variance r = 0
    /\ drift_detected r = false
    /\ (0 < c -> stability_score r = 1 /\ is_stable r = true)
    /\ (c == 0 -> stability_score r = 0 /\ is_stable r = false).
Proof.
  intros Hc Hn.
  assert (Hall : Forall weekly_average (repeat c n)).
  { apply List.Forall_forall. intros x Hx. apply repeat_spec in Hx.
    subst x. exact Hc. }
  exists (stability_closed_form (repeat c n)).
  split.
  { apply stability_of_rates_closed_form; [exact Hall |].
    rewrite repeat_length. exact Hn. }
  unfold stability_closed_form.
  cbn [pattern_variance drift_detected stability_score is_stable].
  rewrite (rounded_variance_repeat c n Hc) by lia.
  rewrite (rounded_mean_repeat c n Hc) by lia.
  rewrite repeat_length.
  split; [reflexivity |]. split.
  - destruct (4 <=? n)%nat eqn:H4; [| reflexivity].
    apply Nat.leb_le in H4.
    rewrite skipn_repeat, firstn_repeat.
    fold (rounded_mean (repeat c (n - (n - 2)))).
    fold (rounded_mean (repeat c (Nat.min (n - 2) n))).
    rewrite !(rounded_mean_repeat c _ Hc) by lia.
    apply Qlt_bool_false.
    apply Qabs_case; intros _; lra.
  - split.
    + intros Hpos.
      rewrite (proj2 (Qlt_bool_iff 0 c) Hpos).
      assert (Hone : numeric_round 3 (1 - root16 0 / c) = 1).
      { change 1 with (numeric_round 3 1) at 2.
        apply numeric_round_comp.
        change (root16 0) with 0. field. lra. }
      rewrite Hone. split; reflexivity.
    + intros Hzero.
      assert (Hnot : Qlt_bool 0 c = false) by (apply Qlt_bool_false; lra).
      rewrite Hnot. split; reflexivity.
Qed.

Lemma constant_series_scores_witness :
  exists r,
    stability_of_rates (repeat 80 5) = Val r
    /\ stability_score r = 1 /\ is_stable r = true.
Proof.
  destruct (constant_series_scores 80 5) as (r & Hr & _ & _ & Hpos & _).
  - repeat split; vm_compute; try reflexivity; discriminate.
  - lia.
  - exists r. split; [exact Hr |]. apply Hpos. reflexivity.
Defined.

(** * Further properties of recording and of the returned rows *)

Local Open Scope Z_scope.

(** ** The range of the outcome score *)

Lemma calculateSuccessScore_range (editPercentage : Z) :
  0 <= calculateSuccessScore editPercentage <= 100.
Proof.
  unfold calculateSuccessScore.
  destruct (editPercentage =? 0); [lia |].
  destruct (editPercentage <=? 20); [lia |].
  destruct (editPercentage <=? 70); lia.
Qed.

(** ** What an insert leaves alone *)

(** X12: an insert that succeeds appends the one event and writes the one
    row of its pattern; every other learning_insights row is left as it
    was, and in the row it updates the first occurrence, the pattern and
    the recommendation keep their values. *)
Theorem insert_touches_one_row (now : Z) (NEW : edit_analyses_row) (d d' : db) :
  insert_edit_analysis now NEW d = Val d' ->
  edit_analyses d' = edit_analyses d ++ [NEW]
  /\ (forall key,
        key <> ("edit_type"%string, edit_type NEW) ->
        learning_insights d' !! key = learning_insights d !! key)
  /\ (forall li,
        learning_insights d !! ("edit_type"%string, edit_type NEW) = Some li ->
        exists li',
          learning_insights d' !! ("edit_type"%string, edit_type NEW) = Some li'
          /\ first_occurrence li' = first_occurrence li
          /\ pattern_type li' = pattern_type li
          /\ pattern_value li' = pattern_value li
          /\ recommendation li' = recommendation li).
Proof.
  intros Hins. apply insert_edit_analysis_Val in Hins as [st ->].
  cbn [edit_analyses learning_insights].
  split; [reflexivity |]. split.
  - intros key Hne. apply lookup_insert_ne. congruence.
  - intros li Hli. rewrite Hli. eexists.
    rewrite lookup_insert_eq. repeat split.
Qed.

Lemma insert_touches_one_row_witness :
  learning_insights two_tone_db !! ("edit_type"%string, "length"%string) = None.
Proof.
  destruct (insert_touches_one_row 10 (sample_event "tone" 25 10)
              {| edit_analyses := [sample_event "tone" 75 0];
                 learning_insights :=
                   {[ ("edit_type"%string, "tone"%string) :=
                        upsert_row 0 (sample_event "tone" 75 0) None
                          neutral_row ]} |}
              two_tone_db)
    as (_ & Hframe & _).
  - vm_compute. reflexivity.
  - rewrite (Hframe ("edit_type"%string, "length"%string)).
    + vm_compute. reflexivity.
    + cbn. congruence.
Defined.

(** ** Events the stability function does not see *)

Lemma weekly_query_skips (now : Z) (pattern_value_param : string)
    (user_id_param : option string) (rows : list edit_analyses_row)
    (NEW : edit_analyses_row) :
  in_window now pattern_value_param user_id_param NEW = false ->
  weekly_query now pattern_value_param user_id_param (rows ++ [NEW])
  = weekly_query now pattern_value_param user_id_param rows.
Proof.
  intros Hout. unfold weekly_query.
  rewrite List.filter_app. cbn [List.filter]. rewrite Hout.
  rewrite app_nil_r. reflexivity.
Qed.

(** X13: an event of another pattern, an event older than the eight-week
    window, or (when a user is named) an event of another user does not
    change what calculate_pattern_stability returns; nor does the content
    of learning_insights. *)
Theorem stability_ignores_unrelated_events (now : Z)
    (pattern_type_param pattern_value_param : string)
    (user_id_param : option string) (d : db) (NEW : edit_analyses_row)
    (table : gmap (string * string) learning_insights_row) :
  edit_type NEW <> pattern_value_param
  \/ created_at NEW < CURRENT_DATE now - 8 * seconds_per_week
  \/ (exists u, user_id_param = Some u /\ user_id NEW <> Some u) ->
  calculate_pattern_stability now pattern_type_param pattern_value_param
    user_id_param
    {| edit_analyses := edit_analyses d ++ [NEW]; learning_insights := table |}
  = calculate_pattern_stability now pattern_type_param pattern_value_param
      user_id_param d.
Proof.
  intros Hout.
  unfold calculate_pattern_stability, weeklyAverages.
  cbn [fst edit_analyses].
  rewrite weekly_query_skips; [reflexivity |].
  unfold in_window.
  destruct Hout as [Htype | [Hold | (u & -> & Huser)]].
  - destruct (String.eqb_spec (edit_type NEW) pattern_value_param);
      [contradiction | reflexivity].
  - destruct (Z.leb_spec (CURRENT_DATE now - 8 * seconds_per_week)
                (created_at NEW)); [lia |].
    rewrite andb_false_r. reflexivity.
  - destruct (user_id NEW) as [v |]; [| apply andb_false_r].
    destruct (String.eqb_spec v u); [subst; contradiction |].
    apply andb_false_r.
Qed.

Lemma stability_ignores_unrelated_events_witness :
  calculate_pattern_stability (7 * seconds_per_week) "edit_type" "tone" None
    {| edit_analyses :=
         edit_analyses declining_db
         ++ [sample_event "length" 0 (7 * seconds_per_week)];
       learning_insights := learning_insights declining_db |}
  = calculate_pattern_stability (7 * seconds_per_week) "edit_type" "tone" None
      declining_db.
Proof.
  apply stability_ignores_unrelated_events.
  left. cbn. discriminate.
Defined.

(** ** What any returned row satisfies *)

Lemma sql_map_cast_Val (p s : nat) (l rates : list Q) :
  sql_map (cast_decimal p s) l = Val rates ->
  rates = map (numeric_round s) l
  /\ Forall (fun rate =>
               rate = numeric_round s rate
               /\ (Qabs rate < inject_Z (Zpos (scale (p - s))))%Q) rates.
Proof.
  revert rates. induction l as [| a l IH]; intros rates Hcast.
  - cbn in Hcast. injection Hcast as <-. split; [reflexivity | constructor].
  - cbn [sql_map] in Hcast.
    destruct (cast_decimal p s a) as [v |] eqn:Ha; cbn [sql_bind] in Hcast;
      [| discriminate].
    destruct (sql_map (cast_decimal p s) l) as [vs |] eqn:Hvs;
      cbn [sql_bind] in Hcast; [| discriminate].
    injection Hcast as <-.
    destruct (IH vs eq_refl) as [Hvs' Hall].
    unfold cast_decimal in Ha.
    destruct (Qle_bool _ _) eqn:Hle; [discriminate |].
    injection Ha as <-. split.
    + cbn [map]. rewrite Hvs'. reflexivity.
    + constructor; [| exact Hall]. split.
      * symmetry. apply numeric_round_idem.
      * apply Qnot_le_lt. intros Hge. apply Qle_bool_iff in Hge.
        rewrite Hge in Hle. discriminate.
Qed.

(** X14: whatever the events are, a row calculate_pattern_stability
    returns has a score between 0 and 1, a variance of at least 0, the
    stable flag exactly when the score is at least 0.7, the stable flag only
    with three weekly rates or more, the drift flag only with four or more,
    and as weekly rates the weekly averages rounded to two places, each
    below 1000 in absolute value. *)
Theorem stability_row_invariants (now : Z)
    (pattern_type_param pattern_value_param : string)
    (user_id_param : option string) (d : db) (r : stability_row) :
  calculate_pattern_stability now pattern_type_param pattern_value_param
    user_id_param d = Val r ->
  (0 <= stability_score r <= 1)%Q
  /\ (0 <= pattern_variance r)%Q
  /\ (is_stable r = true <-> (7 # 10 <= stability_score r)%Q)
  /\ (is_stable r = true -> (3 <= length (weekly_rates r))%nat)
  /\ (drift_detected r = true -> (4 <= length (weekly_rates r))%nat)
  /\ weekly_rates r
     = map (fun week => numeric_round 2 (snd week))
         (fst (weeklyAverages now pattern_value_param user_id_param d))
  /\ Forall (fun rate => (Qabs rate < 1000)%Q) (weekly_rates r).
Proof.
  unfold calculate_pattern_stability.
  destruct (sql_map (cast_decimal 5 2) _) as [rates |] eqn:Hcast;
    cbn [sql_bind]; [| discriminate].
  intros Hrun.
  destruct (stability_of_rates_sound rates r Hrun)
    as (Hrates & Hscore & Hvar & Hstable & Hthree & Hfour).
  destruct (sql_map_cast_Val 5 2 _ rates Hcast) as [Hmap Hall].
  rewrite Hrates.
  split; [exact Hscore |]. split; [exact Hvar |]. split; [exact Hstable |].
  split; [exact Hthree |]. split; [exact Hfour |]. split.
  - rewrite Hmap, List.map_map. reflexivity.
  - eapply List.Forall_impl; [| exact Hall]. intros rate [_ Hlt]. exact Hlt.
Qed.

Lemma stability_row_invariants_witness :
  match calculate_pattern_stability (7 * seconds_per_week) "edit_type" "tone"
          None declining_db with
  | Val r => (0 <= stability_score r <= 1)%Q
  | Raise _ => False
  end.
Proof.
  destruct (calculate_pattern_stability (7 * seconds_per_week) "edit_type"
              "tone" None declining_db) as [r | e] eqn:Hrun.
  - exact (proj1 (stability_row_invariants _ _ _ _ _ r Hrun)).
  - vm_compute in Hrun. discriminate.
Defined.

(** * The earlier version of the stability function *)

Local Open Scope Q_scope.

(** ** The version with two-digit trends *)

Lemma cast_decimal_Raise (p s : nat) (q : Q) (e : sql_error) :
  cast_decimal p s q = Raise e -> e = numeric_field_overflow.
Proof.
  unfold cast_decimal. destruct (Qle_bool _ _); [| discriminate].
  intros [= <-]. reflexivity.
Qed.

Lemma cast_decimal_bound (p s : nat) (q v : Q) :
  cast_decimal p s q = Val v -> Qabs v < inject_Z (Zpos (scale (p - s))).
Proof.
  unfold cast_decimal. destruct (Qle_bool _ _) eqn:Hle; [discriminate |].
  intros [= <-]. apply Qnot_le_lt. intros Hge. apply Qle_bool_iff in Hge.
  rewrite Hge in Hle. discriminate.
Qed.

Lemma trend_overflows (q : Q) :
  10 <= q -> cast_decimal 3 2 q = Raise numeric_field_overflow.
Proof.
  intros Hq. unfold cast_decimal.
  pose proof (numeric_round_le 2 10 q Hq) as Hr.
  assert (Hten : numeric_round 2 10 = 10) by (vm_compute; reflexivity).
  rewrite Hten in Hr.
  assert (Hge : Qle_bool (inject_Z (Zpos (scale (3 - 2))))
                  (Qabs (numeric_round 2 q)) = true).
  { apply Qle_bool_iff. change (inject_Z (Zpos (scale (3 - 2)))) with 10.
    apply Qabs_case; intros; lra. }
  rewrite Hge. reflexivity.
Qed.

Lemma trend_bound (q v : Q) : cast_decimal 3 2 q = Val v -> Qabs v < 10.
Proof. intros Hv. exact (cast_decimal_bound 3 2 q v Hv). Qed.

Lemma stability_of_rates_phase2_no_drift (weekly : list Q)
    (r : stability_row_phase2) :
  stability_of_rates_phase2 weekly = Val r -> p2_drift_detected r = false.
Proof.
  unfold stability_of_rates_phase2.
  destruct (array_length weekly) as [rate_count |];
    [| intros [= <-]; reflexivity].
  destruct (rate_count <? 3)%Z; [intros [= <-]; reflexivity |].
  destruct (cast_decimal 5 2 _) as [mean_rate |]; cbn [sql_bind];
    [| discriminate].
  destruct (cast_decimal 8 3 _) as [variance_calc |]; cbn [sql_bind];
    [| discriminate].
  match goal with
  | |- sql_bind ?score _ = _ -> _ =>
      destruct score as [stability_calc |]; cbn [sql_bind]; [| discriminate]
  end.
  destruct (4 <=? rate_count)%Z; cbn [sql_bind];
    [| intros [= <-]; reflexivity].
  destruct (cast_decimal 3 2 _) as [recent_trend |] eqn:Hrecent;
    cbn [sql_bind]; [| discriminate].
  destruct (cast_decimal 3 2 _) as [historical_trend |] eqn:Hhistorical
    in |- *; cbn [sql_bind]; [| discriminate].
  intros Hr. apply Val_inj in Hr. subst r. cbv [p2_drift_detected].
  apply Qlt_bool_false.
  apply trend_bound in Hrecent, Hhistorical.
  apply Qabs_Qlt_condition in Hrecent, Hhistorical.
  destruct Hrecent, Hhistorical.
  apply Qabs_case; intros _; lra.
Qed.

(** X15: the function as fix-phase2-schema-proper.js creates it never
    returns a row with the drift flag set: its two trends are DECIMAL(3,2),
    below 10 in absolute value, so they are never more than 20 apart. *)
Theorem phase2_never_reports_drift (now : Z)
    (pattern_type_param pattern_value_param : string)
    (user_id_param : option string) (d : db) (r : stability_row_phase2) :
  calculate_pattern_stability_phase2 now pattern_type_param
    pattern_value_param user_id_param d = Val r ->
  p2_drift_detected r = false.
Proof.
  unfold calculate_pattern_stability_phase2.
  destruct (sql_map (cast_decimal 5 2) _) as [rates |]; cbn [sql_bind];
    [| discriminate].
  apply stability_of_rates_phase2_no_drift.
Qed.

Lemma phase2_never_reports_drift_witness :
  match calculate_pattern_stability_phase2 (4 * seconds_per_week) "edit_type"
          "tone" None faint_db with
  | Val r => length (p2_weekly_rates r) = 4%nat /\ p2_drift_detected r = false
  | Raise _ => False
  end.
Proof.
  destruct (calculate_pattern_stability_phase2 (4 * seconds_per_week)
              "edit_type" "tone" None faint_db) as [r | e] eqn:Hrun.
  - split.
    + vm_compute in Hrun. apply Val_inj in Hrun. subst r. reflexivity.
    + exact (phase2_never_reports_drift _ _ _ _ _ r Hrun).
  - vm_compute in Hrun. discriminate.
Defined.

Lemma sql_bind_overflow {A B : Type} (m : sql A) (k : A -> sql B) :
  (forall e, m = Raise e -> e = numeric_field_overflow) ->
  (forall a, m = Val a -> k a = Raise numeric_field_overflow) ->
  sql_bind m k = Raise numeric_field_overflow.
Proof.
  intros Hraise Hval. destruct m as [a | e]; cbn [sql_bind].
  - apply Hval. reflexivity.
  - rewrite (Hraise e eq_refl). reflexivity.
Qed.

Lemma stability_of_rates_phase2_overflows (weekly : list Q) :
  (4 <= length weekly)%nat ->
  10 <= sql_avg (skipn (length weekly - 2) weekly)
  \/ 10 <= sql_avg (firstn (length weekly - 2) weekly) ->
  stability_of_rates_phase2 weekly = Raise numeric_field_overflow.
Proof.
  intros Hlen Htrend. unfold stability_of_rates_phase2.
  assert (Hcount : array_length weekly = Some (Z.of_nat (length weekly))).
  { destruct weekly; [cbn in Hlen; lia | reflexivity]. }
  rewrite Hcount.
  destruct (Z.ltb_spec (Z.of_nat (length weekly)) 3) as [Hshort | _]; [lia |].
  destruct (Z.leb_spec 4 (Z.of_nat (length weekly))) as [_ | Hshort]; [| lia].
  rewrite recent_slice, historical_slice by lia.
  apply sql_bind_overflow; [apply cast_decimal_Raise |].
  intros mean_rate _.
  apply sql_bind_overflow; [apply cast_decimal_Raise |].
  intros variance_calc Hvariance.
  apply sql_bind_overflow.
  { intros e. destruct (Qlt_bool 0 mean_rate); [| discriminate].
    unfold numeric_sqrt.
    assert (Hvar : Qlt_bool variance_calc 0 = false).
    { apply Qlt_bool_false. apply cast_decimal_Val in Hvariance.
      rewrite Hvariance.
      apply numeric_round_nonneg, sql_avg_nonneg, squares_nonneg. }
    rewrite Hvar. cbn [sql_bind]. apply cast_decimal_Raise. }
  intros stability_calc _.
  match goal with
  | |- sql_bind ?m _ = _ => assert (Hm : m = Raise numeric_field_overflow)
  end.
  { destruct Htrend as [Hrecent | Hhistorical].
    - rewrite (trend_overflows _ Hrecent). reflexivity.
    - destruct (cast_decimal 3 2 (sql_avg (skipn _ _)))
        as [recent_trend | e'] eqn:Hcast; cbn [sql_bind].
      + rewrite (trend_overflows _ Hhistorical). reflexivity.
      + rewrite (cast_decimal_Raise _ _ _ _ Hcast). reflexivity. }
  rewrite Hm. reflexivity.
Qed.

(** X16: where the later version of the function returns four or more
    weekly rates whose last two, or the ones before them, average 10 or
    more, the function as fix-phase2-schema-proper.js creates it raises
    numeric_field_overflow on the same events. *)
Theorem phase2_overflows_on_ordinary_rates (now : Z)
    (pattern_type_param pattern_value_param : string)
    (user_id_param : option string) (d : db) (r : stability_row) :
  calculate_pattern_stability now pattern_type_param pattern_value_param
    user_id_param d = Val r ->
  (4 <= length (weekly_rates r))%nat ->
  10 <= sql_avg (skipn (length (weekly_rates r) - 2) (weekly_rates r))
  \/ 10 <= sql_avg (firstn (length (weekly_rates r) - 2) (weekly_rates r)) ->
  calculate_pattern_stability_phase2 now pattern_type_param
    pattern_value_param user_id_param d = Raise numeric_field_overflow.
Proof.
  unfold calculate_pattern_stability, calculate_pattern_stability_phase2.
  destruct (sql_map (cast_decimal 5 2) _) as [rates |]; cbn [sql_bind];
    [| discriminate].
  intros Hrun Hlen Htrend.
  destruct (stability_of_rates_sound rates r Hrun) as (Hrates & _).
  rewrite Hrates in Hlen, Htrend.
  apply stability_of_rates_phase2_overflows; assumption.
Qed.

Lemma phase2_overflows_on_ordinary_rates_witness :
  calculate_pattern_stability_phase2 (5 * seconds_per_week) "edit_type" "tone"
    None steady_db = Raise numeric_field_overflow.
Proof.
  destruct (calculate_pattern_stability (5 * seconds_per_week) "edit_type"
              "tone" None steady_db) as [r | e] eqn:Hrun.
  - assert (Hrates : weekly_rates r = steady_weeks).
    { vm_compute in Hrun. apply Val_inj in Hrun. subst r. reflexivity. }
    apply (phase2_overflows_on_ordinary_rates _ _ _ _ _ r Hrun).
    + rewrite Hrates. cbn. lia.
    + left. rewrite Hrates. vm_compute. discriminate.
  - vm_compute in Hrun. discriminate.
Defined.

(** X17: wherever the later version of the function flags drift on weekly
    averages between 0 and 100, the version of
    fix-phase2-schema-proper.js raises numeric_field_overflow. *)
Theorem drift_needs_the_wider_trends (weekly : list Q) (r : stability_row) :
  Forall weekly_average weekly -> (length weekly <= 64)%nat ->
  stability_of_rates weekly = Val r -> drift_detected r = true ->
  stability_of_rates_phase2 weekly = Raise numeric_field_overflow.
Proof.
  intros Hall Hlen Hrun Hdrift.
  destruct (stability_of_rates_sound weekly r Hrun)
    as (_ & _ & _ & _ & _ & Hfour).
  specialize (Hfour Hdrift).
  rewrite stability_of_rates_closed_form in Hrun by (try assumption; lia).
  apply Val_inj in Hrun. subst r.
  unfold stability_closed_form in Hdrift. cbv [drift_detected] in Hdrift.
  destruct (Nat.leb_spec 4 (length weekly)) as [_ | Hshort]; [| lia].
  apply Qlt_bool_iff in Hdrift.
  set (recent := skipn (length weekly - 2) weekly) in *.
  set (historical := firstn (length weekly - 2) weekly) in *.
  assert (Hrecent : 0 <= numeric_round 3 (sql_avg recent)).
  { apply numeric_round_nonneg, sql_avg_nonneg.
    eapply List.Forall_impl; [| apply Forall_skipn_keep; exact Hall].
    intros x (_ & Hx & _). exact Hx. }
  assert (Hhistorical : 0 <= numeric_round 3 (sql_avg historical)).
  { apply numeric_round_nonneg, sql_avg_nonneg.
    eapply List.Forall_impl; [| apply Forall_firstn_keep; exact Hall].
    intros x (_ & Hx & _). exact Hx. }
  destruct (numeric_round_error 3 (sql_avg recent)) as [Hr1 Hr2].
  destruct (numeric_round_error 3 (sql_avg historical)) as [Hh1 Hh2].
  rewrite half_unit_3 in Hr1, Hr2, Hh1, Hh2.
  apply stability_of_rates_phase2_overflows; [exact Hfour |].
  fold recent historical.
  revert Hdrift. apply Qabs_case; intros _ Hdrift; [left | right]; lra.
Qed.

Lemma drift_needs_the_wider_trends_witness :
  stability_of_rates_phase2 declining_weeks = Raise numeric_field_overflow.
Proof.
  apply (drift_needs_the_wider_trends declining_weeks declining_stability).
  - unfold declining_weeks, zs. cbn [map]. weekly_averages.
  - cbn. lia.
  - vm_compute. reflexivity.
  - reflexivity.
Defined.

(** * LearningService: metrics and the analyze-edit route *)

Local Open Scope Z_scope.

(** ** The success metrics *)

Lemma COUNT_cons {A : Type} (condition : A -> bool) (r : A) (rows : list A) :
  COUNT condition (r :: rows)
  = (if condition r then 1 else 0) + COUNT condition rows.
Proof.
  unfold COUNT. cbn [List.filter].
  destruct (condition r); cbn [length]; lia.
Qed.

Lemma bands_of_a_row (r : generated_responses_row) :
  percentage_not_negative r ->
  (if no_edits_filter r then 1 else 0)
  + (if minor_edits_filter r then 1 else 0)
  + (if major_rewrites_filter r then 1 else 0)
  + (if deleted_drafts_filter r then 1 else 0)
  = 1 + (if unsent_within_70 r then 1 else 0).
Proof.
  unfold percentage_not_negative, unsent_within_70, no_edits_filter,
    minor_edits_filter, major_rewrites_filter, deleted_drafts_filter.
  destruct (gr_edit_percentage r) as [p |], (gr_was_sent r) as [[|] |];
    cbn [sql_compare IS_NULL sql_or sql_and holds Bool.eqb];
    try reflexivity; intros Hp;
    destruct (Z.eqb_spec p 0); destruct (Z.ltb_spec 0 p);
    destruct (Z.leb_spec p 20); destruct (Z.ltb_spec 20 p);
    destruct (Z.leb_spec p 70); destruct (Z.ltb_spec 70 p);
    cbn [sql_or sql_and holds andb negb]; try reflexivity; lia.
Qed.

Lemma success_case_is_calculateSuccessScore (p : Z) :
  success_case (Some p) = calculateSuccessScore p.
Proof.
  unfold success_case, calculateSuccessScore.
  cbn [sql_compare IS_NULL sql_or holds].
  destruct (p =? 0); [reflexivity |]. cbn [sql_or holds].
  destruct (p <=? 20); [reflexivity |].
  destruct (p <=? 70); reflexivity.
Qed.

Lemma window_start_returns (now n : Z) :
  0 <= now -> 1 <= n <= 2440588 ->
  window_start now n = Val (CURRENT_DATE now - n * seconds_per_day).
Proof.
  intros Hnow [Hn1 Hn2]. unfold window_start.
  destruct (Z.ltb_spec 2147483647 n) as [Hbig | _]; [lia |].
  destruct (Z.ltb_spec (CURRENT_DATE now - n * seconds_per_day) MIN_TIMESTAMP)
    as [Hearly | _]; [| reflexivity].
  exfalso. unfold CURRENT_DATE, MIN_TIMESTAMP, seconds_per_day in Hearly.
  pose proof (Z.mod_pos_bound now 86400 ltac:(lia)) as Hday.
  assert (Hfloor : 0 <= now - now mod 86400).
  { pose proof (Z.mod_le now 86400 Hnow ltac:(lia)). lia. }
  lia.
Qed.

(** X18: the query of calculateSuccessMetrics is rejected when the number
    of days exceeds 2147483647.  For a clock at or after the epoch and at
    most 2440588 days it returns; then, when no stored edit percentage is
    negative, the four counts add up to the total plus the number of unsent
    responses edited by at most 70 percent (or with no percentage), which
    are counted twice, so they never add up to less than the total; the
    average is NULL exactly when no row is selected, and otherwise it is
    the NUMERIC average of calculateSuccessScore over the selected rows,
    NULL counting as 0 percent, within half a unit of the sixteenth decimal
    place of their mean. *)
Theorem success_metrics_buckets (now : Z) (days : option Z)
    (userId : option string)
    (generated_responses : list generated_responses_row) :
  (2147483647 < safeDays days ->
   success_metrics_query now days userId generated_responses
   = Raise interval_rejected)
  /\ (0 <= now -> safeDays days <= 2440588 ->
      Forall percentage_not_negative generated_responses ->
      exists m,
        success_metrics_query now days userId generated_responses = Val m
        /\ let rows :=
             List.filter
               (metrics_where
                  (CURRENT_DATE now - safeDays days * seconds_per_day) userId)
               generated_responses in
           let scores :=
             map (fun r =>
                    calculateSuccessScore (default 0 (gr_edit_percentage r)))
               rows in
           no_edits m + minor_edits m + major_rewrites m + deleted_drafts m
           = total_responses m + COUNT unsent_within_70 rows
           /\ total_responses m
              <= no_edits m + minor_edits m + major_rewrites m
                 + deleted_drafts m
           /\ (avg_success_rate m = None <-> total_responses m = 0)
           /\ (forall rate,
                 avg_success_rate m = Some rate ->
                 rate = AVG_integer scores
                 /\ (Qabs (rate - sql_avg (zs scores))
                     <= 1 # 20000000000000000)%Q)).
Proof.
  split.
  { intros Hbig. unfold success_metrics_query, window_start.
    destruct (Z.ltb_spec 2147483647 (safeDays days)) as [_ | Hle]; [| lia].
    reflexivity. }
  intros Hnow Hdays Hall.
  assert (Hone : 1 <= safeDays days) by (unfold safeDays; lia).
  unfold success_metrics_query.
  rewrite (window_start_returns now (safeDays days) Hnow (conj Hone Hdays)).
  cbn [sql_bind]. eexists. split; [reflexivity |]. cbv zeta.
  cbn [no_edits minor_edits major_rewrites deleted_drafts total_responses
       avg_success_rate].
  assert (Hrows : Forall percentage_not_negative
                    (List.filter
                       (metrics_where
                          (CURRENT_DATE now - safeDays days * seconds_per_day)
                          userId)
                       generated_responses)).
  { apply List.Forall_forall. intros r Hr.
    apply List.filter_In in Hr as [Hr _].
    rewrite List.Forall_forall in Hall. apply Hall. exact Hr. }
  set (rows := List.filter
                 (metrics_where
                    (CURRENT_DATE now - safeDays days * seconds_per_day) userId)
                 generated_responses) in *.
  clearbody rows.
  assert (Hsum :
    COUNT no_edits_filter rows + COUNT minor_edits_filter rows
    + COUNT major_rewrites_filter rows + COUNT deleted_drafts_filter rows
    = Z.of_nat (length rows) + COUNT unsent_within_70 rows).
  { induction Hrows as [| r rows Hr Hrows IH]; [reflexivity |].
    rewrite !COUNT_cons. pose proof (bands_of_a_row r Hr) as Hrow.
    cbn [length]. lia. }
  split; [exact Hsum |]. split.
  - rewrite Hsum. unfold COUNT. lia.
  - split.
    + destruct rows; cbn [length]; split; try discriminate; try reflexivity;
        lia.
    + intros rate. destruct rows as [| r rows]; [discriminate |].
      intros Hrate. apply (inj Some) in Hrate. subst rate.
      rewrite (map_ext (fun r0 => success_case (gr_edit_percentage r0))
                 (fun r0 => calculateSuccessScore
                              (default 0 (gr_edit_percentage r0)))).
      * split; [reflexivity |].
        apply AVG_integer_error; [discriminate |].
        apply List.Forall_forall. intros score Hscore.
        apply in_map_iff in Hscore as [r0 [<- _]].
        apply calculateSuccessScore_range.
      * intros row.
        destruct (gr_edit_percentage row) as [p |]; cbn [default].
        -- apply success_case_is_calculateSuccessScore.
        -- reflexivity.
Qed.

Lemma success_metrics_buckets_witness :
  exists m,
    success_metrics_query 0 (Some 7) None [unsent_light_edit] = Val m
    /\ total_responses m = 1
    /\ no_edits m + minor_edits m + major_rewrites m + deleted_drafts m = 2.
Proof.
  destruct (success_metrics_buckets 0 (Some 7) None [unsent_light_edit])
    as (_ & Hreturns).
  destruct Hreturns as (m & Hrun & Hsum & _).
  - lia.
  - vm_compute. discriminate.
  - constructor; [cbn; lia | constructor].
  - exists m. split; [exact Hrun |].
    cbv zeta in Hsum.
    vm_compute in Hrun. apply Val_inj in Hrun. subst m.
    split; reflexivity.
Defined.

(** ** The route in front of analyzeEdit *)

(** X19: the handler of POST /learning/analyze-edit answers 400 and
    leaves everything as it was exactly when one of the three fields is
    absent or empty; otherwise it sends one INSERT and answers 200 with the
    analysis, whether or not the write succeeded; it never answers 500. *)
Theorem analyze_edit_route_statuses
    (getAIEditAnalysis : js_string -> js_string -> ai_edit_analysis)
    (body : analyze_edit_body) (userId : option string) (w : world) :
  let outcome := analyze_edit_route getAIEditAnalysis body userId w in
  (not_string (body_responseId body) || not_text (body_originalText body)
   || not_text (body_editedText body) = true ->
   outcome = (status_400_missing_fields, w))
  /\ (not_string (body_responseId body) || not_text (body_originalText body)
      || not_text (body_editedText body) = false ->
      exists responseId originalText editedText analysis,
        body_responseId body = Some responseId
        /\ body_originalText body = Some originalText
        /\ body_editedText body = Some editedText
        /\ outcome
           = (status_200_analysis analysis,
              snd (analyzeEdit getAIEditAnalysis responseId originalText
                     editedText userId w))
        /\ successScore analysis
           = calculateSuccessScore
               (calculateEditPercentage originalText editedText)
        /\ queries_sent (snd outcome) = S (queries_sent w))
  /\ fst outcome <> status_500_failed.
Proof.
  cbv zeta. unfold analyze_edit_route.
  destruct (body_responseId body) as [responseId |];
    [| repeat split; try discriminate].
  destruct (body_originalText body) as [originalText |];
    [| repeat split; try discriminate;
       cbn [not_text]; rewrite orb_true_r; discriminate].
  destruct (body_editedText body) as [editedText |];
    [| repeat split; try discriminate;
       cbn [not_text]; rewrite orb_true_r; discriminate].
  destruct (not_string (Some responseId) || not_text (Some originalText)
            || not_text (Some editedText)) eqn:Hmissing.
  { repeat split; discriminate. }
  assert (Hrun :
    exists analysis,
      analyzeEdit getAIEditAnalysis responseId originalText editedText userId w
      = (Return analysis,
         snd (analyzeEdit getAIEditAnalysis responseId originalText editedText
                userId w))
      /\ successScore analysis
         = calculateSuccessScore
             (calculateEditPercentage originalText editedText)
      /\ queries_sent
           (snd (analyzeEdit getAIEditAnalysis responseId originalText
                   editedText userId w)) = S (queries_sent w)).
  { unfold analyzeEdit, storeEditAnalysis.
    pose proof (pool_query_insert_sent
                  {| responseId := responseId; originalText := originalText;
                     editedText := editedText;
                     editType :=
                       ai_editType (getAIEditAnalysis originalText editedText);
                     editPercentage :=
                       calculateEditPercentage originalText editedText;
                     editDescription :=
                       ai_description (getAIEditAnalysis originalText editedText);
                     successScore :=
                       calculateSuccessScore
                         (calculateEditPercentage originalText editedText);
                     learningInsight :=
                       ai_insight (getAIEditAnalysis originalText editedText) |}
                  userId w) as [Hsent _].
    destruct (pool_query_insert _ userId w) as [[[] | error] w'];
      cbn [fst snd] in *; eexists; (split; [reflexivity |]);
      (split; [reflexivity |]); cbn [console_error queries_sent]; exact Hsent. }
  destruct Hrun as (analysis & Hrun & Hscore & Hsent).
  rewrite Hrun. cbn [fst snd]. repeat split; try discriminate.
  intros _. exists responseId, originalText, editedText, analysis.
  repeat split; assumption.
Qed.

Lemma analyze_edit_route_statuses_witness :
  analyze_edit_route fixed_ai
    {| body_responseId := Some "r1"%string;
       body_originalText := Some (ascii_units "thanks a lot");
       body_editedText := Some [] |} None reachable_world
  = (status_400_missing_fields, reachable_world).
Proof.
  destruct (analyze_edit_route_statuses fixed_ai
              {| body_responseId := Some "r1"%string;
                 body_originalText := Some (ascii_units "thanks a lot");
                 body_editedText := Some [] |} None reachable_world)
    as (Hmissing & _).
  apply Hmissing. reflexivity.
Defined.

(** ** The word-level difference *)

Lemma split_from_pieces (in_sep : bool) (word s : js_string) :
  exists first rest,
    split_from in_sep word s = first :: rest
    /\ Forall (fun piece => Forall (fun c => is_white_space c = false) piece)
         rest
    /\ (Forall (fun c => is_white_space c = false) word ->
        Forall (fun c => is_white_space c = false) first).
Proof.
  revert in_sep word. induction s as [| c s IH]; intros in_sep word.
  - exists (rev word), []. cbn. repeat split; [constructor |].
    intros Hword. apply List.Forall_rev. exact Hword.
  - cbn [split_from]. destruct (is_white_space c) eqn:Hc.
    + destruct in_sep.
      * apply IH.
      * destruct (IH true []) as (first & rest & Heq & Hrest & Hfirst).
        exists (rev word), (first :: rest). rewrite Heq.
        split; [reflexivity |]. split.
        -- constructor; [apply Hfirst; constructor | exact Hrest].
        -- intros Hword. apply List.Forall_rev. exact Hword.
    + destruct (IH false (c :: word)) as (first & rest & Heq & Hrest & Hfirst).
      exists first, rest. split; [exact Heq |]. split; [exact Hrest |].
      intros Hword. apply Hfirst. constructor; assumption.
Qed.

Lemma differing_words_bounds (a b : list js_string) :
  0 <= differing_words a b <= Z.of_nat (Nat.min (length a) (length b)).
Proof.
  revert b. induction a as [| x a IH]; intros [| y b]; cbn [differing_words];
    try (cbn; lia).
  specialize (IH b). cbn [length Nat.min].
  destruct (js_string_eqb x y); lia.
Qed.

Lemma differing_words_zero (a b : list js_string) :
  length a = length b -> differing_words a b = 0 -> a = b.
Proof.
  revert b. induction a as [| x a IH]; intros [| y b] Hlen Hzero;
    try reflexivity; try discriminate.
  cbn [differing_words] in Hzero. injection Hlen as Hlen.
  pose proof (differing_words_bounds a b) as [Hlo _].
  destruct (js_string_eqb x y) eqn:Hxy; [| lia].
  apply js_string_eqb_eq in Hxy. subst y.
  f_equal. apply IH; [exact Hlen | lia].
Qed.

(** X20: in calculateEditPercentage the split never yields an empty list,
    so maxLength is at least 1 and the division is never by zero; the
    number of changes lies between 0 and maxLength; it is 0 exactly when
    the two word lists are equal; no word contains white space; and when
    the texts differ and the edited one is not blank, the percentage is
    Math.round of that ratio times 100, capped at 100. *)
Theorem edit_ratio_is_a_fraction (original edited : js_string) :
  let originalWords := split_white_space original in
  let editedWords := split_white_space edited in
  let changes :=
    Z.abs (Z.of_nat (length originalWords) - Z.of_nat (length editedWords))
    + differing_words originalWords editedWords in
  let maxLength :=
    Z.max (Z.of_nat (length originalWords)) (Z.of_nat (length editedWords)) in
  1 <= maxLength
  /\ 0 <= changes <= maxLength
  /\ (changes = 0 <-> originalWords = editedWords)
  /\ Forall (fun piece => Forall (fun c => is_white_space c = false) piece)
       originalWords
  /\ (original <> edited -> ~ blank edited ->
      calculateEditPercentage original edited
      = Z.min (Math_round (to_float changes / to_float maxLength * 100)%float)
          100).
Proof.
  cbv zeta.
  assert (Hcode : original <> edited -> ~ blank edited ->
            calculateEditPercentage original edited
            = Z.min
                (Math_round
                   (to_float
                      (Z.abs (Z.of_nat (length (split_white_space original))
                              - Z.of_nat (length (split_white_space edited)))
                       + differing_words (split_white_space original)
                           (split_white_space edited))
                    / to_float
                        (Z.max (Z.of_nat (length (split_white_space original)))
                           (Z.of_nat (length (split_white_space edited))))
                    * 100)%float) 100).
  { intros Hne Hblank. unfold calculateEditPercentage.
    destruct (js_string_eqb original edited) eqn:Heq.
    { apply js_string_eqb_eq in Heq. contradiction. }
    destruct (js_string_eqb edited []) eqn:Hempty.
    { apply js_string_eqb_eq in Hempty. subst edited.
      exfalso. apply Hblank. reflexivity. }
    destruct (js_string_eqb (trim edited) []) eqn:Htrim.
    { apply js_string_eqb_eq in Htrim. contradiction. }
    reflexivity. }
  revert Hcode. unfold split_white_space.
  destruct (split_from_pieces false [] original)
    as (first & rest & Ho & Hrest & Hfirst).
  destruct (split_from_pieces false [] edited)
    as (first' & rest' & He & _ & _).
  rewrite Ho, He. intros Hcode.
  pose proof (differing_words_bounds (first :: rest) (first' :: rest'))
    as [Hlo Hhi].
  split; [cbn [length]; lia |]. split; [lia |].
  split; [| split; [| exact Hcode]].
  - split.
    + intros Hzero. apply differing_words_zero; lia.
    + intros Heq. rewrite <- Heq.
      assert (Hsame : forall l, differing_words l l = 0).
      { induction l as [| x l IH]; [reflexivity |].
        cbn [differing_words].
        rewrite (proj2 (js_string_eqb_eq x x) eq_refl). lia. }
      rewrite Hsame. lia.
  - constructor; [apply Hfirst; constructor | exact Hrest].
Qed.

Lemma edit_ratio_is_a_fraction_witness :
  calculateEditPercentage (ascii_units "thanks a lot") (ascii_units "thanks")
  = 67.
Proof.
  destruct (edit_ratio_is_a_fraction (ascii_units "thanks a lot")
              (ascii_units "thanks")) as (_ & _ & _ & _ & Hcode).
  rewrite Hcode.
  - vm_compute. reflexivity.
  - discriminate.
  - discriminate.
Defined.

(** ** Patterns seen less than twice a week *)

(** X21: when no calendar week of the window holds two or more events of
    the pattern, the function returns its default row: score 0.5 and
    variance 0 in the later version; score 0 and a NULL variance in the
    version of fix-phase2-schema-proper.js, which compares the NULL
    [rate_count] without testing it. *)
Theorem sparse_pattern_gets_default_row (now : Z)
    (pattern_type_param pattern_value_param : string)
    (user_id_param : option string) (d : db) :
  (forall w,
      (length (week_bucket now pattern_value_param user_id_param w d) < 2)%nat) ->
  calculate_pattern_stability now pattern_type_param pattern_value_param
    user_id_param d = Val neutral_row
  /\ calculate_pattern_stability_phase2 now pattern_type_param
       pattern_value_param user_id_param d
     = Val {| p2_stability_score := 0; p2_pattern_variance := None;
              p2_weekly_rates := []; p2_is_stable := false;
              p2_drift_detected := false |}.
Proof.
  intros Hsparse.
  assert (Hempty : weekly_query now pattern_value_param user_id_param
                     (edit_analyses d) = []).
  { destruct (weekly_query now pattern_value_param user_id_param
                (edit_analyses d)) as [| [w avg] rest] eqn:Hquery;
      [reflexivity |].
    assert (Hin : In (w, avg)
                    (weekly_query now pattern_value_param user_id_param
                       (edit_analyses d)))
      by (rewrite Hquery; left; reflexivity).
    apply weekly_query_member in Hin as [Hcount _].
    specialize (Hsparse w). lia. }
  unfold calculate_pattern_stability, calculate_pattern_stability_phase2,
    weeklyAverages.
  cbn [fst]. rewrite Hempty. split; reflexivity.
Qed.

Lemma sparse_pattern_gets_default_row_witness :
  calculate_pattern_stability 10 "edit_type" "tone" None
    {| edit_analyses := [sample_event "tone" 75 0];
       learning_insights := learning_insights empty_db |}
  = Val neutral_row.
Proof.
  apply sparse_pattern_gets_default_row.
  intros w. unfold week_bucket. cbn [edit_analyses].
  destruct (List.filter (in_window 10 "tone" None) [sample_event "tone" 75 0])
    as [| ea [| ea' rest]] eqn:Hkept.
  - cbn. lia.
  - cbn [List.filter]. destruct (_ =? w); cbn; lia.
  - vm_compute in Hkept. discriminate.
Defined.

Local Open Scope Q_scope.

(** ** The casts of the trigger's UPDATE *)

Lemma stability_of_rates_scales (weekly : list Q) (r : stability_row) :
  stability_of_rates weekly = Val r ->
  numeric_round 3 (stability_score r) == stability_score r
  /\ numeric_round 3 (pattern_variance r) == pattern_variance r
  /\ Qabs (pattern_variance r) < 100000.
Proof.
  unfold stability_of_rates.
  destruct (array_length weekly) as [rate_count |].
  2:{ intros Hr. apply Val_inj in Hr. subst r.
      repeat split; vm_compute; reflexivity. }
  destruct (rate_count <? 3)%Z.
  { intros Hr. apply Val_inj in Hr. subst r.
    repeat split; vm_compute; reflexivity. }
  destruct (sql_map (cast_decimal 8 3) weekly) as [rates | e]; [| discriminate].
  cbn [sql_bind].
  destruct (cast_decimal 8 3 (sql_avg rates)) as [mean_rate | e];
    [| discriminate].
  cbn [sql_bind].
  destruct (cast_decimal 8 3 _) as [variance_calc | e] eqn:Hvar;
    [| discriminate].
  cbn [sql_bind].
  match goal with
  | |- context [sql_bind ?m _] =>
      assert (Hscore : forall v, m = Val v -> numeric_round 3 v == v)
  end.
  { intros v. destruct (Qlt_bool 0 mean_rate).
    - destruct (numeric_sqrt variance_calc) as [root | e]; [| discriminate].
      cbn [sql_bind].
      destruct (cast_decimal 5 3 _) as [cv | e] eqn:Hcv; [| discriminate].
      cbn [sql_bind]. intros Hv. apply Val_inj in Hv. subst v.
      apply cast_decimal_Val in Hcv.
      unfold GREATEST, LEAST.
      destruct (Qle_bool 1 cv); [vm_compute; reflexivity |].
      destruct (Qle_bool 0 cv); [| vm_compute; reflexivity].
      rewrite Hcv at 1. rewrite numeric_round_idem. rewrite <- Hcv.
      reflexivity.
    - intros Hv. apply Val_inj in Hv. subst v. vm_compute. reflexivity. }
  match goal with
  | |- context [sql_bind ?m _] => destruct m as [stability_calc | e]
  end; [| discriminate].
  specialize (Hscore stability_calc eq_refl). cbn [sql_bind].
  match goal with
  | |- context [sql_bind ?m _] => destruct m as [drift_detected_calc | e]
  end; [| discriminate].
  cbn [sql_bind]. intros Hr. apply Val_inj in Hr. subst r.
  cbv [stability_score pattern_variance].
  split; [exact Hscore |]. split.
  - pose proof (cast_decimal_Val _ _ _ _ Hvar) as Hv.
    rewrite Hv at 1. rewrite numeric_round_idem. rewrite <- Hv. reflexivity.
  - exact (cast_decimal_bound 8 3 _ _ Hvar).
Qed.

(** X22: the two casts in the trigger's UPDATE, to DECIMAL(5,3) and to
    DECIMAL(8,3), never overflow and never change a value: whatever row
    calculate_pattern_stability returns, its score and its variance already
    have three decimal places and fit. *)
Theorem update_casts_change_nothing (now : Z)
    (pattern_type_param pattern_value_param : string)
    (user_id_param : option string) (d : db) (r : stability_row) :
  calculate_pattern_stability now pattern_type_param pattern_value_param
    user_id_param d = Val r ->
  (exists score, cast_decimal 5 3 (stability_score r) = Val score
                 /\ score == stability_score r)
  /\ (exists variance, cast_decimal 8 3 (pattern_variance r) = Val variance
                       /\ variance == pattern_variance r).
Proof.
  unfold calculate_pattern_stability.
  destruct (sql_map (cast_decimal 5 2) _) as [rates |]; cbn [sql_bind];
    [| discriminate].
  intros Hrun.
  destruct (stability_of_rates_scales rates r Hrun) as (Hs & Hv & Hbound).
  destruct (stability_of_rates_sound rates r Hrun) as (_ & [Hlo Hhi] & _).
  split.
  - exists (numeric_round 3 (stability_score r)). split; [| exact Hs].
    apply cast_decimal_in_range. rewrite Hs.
    change (inject_Z (Zpos (scale (5 - 3)))) with 100.
    apply Qabs_case; intros _; lra.
  - exists (numeric_round 3 (pattern_variance r)). split; [| exact Hv].
    apply cast_decimal_in_range. rewrite Hv. exact Hbound.
Qed.

Lemma update_casts_change_nothing_witness :
  exists score,
    cast_decimal 5 3 (stability_score declining_stability) = Val score
    /\ score == stability_score declining_stability.
Proof.
  refine (proj1 (update_casts_change_nothing (7 * seconds_per_week)
                   "edit_type" "tone" None declining_db declining_stability _)).
  vm_compute. reflexivity.
Defined.
